(** * Service and session lifecycle manager (scripts/service_manager.py)

    A shallow embedding of the process registry, the service controller,
    the session state machine and the three lifecycle commands, followed
    by the properties established about them.

    Conventions of the model.
    - Text is a [string] of 8-bit characters.  Python's notion of
      whitespace ([str.strip], the regular expression class \s) is
      modelled on its ASCII part; code points above 127 are ordinary
      characters.  [int] skips the white space of C only, and [int] and
      [str] refuse numbers of more than 4300 digits.
    - The file system is a finite map from paths (lists of components,
      relative to MEMORY_DIR) to nodes.  MEMORY_DIR and SCRIPT_DIR always
      exist, since the program runs from a file inside them.
    - Every path can be examined: stat of it succeeds or finds nothing.
      The module [Os] has the existence test without this assumption,
      and [read_pid] on top of it.
    - Everything the program asks of the operating system (signals, TCP
      probes, child processes, the clock) is answered by an oracle [Env]
      that sees the whole history of the run, so a theorem quantified
      over [Env] holds for every behaviour of the surroundings.
    - Every interaction is appended to a trace.  Decorative output
      (banners, headings, blank lines) is left out; each outcome line
      that the program prints is one [EvPrint] event. *)

From stdpp Require Import gmap strings list fin_maps.
From Stdlib Require Import ZArith Ascii String DecimalString DecimalZ.

Local Open Scope Z_scope.
Local Open Scope string_scope.

(** ** Python text primitives *)

Module PyText.

Definition newline : ascii := "010"%char.

(** ASCII part of [str.isspace]: TAB, LF, VT, FF, CR, FS, GS, RS, US, SPACE. *)
Definition py_isspace (c : ascii) : bool :=
  let n := nat_of_ascii c in
  ((9 <=? n)%nat && (n <=? 13)%nat) || ((28 <=? n)%nat && (n <=? 32)%nat).

Fixpoint lstrip (s : string) : string :=
  match s with
  | String c r => if py_isspace c then lstrip r else s
  | EmptyString => EmptyString
  end.

Fixpoint rstrip (s : string) : string :=
  match s with
  | String c r =>
      match rstrip r with
      | EmptyString => if py_isspace c then EmptyString else String c EmptyString
      | r' => String c r'
      end
  | EmptyString => EmptyString
  end.

(** [s.strip()] *)
Definition strip (s : string) : string := rstrip (lstrip s).

(** [s.replace(a, b)] for one-character [a] and [b]. *)
Fixpoint replace_char (a b : ascii) (s : string) : string :=
  match s with
  | String c r => String (if Ascii.eqb c a then b else c) (replace_char a b r)
  | EmptyString => EmptyString
  end.

(** [s.startswith(p)], returning what follows the prefix. *)
Fixpoint strip_prefix (p s : string) : option string :=
  match p, s with
  | EmptyString, _ => Some s
  | String a p', String b s' => if Ascii.eqb a b then strip_prefix p' s' else None
  | String _ _, EmptyString => None
  end.

Definition startswith (s p : string) : bool :=
  match strip_prefix p s with Some _ => true | None => false end.

(** [s.endswith(p)] *)
Fixpoint endswith (s p : string) : bool :=
  String.eqb s p ||
  match s with
  | String _ r => endswith r p
  | EmptyString => false
  end.

(** [needle in hay] *)
Fixpoint str_in (needle hay : string) : bool :=
  startswith hay needle ||
  match hay with
  | String _ r => str_in needle r
  | EmptyString => false
  end.

(** [s.split(sep)] for a one-character separator. *)
Fixpoint split_on (sep : ascii) (s : string) : list string :=
  match s with
  | EmptyString => [EmptyString]
  | String c r =>
      if Ascii.eqb c sep then EmptyString :: split_on sep r
      else match split_on sep r with
           | w :: ws => String c w :: ws
           | [] => [String c EmptyString]
           end
  end.

(** The text of [str(n)] for an integer. *)
Definition py_str (n : Z) : string := NilZero.string_of_int (Z.to_int n).

(** sys.int_max_str_digits at its default: [int] and [str] raise
    ValueError when more decimal digits than this would be converted. *)
Definition int_max_str_digits : nat := 4300.

(** [str(n)] returns, that is, [n] has no more digits than the limit. *)
Definition str_fits (n : Z) : bool :=
  (String.length (py_str (Z.abs n)) <=? int_max_str_digits)%nat.

(** The white space that [int] skips around a literal of ASCII text:
    the isspace of C (TAB, LF, VT, FF, CR, SPACE), without the
    separators FS to US that [str.strip] also removes. *)
Definition c_isspace (c : ascii) : bool :=
  let n := nat_of_ascii c in
  ((9 <=? n)%nat && (n <=? 13)%nat) || (n =? 32)%nat.

Fixpoint lstrip_c (s : string) : string :=
  match s with
  | String c r => if c_isspace c then lstrip_c r else s
  | EmptyString => EmptyString
  end.

Fixpoint rstrip_c (s : string) : string :=
  match s with
  | String c r =>
      match rstrip_c r with
      | EmptyString => if c_isspace c then EmptyString else String c EmptyString
      | r' => String c r'
      end
  | EmptyString => EmptyString
  end.

(** The characters of a literal that count towards the limit on
    digits: all but the underscores. *)
Fixpoint count_digits (s : string) : nat :=
  match s with
  | String c r => if Ascii.eqb c "_" then count_digits r else S (count_digits r)
  | EmptyString => O
  end.

(** Digits of a decimal literal as [int] accepts them: single underscores
    are allowed between digits, nowhere else. *)
Fixpoint int_digits (after_digit : bool) (s : string) : option Decimal.uint :=
  match s with
  | EmptyString => if after_digit then Some Decimal.Nil else None
  | String c r =>
      if Ascii.eqb c "_" then
        if after_digit then
          match r with
          | EmptyString => None
          | String _ _ => int_digits false r
          end
        else None
      else uint_of_char c (int_digits true r)
  end.

(** A literal without surrounding white space: one sign is allowed. *)
Definition int_literal (t : string) : option Z :=
  match t with
  | EmptyString => None
  | String c r =>
      if Ascii.eqb c "-" then
        match r with
        | EmptyString => None
        | _ => Z.of_int <$> (Decimal.Neg <$> int_digits false r)
        end
      else if Ascii.eqb c "+" then
        match r with
        | EmptyString => None
        | _ => Z.of_int <$> (Decimal.Pos <$> int_digits false r)
        end
      else Z.of_int <$> (Decimal.Pos <$> int_digits false (String c r))
  end.

(** What follows the sign of a literal. *)
Definition int_body (t : string) : string :=
  match t with
  | String c r => if Ascii.eqb c "-" || Ascii.eqb c "+" then r else t
  | EmptyString => EmptyString
  end.

(** [int(s)]: the white space of C around the literal is dropped;
    [None] stands for ValueError, which is also what a literal of more
    than [int_max_str_digits] digits gives. *)
Definition py_int (s : string) : option Z :=
  let t := rstrip_c (lstrip_c s) in
  if (int_max_str_digits <? count_digits (int_body t))%nat then None
  else int_literal t.

(** [str(x)] for an Optional[str] inside an f-string. *)
Definition fmt_opt (o : option string) : string :=
  match o with Some s => s | None => "None" end.

End PyText.

(** ** The fragment of Python's [re] that the program uses *)

Module Re.
Import PyText.

Inductive item :=
| Bol                                   (* ^ *)
| Eol                                   (* $ *)
| Lit (s : string)                      (* literal text *)
| OptLit (s : string)                   (* (?:text)? *)
| Rep (cls : ascii → bool) (least : nat) (greedy capture : bool).

Section Matcher.
(** The re.MULTILINE flag. *)
Variable multiline : bool.

Definition at_bol (prev : option ascii) : bool :=
  match prev with
  | None => true
  | Some c => multiline && Ascii.eqb c newline
  end.

Definition at_eol (s : string) : bool :=
  match s with
  | EmptyString => true
  | String c r => Ascii.eqb c newline && (multiline || String.eqb r EmptyString)
  end.

Fixpoint last_char (prev : option ascii) (s : string) : option ascii :=
  match s with
  | EmptyString => prev
  | String c r => last_char (Some c) r
  end.

Definition snoc (s : string) (c : ascii) : string := s ++ String c EmptyString.

(** A quantified character class followed by the continuation [k] of
    the pattern; the greedy form gives back characters one at a time,
    the lazy form takes them one at a time. *)
Fixpoint rep_greedy (cls : ascii → bool)
    (k : string → option ascii → string → option string)
    (least : nat) (acc : string) (prev : option ascii) (s : string)
    : option string :=
  let stop := match least with O => k acc prev s | S _ => None end in
  match s with
  | String c r =>
      if cls c then
        match rep_greedy cls k (Nat.pred least) (snoc acc c) (Some c) r with
        | Some g => Some g
        | None => stop
        end
      else stop
  | EmptyString => stop
  end.

Fixpoint rep_lazy (cls : ascii → bool)
    (k : string → option ascii → string → option string)
    (least : nat) (acc : string) (prev : option ascii) (s : string)
    : option string :=
  match (match least with O => k acc prev s | S _ => None end) with
  | Some g => Some g
  | None =>
      match s with
      | String c r =>
          if cls c then rep_lazy cls k (Nat.pred least) (snoc acc c) (Some c) r
          else None
      | EmptyString => None
      end
  end.

(** Backtracking match of a pattern at one position; the result is the
    text of group 1. *)
Fixpoint match_here (p : list item) (prev : option ascii) (s : string)
    (cap : string) : option string :=
  match p with
  | [] => Some cap
  | Bol :: p' => if at_bol prev then match_here p' prev s cap else None
  | Eol :: p' => if at_eol s then match_here p' prev s cap else None
  | Lit l :: p' =>
      match strip_prefix l s with
      | Some s' => match_here p' (last_char prev l) s' cap
      | None => None
      end
  | OptLit l :: p' =>
      match
        match strip_prefix l s with
        | Some s' => match_here p' (last_char prev l) s' cap
        | None => None
        end
      with
      | Some g => Some g
      | None => match_here p' prev s cap
      end
  | Rep cls least greedy capture :: p' =>
      (if greedy then rep_greedy else rep_lazy) cls
        (fun acc prev' s' => match_here p' prev' s' (if capture then acc else cap))
        least EmptyString prev s
  end.

Fixpoint search_from (p : list item) (prev : option ascii) (s : string)
    : option string :=
  match match_here p prev s EmptyString with
  | Some g => Some g
  | None =>
      match s with
      | String c r => search_from p (Some c) r
      | EmptyString => None
      end
  end.

(** [re.search(p, s).group(1)], or [None] when nothing matches. *)
Definition search (p : list item) (s : string) : option string :=
  search_from p None s.
End Matcher.

Definition not_newline (c : ascii) : bool := negb (Ascii.eqb c newline).
Definition not_slash (c : ascii) : bool := negb (Ascii.eqb c "/").

(** r'^# Task:\s*(.+)$' with re.MULTILINE *)
Definition task_header : list item :=
  [Bol; Lit "# Task:"; Rep py_isspace 0 true false; Rep not_newline 1 true true; Eol].

(** r'/([^/]+?)(?:\.git)?$' *)
Definition repo_name : list item :=
  [Lit "/"; Rep not_slash 1 false true; OptLit ".git"; Eol].

End Re.

Import PyText.

(** ** The surroundings: file system, signals, child processes *)

Abbreviation path := (list string).

(** What lies at a path: a regular file with its text, a file that
    exists but can be neither read nor written (its permission bits are
    cleared; the directory holding it is still writable), or a directory. *)
Inductive node :=
| File (text : string)
| Locked
| Dir.

Inductive signal := SIG0 | SIGTERM | SIGKILL.

(** The exception classes that occur; all derive from Exception.
    IOError is OSError. *)
Inductive exn := OSError | ValueError | OverflowError.

Record Config := mkConfig {
  cfg_name : string;
  cfg_command : list string;
  cfg_port : option Z
}.

(** One constructor per outcome line printed by the program. *)
Inductive msg :=
| MsgActiveSession (name : option string)
| MsgCreatedSession (name : string)
| MsgAlreadyRunning (name : string) (pid : Z)
| MsgPortBusy (name : string) (port : Z)
| MsgStarted (name : string) (pid : Z)
| MsgStartFailed (name : string) (log : path)
| MsgError (name : string) (e : exn)
| MsgStopped (name : string)
| MsgSummaryGenerated
| MsgArchived (name : option string)
| MsgNoSessionToArchive
| MsgHooksReady
| MsgEngineActive (url : string) (session : option string)
| MsgSomeServicesFailed
| MsgDeactivated
| MsgStatusActive (name : option string)
| MsgStatusNoSession
| MsgServiceRunning (name : string) (port : option Z)
| MsgServiceStopped (name : string)
| MsgWebUi (url : string)
| MsgKnowledge (file : string) (lines : nat)
| MsgUsage
| MsgUnknownCommand (command : string).

Inductive event :=
| EvKill (pid : Z) (sig : signal)          (* os.kill was issued *)
| EvSleep (ms : Z)                         (* time.sleep *)
| EvConnect (port : Z)                     (* socket.connect_ex *)
| EvRun (argv : list string)               (* subprocess.run *)
| EvPopen (argv : list string)             (* subprocess.Popen *)
| EvWrite (p : path) (text : string)       (* a file was created or overwritten *)
| EvUnlink (p : path)                      (* a file was deleted *)
| EvMkdir (p : path)                       (* a directory was created *)
| EvChmod (p : path)
| EvBrowser (url : string)                 (* webbrowser.open *)
| EvPrint (m : msg).

(** Answers of the surroundings, each a function of the history so far.
    [kill_ok]: os.kill returns (true) or raises OSError (false).
    [port_open]: connect_ex to 127.0.0.1 returned 0.
    [popen]: the pid of the spawned child, or None when spawning raises.
    [run]: exit status, captured stdout and the file system left behind
    by a child that was waited for, or None when it could not be run.
    [strftime]: datetime.now().strftime(format).
    [project_dir]: MEMORY_DIR.parent.name.  [python]: sys.executable.
    [hook_text]: the text of the hook file that setup_hooks writes, a
    constant of the source. *)
Record Env := mkEnv {
  kill_ok : list event → Z → signal → bool;
  port_open : list event → Z → bool;
  popen : list event → list string → option Z;
  run : list event → list string → gmap path node → option (Z * string * gmap path node);
  strftime : list event → string → string;
  project_dir : string;
  python : string;
  hook_text : string
}.

Record World := mkWorld {
  fs : gmap path node;
  trace : list event
}.

Inductive result (A : Type) :=
| Ok (a : A)
| Raise (e : exn).
Arguments Ok {A} a.
Arguments Raise {A} e.

(** Computations that read and change the world and may raise. *)
Definition M (A : Type) : Type := World → result A * World.

#[global] Instance M_ret : MRet M := λ A a w, (Ok a, w).
#[global] Instance M_bind : MBind M := λ A B f m w,
  match m w with
  | (Ok a, w') => f a w'
  | (Raise e, w') => (Raise e, w')
  end.

Definition raise {A} (e : exn) : M A := λ w, (Raise e, w).

(** try: [body] except <classes accepted by [catches]> as e: [handler e] *)
Definition try_except {A} (body : M A) (catches : exn → bool) (handler : exn → M A) : M A :=
  λ w, match body w with
       | (Raise e, w') => if catches e then handler e w' else (Raise e, w')
       | r => r
       end.

Definition any_exception (e : exn) : bool := true.
Definition is_OSError (e : exn) : bool :=
  match e with OSError => true | _ => false end.
Definition is_ValueError_or_IOError (e : exn) : bool :=
  match e with OSError | ValueError => true | OverflowError => false end.

Definition log (e : event) : M unit :=
  λ w, (Ok (), {| fs := fs w; trace := trace w ++ [e] |}).

Definition print (m : msg) : M unit := log (EvPrint m).

(** A for loop whose body neither breaks nor returns. *)
Fixpoint for_each {A} (l : list A) (body : A → M unit) : M unit :=
  match l with
  | [] => mret ()
  | x :: l' => body x;; for_each l' body
  end.

(** *** Paths *)

Definition MEMORY_DIR : path := [].
Definition SCRIPT_DIR : path := ["scripts"].
Definition ACTIVE_DIR : path := ["active"].
Definition PID_DIR : path := [".pids"].
Definition LOG_DIR : path := [".logs"].

Definition is_dot_or_empty (s : string) : bool :=
  String.eqb s "" || String.eqb s ".".

(** [p / s] of pathlib for a relative [s]: the text is cut at slashes,
    empty and "." components vanish; ".." is kept as it is. *)
Definition path_div (p : path) (s : string) : path :=
  p ++ List.filter (λ c, negb (is_dot_or_empty c)) (split_on "/" s).

(** [str(p)] for a path below MEMORY_DIR. *)
Fixpoint path_str (p : path) : string :=
  match p with
  | [] => "."
  | [c] => c
  | c :: p' => c ++ "/" ++ path_str p'
  end.

(** [p.name] *)
Definition path_name (p : path) : string := List.last p "".

Definition parent (p : path) : path := List.removelast p.

Definition path_eqb (p q : path) : bool := bool_decide (p = q).

(** *** File system *)

Definition node_at (f : gmap path node) (p : path) : option node :=
  if path_eqb p MEMORY_DIR || path_eqb p SCRIPT_DIR then Some Dir else f !! p.

Definition is_dir_at (f : gmap path node) (p : path) : bool :=
  match node_at f p with Some Dir => true | _ => false end.

(** [p.exists()] where stat of [p] either succeeds or finds nothing:
    the directories that lead to [p] can be searched and its name has
    an admissible length, so the answer is never an error.  [Os] below
    has the existence test without this assumption. *)
Definition path_exists (p : path) : M bool :=
  λ w, (Ok (match node_at (fs w) p with Some _ => true | None => false end), w).

(** [p.read_text()] *)
Definition read_text (p : path) : M string :=
  λ w, match node_at (fs w) p with
       | Some (File s) => (Ok s, w)
       | _ => (Raise OSError, w)
       end.

Definition store (p : path) (s : string) : M unit :=
  λ w, (Ok (), {| fs := <[p := File s]> (fs w); trace := trace w ++ [EvWrite p s] |}).

(** [p.write_text(s)], also [open(p, 'w')] with nothing written yet. *)
Definition write_text (p : path) (s : string) : M unit :=
  λ w, match node_at (fs w) p with
       | Some (File _) => store p s w
       | Some Locked | Some Dir => (Raise OSError, w)
       | None => if is_dir_at (fs w) (parent p) then store p s w else (Raise OSError, w)
       end.

(** [p.unlink()] *)
Definition unlink (p : path) : M unit :=
  λ w, match node_at (fs w) p with
       | Some (File _) | Some Locked =>
           (Ok (), {| fs := delete p (fs w); trace := trace w ++ [EvUnlink p] |})
       | Some Dir | None => (Raise OSError, w)
       end.

(** [p.mkdir(exist_ok=...)] *)
Definition mkdir (p : path) (exist_ok : bool) : M unit :=
  λ w, match node_at (fs w) p with
       | Some Dir => if exist_ok then (Ok (), w) else (Raise OSError, w)
       | Some _ => (Raise OSError, w)
       | None =>
           if is_dir_at (fs w) (parent p)
           then (Ok (), {| fs := <[p := Dir]> (fs w); trace := trace w ++ [EvMkdir p] |})
           else (Raise OSError, w)
       end.

(** [os.chmod(p, 0o755)] *)
Definition chmod (p : path) : M unit :=
  λ w, match node_at (fs w) p with
       | Some _ => log (EvChmod p) w
       | None => (Raise OSError, w)
       end.

(** [shutil.copy(src, dst)]: into [dst] when that is a directory. *)
Definition copy (src dst : path) : M unit :=
  s ← read_text src;
  d ← (λ w, (Ok (is_dir_at (fs w) dst), w));
  write_text (if d : bool then (dst ++ [path_name src])%list else dst) s.

Fixpoint list_strip_prefix (p q : path) : option path :=
  match p, q with
  | [], _ => Some q
  | a :: p', b :: q' => if String.eqb a b then list_strip_prefix p' q' else None
  | _ :: _, [] => None
  end.

(** The entries directly inside [dir] whose name matches "*.md". *)
Definition md_entry (dir : path) (p : path) : option string :=
  match list_strip_prefix dir p with
  | Some [name] => if endswith name ".md" then Some name else None
  | _ => None
  end.

(** [dir.glob('*.md')], in the order in which the directory is listed. *)
Definition glob_md (dir : path) : M (list path) :=
  λ w, (Ok (omap (λ e, (λ name, (dir ++ [name])%list) <$> md_entry dir e.1) (map_to_list (fs w))), w).

(** *** Signals, sockets, processes, clock *)

Definition fits_pid_t (pid : Z) : bool :=
  ((- 2 ^ 31 <=? pid) && (pid <? 2 ^ 31))%Z.

Section Program.
Variable env : Env.

(** [os.kill(pid, sig)]: a pid that does not fit the C type raises
    OverflowError before any signal is sent. *)
Definition os_kill (pid : Z) (sig : signal) : M unit :=
  if fits_pid_t pid then
    λ w, let ok := kill_ok env (trace w) pid sig in
         let w' := {| fs := fs w; trace := trace w ++ [EvKill pid sig] |} in
         if ok then (Ok (), w') else (Raise OSError, w')
  else raise OverflowError.

Definition sleep (ms : Z) : M unit := log (EvSleep ms).

(** [subprocess.run(argv, capture_output=True, ...)]: the child may
    change files; OSError when it cannot be started. *)
Definition subprocess_run (argv : list string) : M (Z * string) :=
  λ w, let w' f := {| fs := f; trace := trace w ++ [EvRun argv] |} in
       match run env (trace w) argv (fs w) with
       | Some (rc, out, f) => (Ok (rc, out), w' f)
       | None => (Raise OSError, w' (fs w))
       end.

(** [subprocess.Popen(argv, ...).pid] *)
Definition subprocess_Popen (argv : list string) : M Z :=
  λ w, let w' := {| fs := fs w; trace := trace w ++ [EvPopen argv] |} in
       match popen env (trace w) argv with
       | Some pid => (Ok pid, w')
       | None => (Raise OSError, w')
       end.

(** [datetime.now().strftime(fmt)] *)
Definition now (fmt : string) : M string :=
  λ w, (Ok (strftime env (trace w) fmt), w).

(** ** Utility functions (lines 52-98) *)

Definition ensure_dirs : M unit :=
  mkdir PID_DIR true;;
  mkdir LOG_DIR true;;
  mkdir ACTIVE_DIR true.

Definition get_pid_file (service : string) : path := PID_DIR ++ [service ++ ".pid"].
Definition get_log_file (service : string) : path := LOG_DIR ++ [service ++ ".log"].

(** Lines 67-74. *)
Definition read_pid (service : string) : M (option Z) :=
  let pid_file := get_pid_file service in
  ex ← path_exists pid_file;
  if ex : bool then
    try_except
      (s ← read_text pid_file;
       match py_int (strip s) with
       | Some n => mret (Some n)
       | None => raise ValueError
       end)
      is_ValueError_or_IOError (λ _, mret None)
  else mret None.

(** Lines 77-78: [str(pid)] is formed first, and raises ValueError
    beyond the limit on digits. *)
Definition write_pid (service : string) (pid : Z) : M unit :=
  if str_fits pid then write_text (get_pid_file service) (py_str pid)
  else raise ValueError.

Definition remove_pid (service : string) : M unit :=
  let pid_file := get_pid_file service in
  ex ← path_exists pid_file;
  if ex : bool then unlink pid_file else mret ().

(** Lines 87-92: only OSError means "not running". *)
Definition is_running (pid : Z) : M bool :=
  try_except (os_kill pid SIG0;; mret true) is_OSError (λ _, mret false).

(** Lines 95-98, for a port that connect_ex accepts (0 to 65535, as
    the one declared port, 8765, is). *)
Definition check_port (port : Z) : M bool :=
  λ w, (Ok (port_open env (trace w) port),
        {| fs := fs w; trace := trace w ++ [EvConnect port] |}).

(** ** Session management (lines 105-276) *)

Definition task_plan_file : path := path_div ACTIVE_DIR "task_plan.md".
Definition placeholder : string := "[Your task name]".

(** Lines 105-116. *)
Definition get_git_branch : M (option string) :=
  try_except
    ('(rc, out) ← subprocess_run ["git"; "rev-parse"; "--abbrev-ref"; "HEAD"];
     if Z.eqb rc 0 then mret (Some (strip out)) else mret None)
    any_exception (λ _, mret None).

(** Lines 119-137. *)
Definition get_project_name : M string :=
  found ← try_except
    ('(rc, out) ← subprocess_run ["git"; "remote"; "get-url"; "origin"];
     if Z.eqb rc 0 then mret (Re.search false Re.repo_name (strip out)) else mret None)
    any_exception (λ _, mret None);
  match found with
  | Some name => mret name
  | None => mret (project_dir env)
  end.

(** Lines 140-148. *)
Definition has_active_session : M bool :=
  ex ← path_exists task_plan_file;
  if ex : bool then
    content ← read_text task_plan_file;
    mret (str_in "# Task:" content && negb (str_in placeholder content))
  else mret false.

(** Lines 151-161. *)
Definition get_session_name : M (option string) :=
  ex ← path_exists task_plan_file;
  if ex : bool then
    content ← read_text task_plan_file;
    match Re.search true Re.task_header content with
    | Some g =>
        let name := strip g in
        if negb (String.eqb name "") && negb (String.eqb name placeholder)
        then mret (Some name) else mret None
    | None => mret None
    end
  else mret None.

(** The marker document written by [create_auto_session]. *)
Definition task_plan_text (session_name session_id timestamp branch : string) : string :=
  "# Task: " ++ session_name ++ "
**Session ID:** " ++ session_id ++ "
**Started:** " ++ timestamp ++ "
**Status:** 🔄 In Progress

## Goal
Auto-created session for branch: " ++ branch ++ "

## Phases
- [ ] Phase 1: Initial work

## Files Created/Modified
- [ ] (tracked automatically)

## Live Error Log
| Error | Attempt | Status | Solution | Knowledge Updated |
|-------|---------|--------|----------|-------------------|

## Next Steps
1. Continue working on current task

---
*Auto-generated by Context Engine*
".

(** Lines 166-175: the session name comes from the branch, or from the
    project and the date on main and master. *)
Definition derive_session_name : M (string * string) :=
  found ← get_git_branch;
  let branch := match found with
                | Some b => if String.eqb b "" then "main" else b
                | None => "main"
                end in
  project ← get_project_name;
  let session_name := replace_char "_" "-" (replace_char "/" "-" branch) in
  if String.eqb session_name "main" || String.eqb session_name "master" then
    date ← now "%Y%m%d";
    mret (branch, project ++ "-" ++ date)
  else mret (branch, session_name).

(** Lines 164-219.  The result of the init script is not looked at; the
    marker is written when it is missing or still holds the placeholder. *)
Definition create_auto_session : M string :=
  '(branch, session_name) ← derive_session_name;
  let init_script := path_div SCRIPT_DIR "init-session.sh" in
  ex ← path_exists init_script;
  (if ex : bool then
     _ ← subprocess_run ["bash"; path_str init_script; session_name]; mret ()
   else mret ());;
  ex ← path_exists task_plan_file;
  stale ← (if ex : bool then content ← read_text task_plan_file;
                             mret (str_in placeholder content)
           else mret true);
  (if stale : bool then
     timestamp ← now "%Y-%m-%d %H:%M:%S";
     stamp ← now "%Y%m%d_%H%M%S";
     write_text task_plan_file
       (task_plan_text session_name ("sess_" ++ stamp) timestamp branch)
   else mret ());;
  mret session_name.

Definition is_template (f : path) : bool := startswith (path_name f) "TEMPLATE".

(** Lines 257-274: what [archive_session] does itself once the archive
    script has failed.  [true] is the early return; [false] means that
    control falls through to the final [return False]. *)
Definition simple_archive (session_name : option string) : M bool :=
  let archive_dir := path_div MEMORY_DIR "archive" in
  mkdir archive_dir true;;
  date ← now "%Y-%m-%d";
  let dest := path_div archive_dir (date ++ "_" ++ fmt_opt session_name) in
  ex ← path_exists dest;
  if ex : bool then mret false
  else
    mkdir dest false;;
    docs ← glob_md ACTIVE_DIR;
    for_each docs (λ f,
      if is_template f then mret () else copy f (dest ++ [path_name f])%list);;
    docs ← glob_md ACTIVE_DIR;
    for_each docs (λ f,
      if is_template f then mret () else unlink f);;
    print (MsgArchived session_name);;
    mret true.

(** Lines 229-240: the summary is generated first, best effort. *)
Definition generate_summary : M unit :=
  try_except
    (let summarizer := path_div SCRIPT_DIR "session_summarizer.py" in
     ex ← path_exists summarizer;
     if ex : bool then
       '(rc, _) ← subprocess_run [python env; path_str summarizer; "--format"; "yaml"];
       if Z.eqb rc 0 then print MsgSummaryGenerated else mret ()
     else mret ())
    any_exception (λ _, mret ()).

(** Lines 222-276. *)
Definition archive_session : M bool :=
  active ← has_active_session;
  if negb active then mret false
  else
    session_name ← get_session_name;
    generate_summary;;
    let archive_script := path_div SCRIPT_DIR "archive-task.sh" in
    ex ← path_exists archive_script;
    if ex : bool then
      '(rc, _) ← subprocess_run ["bash"; path_str archive_script];
      if Z.eqb rc 0 then print (MsgArchived session_name);; mret true
      else simple_archive session_name
    else mret false.

(** ** Service management (lines 283-365) *)

Definition web_ui_config : Config :=
  {| cfg_name := "Web UI";
     cfg_command := [python env; path_str (path_div (path_div SCRIPT_DIR "web_ui") "server.py")];
     cfg_port := Some 8765 |}.

Definition file_watcher_config : Config :=
  {| cfg_name := "File Watcher";
     cfg_command := ["bash"; path_str (path_div SCRIPT_DIR "daemon-extract-learnings.sh"); "--watch"];
     cfg_port := None |}.

(** The SERVICES dictionary, in insertion order. *)
Definition SERVICES : list (string * Config) :=
  [("web_ui", web_ui_config); ("file_watcher", file_watcher_config)].

Definition web_port : Z := 8765.

(** [pid and is_running(pid)], as a truth value. *)
Definition pid_alive (pid : option Z) : M bool :=
  match pid with
  | Some n => if Z.eqb n 0 then mret false else is_running n
  | None => mret false
  end.

(** Lines 296-311: best-effort release of a busy port. *)
Definition free_port (name : string) (port : Z) : M unit :=
  print (MsgPortBusy name port);;
  try_except
    ('(_, out) ← subprocess_run ["lsof"; "-ti"; ":" ++ py_str port];
     let pids := strip out in
     if String.eqb pids "" then mret ()
     else
       for_each (split_on newline pids) (λ line,
         try_except
           (match py_int line with
            | Some pid => os_kill pid SIGTERM
            | None => raise ValueError
            end)
           any_exception (λ _, mret ()));;
       sleep 500)
    any_exception (λ _, mret ()).

(** Lines 283-337. *)
Definition start_service (service : string) (config : Config) : M bool :=
  let name := cfg_name config in
  existing_pid ← read_pid service;
  alive ← pid_alive existing_pid;
  if alive : bool then
    print (MsgAlreadyRunning name (default 0 existing_pid));; mret true
  else
    busy ← match cfg_port config with
            | Some port => if Z.eqb port 0 then mret false else check_port port
            | None => mret false
            end;
    (if busy : bool then free_port name (default 0 (cfg_port config)) else mret ());;
    let log_file := get_log_file service in
    try_except
      (write_text log_file "";;
       pid ← subprocess_Popen (cfg_command config);
       write_pid service pid;;
       sleep 500;;
       up ← is_running pid;
       if up : bool then print (MsgStarted name pid);; mret true
       else print (MsgStartFailed name log_file);; mret false)
      any_exception (λ e, print (MsgError name e);; mret false).

(** The for/else of lines 351-356: up to [n] liveness polls, then the
    forceful signal if none of them found the process gone. *)
Fixpoint poll_then_kill (n : nat) (pid : Z) : M unit :=
  match n with
  | O => os_kill pid SIGKILL
  | S k =>
      alive ← is_running pid;
      if alive : bool then sleep 100;; poll_then_kill k pid
      else mret ()
  end.

(** Lines 340-365. *)
Definition stop_service (service : string) (config : Config) : M bool :=
  let name := cfg_name config in
  pid ← read_pid service;
  alive ← pid_alive pid;
  if negb alive then remove_pid service;; mret true
  else
    let pid := default 0 pid in
    try_except
      (os_kill pid SIGTERM;;
       poll_then_kill 10 pid;;
       remove_pid service;;
       print (MsgStopped name);;
       mret true)
      is_OSError
      (λ e, print (MsgError name e);; remove_pid service;; mret false).

(** ** Hooks setup (lines 372-432) *)

Definition setup_hooks : M bool :=
  let post_hook := path_div SCRIPT_DIR "hooks_PostToolUse_ErrorCapture.py" in
  write_text post_hook (hook_text env);;
  chmod post_hook;;
  mret true.

(** ** Main commands (lines 439-607) *)

(** The loop of lines 460-463. *)
Fixpoint start_all (services : list (string * Config)) (all_started : bool) : M bool :=
  match services with
  | [] => mret all_started
  | (service, config) :: rest =>
      ok ← start_service service config;
      start_all rest (if ok : bool then all_started else false)
  end.

(** Lines 467-470: wait for the web UI, at most [n] probes. *)
Fixpoint wait_for_port (n : nat) (port : Z) : M unit :=
  match n with
  | O => mret ()
  | S k =>
      up ← check_port port;
      if up : bool then mret () else sleep 500;; wait_for_port k port
  end.

(** Lines 439-507. *)
Definition activate (open_browser : bool) : M bool :=
  ensure_dirs;;
  active ← has_active_session;
  session_name ←
    (if active : bool then
       name ← get_session_name;
       print (MsgActiveSession name);; mret name
     else
       name ← create_auto_session;
       print (MsgCreatedSession name);; mret (Some name));
  all_started ← start_all SERVICES true;
  wait_for_port 20 web_port;;
  _ ← setup_hooks;
  print MsgHooksReady;;
  (if all_started : bool then
     let url := "http://localhost:" ++ py_str web_port in
     print (MsgEngineActive url session_name);;
     if open_browser then log (EvBrowser url) else mret ()
   else print MsgSomeServicesFailed);;
  mret all_started.

(** Lines 510-539. *)
Definition deactivate : M unit :=
  active ← has_active_session;
  (if active : bool then _ ← archive_session; mret ()
   else print MsgNoSessionToArchive);;
  for_each SERVICES (λ sc, _ ← stop_service sc.1 sc.2; mret ());;
  print MsgDeactivated.

(** The loop of lines 561-569. *)
Fixpoint status_services (services : list (string * Config)) (any_running : bool) : M bool :=
  match services with
  | [] => mret any_running
  | (service, config) :: rest =>
      pid ← read_pid service;
      running ← pid_alive pid;
      if running : bool then
        print (MsgServiceRunning (cfg_name config)
                 (match cfg_port config with
                  | Some port => if Z.eqb port 0 then None else Some port
                  | None => None
                  end));;
        status_services rest true
      else
        print (MsgServiceStopped (cfg_name config));;
        status_services rest any_running
  end.

(** Lines 542-586. *)
Definition status : M unit :=
  active ← has_active_session;
  (if active : bool then
     name ← get_session_name; print (MsgStatusActive name)
   else print MsgStatusNoSession);;
  any_running ← status_services SERVICES false;
  (if any_running : bool then
     up ← check_port web_port;
     if up : bool then print (MsgWebUi ("http://localhost:" ++ py_str web_port))
     else mret ()
   else mret ());;
  let knowledge_dir := path_div MEMORY_DIR "knowledge" in
  for_each ["patterns.md"; "failures.md"; "decisions.md"; "gotchas.md"] (λ f,
    let fpath := path_div knowledge_dir f in
    ex ← path_exists fpath;
    if ex : bool then
      text ← read_text fpath;
      print (MsgKnowledge f (List.length (split_on newline text)))
    else mret ()).

(** [main] with [argv] for sys.argv; the value is the argument of
    sys.exit, 0 when the function returns without calling it. *)
Definition main (argv : list string) : M Z :=
  match argv with
  | _ :: command :: _ =>
      if String.eqb command "activate" then
        let no_browser := bool_decide ("--no-browser" ∈ argv) in
        success ← activate (negb no_browser);
        mret (if success : bool then 0 else 1)
      else if String.eqb command "deactivate" then deactivate;; mret 0
      else if String.eqb command "status" then status;; mret 0
      else print (MsgUnknownCommand command);; mret 1
  | _ => print MsgUsage;; mret 1
  end.

(** The exit status of the process: an exception that nothing catches
    ends the interpreter with status 1. *)
Definition exit_status (argv : list string) (w : World) : Z :=
  match main argv w with
  | (Ok code, _) => code
  | (Raise _, _) => 1
  end.

End Program.

(** ** When a path cannot be examined *)

(** The model above takes every path to be examinable: [path_exists]
    always answers.  On the Python releases before 3.14 [Path.exists]
    answers False only when stat fails with ENOENT, ENOTDIR, EBADF or
    ELOOP, and lets every other OSError through: EACCES when a directory
    on the way cannot be searched, ENAMETOOLONG when a name is too long.
    The definitions of this module take such states in: [denied f p]
    says that stat of [p] fails in this way in the file system [f]. *)
Module Os.
Section Denied.
Variable denied : gmap path node → path → bool.

(** [p.exists()] *)
Definition path_exists (p : path) : M bool :=
  λ w, if denied (fs w) p then (Raise OSError, w)
       else (Ok (match node_at (fs w) p with Some _ => true | None => false end), w).

(** Lines 67-74: the existence test stands before the try. *)
Definition read_pid (service : string) : M (option Z) :=
  let pid_file := get_pid_file service in
  ex ← path_exists pid_file;
  if ex : bool then
    try_except
      (s ← read_text pid_file;
       match py_int (strip s) with
       | Some n => mret (Some n)
       | None => raise ValueError
       end)
      is_ValueError_or_IOError (λ _, mret None)
  else mret None.

End Denied.
End Os.

(** ** Vocabulary of the specification *)

Local Open Scope list_scope.

Fixpoint all_chars (P : ascii → bool) (s : string) : bool :=
  match s with
  | EmptyString => true
  | String c r => P c && all_chars P r
  end.

(** The trace of [n] liveness polls that all find the process alive. *)
Definition polls (n : nat) (pid : Z) : list event :=
  List.concat (replicate n [EvKill pid SIG0; EvSleep 100]).

(** Events that only observe: the liveness probe, a TCP probe, output. *)
Definition probe (e : event) : Prop :=
  match e with
  | EvKill _ SIG0 | EvConnect _ | EvPrint _ => True
  | _ => False
  end.

(** Events by which the program itself does not touch a file. *)
Definition nowrite (e : event) : Prop :=
  match e with
  | EvWrite _ _ | EvUnlink _ | EvMkdir _ | EvChmod _ => False
  | _ => True
  end.

(** [m] leaves the file system as it found it, whatever its outcome,
    and everything it does is allowed by [P]. *)
Definition Keeps {A} (P : event → Prop) (m : M A) : Prop :=
  ∀ w, fs (m w).2 = fs w ∧ ∃ evs, trace (m w).2 = trace w ++ evs ∧ Forall P evs.

(** [m] always returns a value. *)
Definition Total {A} (m : M A) : Prop := ∀ w, ∃ a w', m w = (Ok a, w').

(** The external commands that are waited for change no file. *)
Definition quiet_commands (env : Env) : Prop :=
  ∀ tr argv f, match run env tr argv f with
               | Some (_, _, f') => f' = f
               | None => True
               end.

Definition init_script_argv (name : string) : list string :=
  ["bash"; path_str (path_div SCRIPT_DIR "init-session.sh"); name].

Definition archive_script_argv : list string :=
  ["bash"; path_str (path_div SCRIPT_DIR "archive-task.sh")].

(** The dated directory that [simple_archive] fills. *)
Definition archive_dest (date : string) (session_name : option string) : path :=
  path_div (path_div MEMORY_DIR "archive") (date ++ "_" ++ fmt_opt session_name)%string.

(** The effect of one logged event on the file system, and of a whole
    log: the state after the first [k] changes of a run is
    [replay f (take k evs)]. *)
Definition apply_event (f : gmap path node) (e : event) : gmap path node :=
  match e with
  | EvWrite p s => <[p := File s]> f
  | EvUnlink p => delete p f
  | EvMkdir p => <[p := Dir]> f
  | _ => f
  end.

Definition replay (f : gmap path node) (evs : list event) : gmap path node :=
  foldl apply_event f evs.

(** Whatever exists lies in a directory. *)
Definition well_formed (f : gmap path node) : Prop :=
  map_Forall (λ p _, is_dir_at f (parent p) = true) f.

(** At every point of the log [evs], started from [f0], each entry of
    the active directory is still in place or has a copy under [dest]. *)
Definition never_lost (f0 : gmap path node) (dest : path) (evs : list event) : Prop :=
  ∀ k n nd,
    f0 !! (ACTIVE_DIR ++ [n]) = Some nd →
    replay f0 (take k evs) !! (ACTIVE_DIR ++ [n]) = Some nd ∨
    ∃ text, nd = File text ∧
            replay f0 (take k evs) !! (dest ++ [n]) = Some (File text).

(** The two loop bodies of [simple_archive]. *)
Definition copy_body (dest : path) (f : path) : M unit :=
  if is_template f then mret () else copy f (dest ++ [path_name f]).

Definition unlink_body (f : path) : M unit :=
  if is_template f then mret () else unlink f.

(** Shapes of the events of the copy phase and of the delete phase. *)
Definition copy_ev (f0 : gmap path node) (rest : path) (e : event) : Prop :=
  ∃ n s, e = EvWrite (("archive" :: rest) ++ [n]) s ∧
         f0 !! (ACTIVE_DIR ++ [n]) = Some (File s).

Definition archive_side (f0 : gmap path node) (rest : path) (e : event) : Prop :=
  copy_ev f0 rest e ∨ ∃ q, e = EvMkdir ("archive" :: q).

Definition unlink_ev (f0 : gmap path node) (rest : path) (g0 : gmap path node)
    (e : event) : Prop :=
  (∃ n s, e = EvUnlink (ACTIVE_DIR ++ [n]) ∧
          f0 !! (ACTIVE_DIR ++ [n]) = Some (File s) ∧
          g0 !! (("archive" :: rest) ++ [n]) = Some (File s)) ∨
  (∃ m, e = EvPrint m).

(** The lines printed during a run. *)
Definition printed (tr : list event) : list msg :=
  omap (λ e, match e with EvPrint m => Some m | _ => None end) tr.

(** ** Sample surroundings *)

Module Demo.

Definition is_popen (e : event) : bool :=
  match e with EvPopen _ => true | _ => false end.

(** git reports [branch] and knows no remote; every other command
    fails with status 1 and touches nothing. *)
Definition demo_run (branch : string) (argv : list string) : Z * string :=
  if bool_decide (argv = ["git"; "rev-parse"; "--abbrev-ref"; "HEAD"])
  then (0, (branch ++ String newline "")%string)
  else (1, "").

Definition demo_clock (fmt : string) : string :=
  if String.eqb fmt "%Y-%m-%d" then "2024-05-01"
  else if String.eqb fmt "%Y%m%d" then "20240501"
  else if String.eqb fmt "%Y%m%d_%H%M%S" then "20240501_093000"
  else "2024-05-01 09:30:00".

(** [sig_ok] tells which signals os.kill delivers; children get the
    pids 4242, 4243, ...; the web port answers once a child exists. *)
Definition demo_env (sig_ok : signal → bool) (branch : string) : Env :=
  {| kill_ok := λ _ _ sig, sig_ok sig;
     port_open := λ tr _, existsb is_popen tr;
     popen := λ tr _, Some (4242 + Z.of_nat (List.length (List.filter is_popen tr)));
     run := λ _ argv f, Some ((demo_run branch argv).1, (demo_run branch argv).2, f);
     strftime := λ _ fmt, demo_clock fmt;
     project_dir := "demo";
     python := "python3";
     hook_text := "#!/usr/bin/env python3" |}.

(** Every process is alive and every signal is delivered. *)
Definition all_signals (sig : signal) : bool := true.
(** No process is alive. *)
Definition no_signal (sig : signal) : bool := false.
(** The process lives on, and the forceful signal is refused. *)
Definition all_but_kill (sig : signal) : bool :=
  match sig with SIGKILL => false | _ => true end.

Definition live_env : Env := demo_env all_signals "main".
Definition dead_env : Env := demo_env no_signal "main".
Definition stubborn_env : Env := demo_env all_but_kill "main".
(** As [live_env], on the branch feature/login. *)
Definition feature_env : Env := demo_env all_signals "feature/login".

Definition old_marker : string := "# Task: old-name
**Status:** In Progress
".

(** An installation with an active session, a recorded web UI pid and
    an archive script. *)
Definition demo_fs : gmap path node :=
  {[ ["active"] := Dir;
     ["active"; "task_plan.md"] := File old_marker;
     ["active"; "notes.md"] := File "remember the milk";
     ["active"; "TEMPLATE_plan.md"] := File "# Task: [Your task name]";
     [".pids"] := Dir;
     [".logs"] := Dir;
     [".pids"; "web_ui.pid"] := File "4242
";
     ["scripts"; "archive-task.sh"] := File "exit 1";
     ["archive"] := Dir ]}.

Definition demo_world : World := {| fs := demo_fs; trace := [] |}.

(** The same, with today's archive of the session already there. *)
Definition archived_world : World :=
  {| fs := <[ ["archive"; "2024-05-01_old-name"] := Dir ]> demo_fs; trace := [] |}.

(** The same as [demo_world], with a hook file that cannot be written. *)
Definition locked_hook_world : World :=
  {| fs := <[ ["scripts"; "hooks_PostToolUse_ErrorCapture.py"] := Locked ]>
             (delete [".pids"; "web_ui.pid"] demo_fs);
     trace := [] |}.

Definition marker_mid_line : string := "Notes on # Task: tidy up".
Definition marker_empty_title : string := "# Task:   ".

Definition world_with_marker (text : string) : World :=
  {| fs := {[ ["active"] := Dir; ["active"; "task_plan.md"] := File text ]};
     trace := [] |}.

End Demo.

(** ** Further vocabulary *)

(** Everything [m] does is allowed by [P], whatever its outcome. *)
Definition Emits {A} (P : event → Prop) (m : M A) : Prop :=
  ∀ w, ∃ evs, trace (m w).2 = trace w ++ evs ∧ Forall P evs.

(** The log of [m] accounts for every change of the file system. *)
Definition Logged {A} (m : M A) : Prop :=
  ∀ w, ∃ evs, trace (m w).2 = trace w ++ evs ∧ fs (m w).2 = replay (fs w) evs.

(** An event that changes a file or directory does so at a path in [S]. *)
Definition touches (S : path → Prop) (e : event) : Prop :=
  match e with
  | EvWrite p _ | EvUnlink p | EvMkdir p => S p
  | _ => True
  end.

(** [activate] up to the start of the services (lines 441-456), and
    from the wait for the web UI on (lines 465-507). *)
Definition activate_session (env : Env) : M (option string) :=
  ensure_dirs;;
  active ← has_active_session;
  if active : bool then
    name ← get_session_name;
    print (MsgActiveSession name);; mret name
  else
    name ← create_auto_session env;
    print (MsgCreatedSession name);; mret (Some name).

Definition activate_finish (env : Env) (open_browser : bool)
    (session_name : option string) (all_started : bool) : M bool :=
  wait_for_port env 20 web_port;;
  _ ← setup_hooks env;
  print MsgHooksReady;;
  (if all_started : bool then
     let url := ("http://localhost:" ++ py_str web_port)%string in
     print (MsgEngineActive url session_name);;
     if open_browser then log (EvBrowser url) else mret ()
   else print MsgSomeServicesFailed);;
  mret all_started.

(** Nothing of an archival: no deletion, no write or new directory
    below archive/, no run of the archive script. *)
Definition no_archival (e : event) : Prop :=
  match e with
  | EvUnlink _ => False
  | EvWrite p _ | EvMkdir p => ∀ q, p ≠ "archive" :: q
  | EvRun argv => argv ≠ archive_script_argv
  | _ => True
  end.

(** Something is there that [read_text] cannot read. *)
Definition unreadable (f : gmap path node) (p : path) : bool :=
  match node_at f p with
  | Some Locked | Some Dir => true
  | _ => false
  end.

(** The pid that [read_pid] finds for [service]. *)
Definition recorded (f : gmap path node) (service : string) : option Z :=
  match f !! get_pid_file service with
  | Some (File s) => py_int (strip s)
  | _ => None
  end.

(** A recorded pid that os.kill rejects before sending anything: it
    is taken for a process id (it is not 0) and does not fit pid_t. *)
Definition overflowing (pid : option Z) : bool :=
  match pid with
  | Some n => negb (Z.eqb n 0) && negb (fits_pid_t n)
  | None => false
  end.

Definition knowledge_files : list string :=
  ["patterns.md"; "failures.md"; "decisions.md"; "gotchas.md"].

(** States in which [status] meets an error that nothing catches: the
    marker or a knowledge file is there but cannot be read, or a
    recorded pid does not fit pid_t. *)
Definition status_blocked (f : gmap path node) : bool :=
  unreadable f task_plan_file
  || overflowing (recorded f "web_ui")
  || overflowing (recorded f "file_watcher")
  || existsb (λ n, unreadable f (path_div (path_div MEMORY_DIR "knowledge") n))
       knowledge_files.

(** Lines 177-187 of [create_auto_session]: the init script is run
    when it is there; its result is not looked at. *)
Definition init_session (env : Env) (session_name : string) : M unit :=
  let init_script := path_div SCRIPT_DIR "init-session.sh" in
  ex ← path_exists init_script;
  if ex : bool then
    _ ← subprocess_run env ["bash"; path_str init_script; session_name]; mret ()
  else mret ().

(** The marker document that [create_auto_session] writes at the
    history [tr]. *)
Definition fresh_marker (env : Env) (session_name branch : string) (tr : list event)
    : string :=
  task_plan_text session_name ("sess_" ++ strftime env tr "%Y%m%d_%H%M%S")%string
    (strftime env tr "%Y-%m-%d %H:%M:%S") branch.

(** The branch that [create_auto_session] works with, and its cleaned
    form (lines 166-170). *)
Definition branch_or_main (found : option string) : string :=
  match found with
  | Some b => if String.eqb b "" then "main" else b
  | None => "main"
  end.

Definition clean_branch (branch : string) : string :=
  replace_char "_" "-" (replace_char "/" "-" branch).

(** Two ways in which stat fails: a name longer than NAME_MAX (255
    bytes), and a .pids directory without search permission. *)
Definition name_too_long (f : gmap path node) (p : path) : bool :=
  existsb (λ c, (255 <? String.length c)%nat) p.

Definition sealed_registry (f : gmap path node) (p : path) : bool :=
  match p with
  | d :: _ :: _ => String.eqb d ".pids"
  | _ => false
  end.

Fixpoint repeat_char (c : ascii) (n : nat) : string :=
  match n with
  | O => EmptyString
  | S k => String c (repeat_char c k)
  end.

(** A service name of 300 characters. *)
Definition long_service : string := repeat_char "a" 300.

(** What [stop_service] may do for [service] when [pid] is the recorded
    process: signal that process, pause, print, delete the pid record. *)
Definition stop_event (service : string) (pid : option Z) (e : event) : Prop :=
  match e with
  | EvKill p _ => pid = Some p
  | EvSleep _ | EvPrint _ => True
  | EvUnlink p => p = get_pid_file service
  | _ => False
  end.

(** No signal is sent. *)
Definition no_kill (e : event) : Prop :=
  match e with EvKill _ _ => False | _ => True end.

(** Signals go to [pid] only. *)
Definition kills_only (pid : Z) (e : event) : Prop :=
  match e with EvKill p _ => p = pid | _ => True end.

(** The two files that [start_service] may write for [service]. *)
Definition service_file (service : string) (p : path) : Prop :=
  p = get_pid_file service ∨ p = get_log_file service.

(** The names that [archive_session] moves: "*.md", templates apart. *)
Definition archived_name (n : string) : bool :=
  endswith n ".md" && negb (startswith n "TEMPLATE").

(** The paths that archiving may change: anything below archive/, and
    the archived names in the active directory. *)
Definition archive_path (p : path) : Prop :=
  (∃ q, p = "archive" :: q) ∨ (∃ n, archived_name n = true ∧ p = ACTIVE_DIR ++ [n]).

(** What [activate] never does: delete a file, send SIGKILL, or open
    the browser when asked not to. *)
Definition activate_event (open_browser : bool) (e : event) : Prop :=
  match e with
  | EvUnlink _ | EvKill _ SIGKILL => False
  | EvBrowser _ => open_browser = true
  | _ => True
  end.

Definition hook_file : path := path_div SCRIPT_DIR "hooks_PostToolUse_ErrorCapture.py".

(** The paths that [activate] may create or write. *)
Definition activate_paths : list path :=
  [PID_DIR; LOG_DIR; ACTIVE_DIR; task_plan_file; hook_file;
   get_pid_file "web_ui"; get_log_file "web_ui";
   get_pid_file "file_watcher"; get_log_file "file_watcher"].

(** The trace of [k] probes of [port] that all find it closed. *)
Definition waits (k : nat) (port : Z) : list event :=
  List.concat (replicate k [EvConnect port; EvSleep 500]).

(** What may follow the repository name at the end of a remote URL. *)
Definition url_tail (t : string) : Prop :=
  t = "" ∨ t = ".git" ∨ t = String newline "" ∨ t = (".git" ++ String newline "")%string.

Definition is_sigterm (e : event) : bool :=
  match e with EvKill _ SIGTERM => true | _ => false end.

(** As [Demo.live_env], but a process is gone once SIGTERM has been
    sent to it. *)
Definition mortal_env : Env :=
  {| kill_ok := λ tr _ _, negb (existsb is_sigterm tr);
     port_open := port_open Demo.live_env;
     popen := popen Demo.live_env;
     run := run Demo.live_env;
     strftime := strftime Demo.live_env;
     project_dir := project_dir Demo.live_env;
     python := python Demo.live_env;
     hook_text := hook_text Demo.live_env |}.

(** What [free_port] may do, given the lines that lsof printed: print,
    run lsof, pause, and send SIGTERM to a pid that one of the lines
    spells. *)
Definition free_port_event (lines : list string) (e : event) : Prop :=
  match e with
  | EvKill pid sig => sig = SIGTERM ∧ ∃ line, line ∈ lines ∧ py_int line = Some pid
  | EvPrint _ | EvRun _ | EvSleep _ => True
  | _ => False
  end.

(** The lines of the output of lsof for [port], run after history [tr]. *)
Definition lsof_lines (env : Env) (tr : list event) (port : Z) (f : gmap path node)
    : list string :=
  match run env tr ["lsof"; "-ti"; (":" ++ py_str port)%string] f with
  | Some (_, out, _) => split_on newline (strip out)
  | None => []
  end.

(** Neither a slash nor an underscore. *)
Definition plain_char (c : ascii) : bool :=
  negb (Ascii.eqb c "/") && negb (Ascii.eqb c "_").



(** * Properties *)

Import Demo.

(** ** The text primitives on examples *)

Example strip_ex : strip "  12
" = "12".
Proof. reflexivity. Qed.

Example py_int_ex :
  py_int " 4_2 " = Some 42 ∧ py_int "-7" = Some (-7) ∧ py_int "007" = Some 7 ∧
  py_int "" = None ∧ py_int "4__2" = None ∧ py_int "12a" = None ∧
  py_int "_1" = None ∧ py_int "1_" = None ∧ py_int "+" = None.
Proof. repeat split; reflexivity. Qed.

Example task_header_ex :
  Re.search true Re.task_header "intro
# Task:  fix login
more" = Some "fix login".
Proof. reflexivity. Qed.

Example task_header_next_line :
  Re.search true Re.task_header "# Task:
**Session ID:** s1" = Some "**Session ID:** s1".
Proof. reflexivity. Qed.

Example repo_name_ex :
  Re.search false Re.repo_name "https://github.com/acme/context-engine.git"
    = Some "context-engine" ∧
  Re.search false Re.repo_name "git@github.com:acme/tool" = Some "tool" ∧
  Re.search false Re.repo_name "https://github.com/acme/tool/" = None ∧
  Re.search false Re.repo_name "/.git" = Some ".git".
Proof. repeat split; reflexivity. Qed.


(** ** Facts about text *)

Lemma lstrip_id c s : py_isspace c = false → lstrip (String c s) = String c s.
Proof. intros H. simpl. by rewrite H. Qed.

Lemma rstrip_id s : all_chars (λ c, negb (py_isspace c)) s = true → rstrip s = s.
Proof.
  induction s as [|c r IH]; simpl; [done|].
  intros [Hc Hr]%andb_prop. rewrite (IH Hr).
  destruct r; [|done]. by destruct (py_isspace c).
Qed.

Lemma strip_id s : all_chars (λ c, negb (py_isspace c)) s = true → strip s = s.
Proof.
  intros H. unfold strip. destruct s as [|c r]; [done|].
  simpl in H. apply andb_prop in H as [Hc Hr].
  rewrite lstrip_id; [|by destruct (py_isspace c)].
  apply rstrip_id. simpl. by rewrite Hc, Hr.
Qed.

Lemma uint_digits_nospace u :
  all_chars (λ c, negb (py_isspace c)) (NilEmpty.string_of_uint u) = true.
Proof. induction u; simpl; auto. Qed.

Lemma int_digits_uint u b :
  (u ≠ Decimal.Nil ∨ b = true) → int_digits b (NilEmpty.string_of_uint u) = Some u.
Proof.
  revert b. induction u; intros b Hb; simpl;
    try (rewrite IHu by auto; reflexivity).
  destruct Hb as [H | ->]; [done | reflexivity].
Qed.

Lemma nilzero_nospace u :
  all_chars (λ c, negb (py_isspace c)) (NilZero.string_of_uint u) = true.
Proof. destruct u; try apply (uint_digits_nospace (_ u)); reflexivity. Qed.

Lemma c_isspace_py_isspace c : c_isspace c = true → py_isspace c = true.
Proof.
  unfold c_isspace, py_isspace. generalize (nat_of_ascii c). intros n.
  intros [H | H%Nat.eqb_eq]%orb_prop; [by rewrite H|]. by subst n.
Qed.

Lemma rstrip_c_id s : all_chars (λ c, negb (py_isspace c)) s = true → rstrip_c s = s.
Proof.
  induction s as [|c r IH]; simpl; [done|].
  intros [Hc Hr]%andb_prop. rewrite (IH Hr).
  destruct r; [|done]. destruct (c_isspace c) eqn:E; [|done].
  apply c_isspace_py_isspace in E. by rewrite E in Hc.
Qed.

Lemma strip_c_id s :
  all_chars (λ c, negb (py_isspace c)) s = true → rstrip_c (lstrip_c s) = s.
Proof.
  intros H. destruct s as [|c r]; [done|].
  pose proof H as H'. simpl in H'. apply andb_prop in H' as [Hc Hr].
  assert (c_isspace c = false) as Hcc.
  { destruct (c_isspace c) eqn:E; [|done].
    apply c_isspace_py_isspace in E. by rewrite E in Hc. }
  cbn [lstrip_c]. rewrite Hcc. by apply rstrip_c_id.
Qed.

Lemma count_digits_uint u :
  count_digits (NilEmpty.string_of_uint u) = String.length (NilEmpty.string_of_uint u).
Proof. induction u; simpl; auto. Qed.

Lemma count_digits_nilzero u :
  count_digits (NilZero.string_of_uint u) = String.length (NilZero.string_of_uint u).
Proof. destruct u; try apply (count_digits_uint (_ u)); reflexivity. Qed.

Lemma int_literal_py_str (n : Z) : int_literal (py_str n) = Some n.
Proof.
  unfold py_str.
  assert (Hv : Z.of_int (Z.to_int n) = n) by apply DecimalZ.of_to.
  destruct (Z.to_int n) as [u|u]; simpl NilZero.string_of_int; unfold int_literal.
  - destruct u; simpl; try (rewrite int_digits_uint by auto; simpl; by rewrite <- Hv).
    by rewrite <- Hv.
  - destruct u; simpl; try (rewrite int_digits_uint by auto; simpl; by rewrite <- Hv).
    by rewrite <- Hv.
Qed.

Lemma py_str_nospace n : all_chars (λ c, negb (py_isspace c)) (py_str n) = true.
Proof.
  unfold py_str. destruct (Z.to_int n) as [u|u]; simpl NilZero.string_of_int.
  - apply nilzero_nospace.
  - simpl. apply nilzero_nospace.
Qed.

Lemma int_body_nilzero u : int_body (NilZero.string_of_uint u) = NilZero.string_of_uint u.
Proof. by destruct u. Qed.

Lemma count_digits_py_str n :
  count_digits (int_body (py_str n)) = String.length (py_str (Z.abs n)).
Proof.
  destruct n as [|p|p]; [reflexivity| |].
  - change (py_str (Z.abs (Z.pos p))) with (NilZero.string_of_uint (Pos.to_uint p)).
    change (py_str (Z.pos p)) with (NilZero.string_of_uint (Pos.to_uint p)).
    by rewrite int_body_nilzero, count_digits_nilzero.
  - change (py_str (Z.abs (Z.neg p))) with (NilZero.string_of_uint (Pos.to_uint p)).
    change (int_body (py_str (Z.neg p))) with (NilZero.string_of_uint (Pos.to_uint p)).
    apply count_digits_nilzero.
Qed.

(** What [str] writes, [int] reads back, within the limit on digits. *)
Lemma py_int_py_str (n : Z) : str_fits n = true → py_int (strip (py_str n)) = Some n.
Proof.
  intros Hfit. rewrite (strip_id _ (py_str_nospace n)).
  unfold py_int. rewrite (strip_c_id _ (py_str_nospace n)). cbv zeta.
  rewrite count_digits_py_str.
  unfold str_fits in Hfit. apply Nat.leb_le in Hfit.
  destruct (Nat.ltb_spec int_max_str_digits (String.length (py_str (Z.abs n)))); [lia|].
  apply int_literal_py_str.
Qed.


(** ** Reasoning about computations *)

Ltac munfold :=
  unfold try_except, path_exists, read_text, mbind, M_bind, mret, M_ret, raise in *.

Lemma bind_inv {A B} (m : M A) (k : A → M B) w r w' :
  (m ≫= k) w = (r, w') →
  (∃ a w1, m w = (Ok a, w1) ∧ k a w1 = (r, w')) ∨
  (∃ e, m w = (Raise e, w') ∧ r = Raise e).
Proof.
  unfold mbind, M_bind. destruct (m w) as [[a|e] w1]; [eauto|].
  intros [= <- <-]. eauto.
Qed.

Lemma bind_ok_inv {A B} (m : M A) (k : A → M B) w b w' :
  (m ≫= k) w = (Ok b, w') → ∃ a w1, m w = (Ok a, w1) ∧ k a w1 = (Ok b, w').
Proof.
  unfold mbind, M_bind. destruct (m w) as [[a|e] w1]; [eauto | done].
Qed.


Section Keeps.
Context (P : event → Prop).

Lemma keeps_ret {A} (a : A) : Keeps P (mret a).
Proof. intros w. split; [done|]. exists []. by rewrite app_nil_r. Qed.

Lemma keeps_raise {A} e : Keeps P (raise e : M A).
Proof. intros w. split; [done|]. exists []. by rewrite app_nil_r. Qed.

Lemma keeps_bind {A B} (m : M A) (k : A → M B) :
  Keeps P m → (∀ a, Keeps P (k a)) → Keeps P (m ≫= k).
Proof.
  intros Hm Hk w. unfold mbind, M_bind.
  destruct (Hm w) as (Hfs & evs & Htr & Hevs).
  destruct (m w) as [[a|e] w1]; simpl in *.
  - destruct (Hk a w1) as (Hfs' & evs' & Htr' & Hevs').
    split; [congruence|]. exists (evs ++ evs').
    rewrite Htr', Htr, app_assoc. split; [done|]. by apply Forall_app.
  - split; [done|]. by exists evs.
Qed.

Lemma keeps_try {A} (m : M A) c (h : exn → M A) :
  Keeps P m → (∀ e, Keeps P (h e)) → Keeps P (try_except m c h).
Proof.
  intros Hm Hh w. unfold try_except.
  destruct (Hm w) as (Hfs & evs & Htr & Hevs).
  destruct (m w) as [[a|e] w1]; simpl in *.
  - split; [done|]. by exists evs.
  - destruct (c e); simpl; [|split; [done|]; by exists evs].
    destruct (Hh e w1) as (Hfs' & evs' & Htr' & Hevs').
    split; [congruence|]. exists (evs ++ evs').
    rewrite Htr', Htr, app_assoc. split; [done|]. by apply Forall_app.
Qed.

Lemma keeps_log e : P e → Keeps P (log e).
Proof. intros He w. split; [done|]. exists [e]. split; [done|]. by constructor. Qed.

Lemma keeps_path_exists p : Keeps P (path_exists p).
Proof. intros w. split; [done|]. exists []. by rewrite app_nil_r. Qed.

Lemma keeps_read_text p : Keeps P (read_text p).
Proof.
  intros w. unfold read_text.
  destruct (node_at (fs w) p) as [[]|]; (split; [done|]; exists []; by rewrite app_nil_r).
Qed.

Lemma keeps_for_each {A} (l : list A) (body : A → M unit) :
  (∀ x, Keeps P (body x)) → Keeps P (for_each l body).
Proof.
  intros Hb. induction l as [|x l IH]; simpl.
  - apply keeps_ret.
  - apply keeps_bind; [apply Hb | intros _; apply IH].
Qed.

Lemma keeps_os_kill env pid sig : P (EvKill pid sig) → Keeps P (os_kill env pid sig).
Proof.
  intros He w. unfold os_kill. destruct (fits_pid_t pid); [|apply keeps_raise].
  destruct (kill_ok env (trace w) pid sig); simpl;
    (split; [done|]; exists [EvKill pid sig]; split; [done|]; by constructor).
Qed.

Lemma keeps_check_port env port : P (EvConnect port) → Keeps P (check_port env port).
Proof.
  intros He w. split; [done|]. exists [EvConnect port]. split; [done|]. by constructor.
Qed.

Lemma keeps_now env fmt : Keeps P (now env fmt).
Proof. intros w. split; [done|]. exists []. by rewrite app_nil_r. Qed.
End Keeps.

Lemma keeps_mono {A} (P Q : event → Prop) (m : M A) :
(∀ e, P e → Q e) → Keeps P m → Keeps Q m.
Proof.
intros HPQ Hm w. destruct (Hm w) as (Hfs & evs & Htr & Hevs).
split; [done|]. exists evs. split; [done|]. eapply Forall_impl; eauto.
Qed.

Create HintDb keeps.
#[local] Hint Resolve keeps_ret keeps_raise keeps_path_exists keeps_read_text
keeps_now : keeps.
#[local] Hint Extern 1 (Keeps _ (log _)) => apply keeps_log; exact I : keeps.
#[local] Hint Extern 1 (Keeps _ (print _)) => apply keeps_log; exact I : keeps.
#[local] Hint Extern 1 (Keeps _ (os_kill _ _ _)) => apply keeps_os_kill; exact I : keeps.
#[local] Hint Extern 1 (Keeps _ (check_port _ _)) => apply keeps_check_port; exact I : keeps.

Ltac keeps :=
repeat first
  [ progress eauto with keeps
  | apply keeps_bind; [|intros ?]
  | apply keeps_try; [|intros ?]
  | apply keeps_for_each; intros ?
  | match goal with
    | |- Keeps _ (if ?b then _ else _) => destruct b
    | |- Keeps _ (match ?x with _ => _ end) => destruct x
    | |- Keeps _ (let '(_, _) := ?x in _) => destruct x
    end ].


Lemma total_ret {A} (a : A) : Total (mret a).
Proof. intros w. by eexists _, _. Qed.

Lemma total_bind {A B} (m : M A) (k : A → M B) :
  Total m → (∀ a, Total (k a)) → Total (m ≫= k).
Proof.
  intros Hm Hk w. destruct (Hm w) as (a & w1 & E).
  unfold mbind, M_bind. rewrite E. apply Hk.
Qed.

Lemma total_try_any {A} (m : M A) (h : exn → M A) :
  (∀ e, Total (h e)) → Total (try_except m any_exception h).
Proof.
  intros Hh w. unfold try_except.
  destruct (m w) as [[a|e] w1]; simpl; [by eexists _, _ | apply Hh].
Qed.

Lemma total_now env fmt : Total (now env fmt).
Proof. intros w. by eexists _, _. Qed.


(** ** Process registry *)

Lemma read_pid_total service w :
  read_pid service w =
    (Ok (match node_at (fs w) (get_pid_file service) with
         | Some (File s) => py_int (strip s)
         | _ => None
         end), w).
Proof.
  unfold read_pid. munfold.
  destruct (node_at (fs w) (get_pid_file service)) as [[s| |]|] eqn:E; simpl;
    rewrite ?E; try reflexivity.
  destruct (py_int (strip s)); reflexivity.
Qed.

Lemma node_at_pid_file f service :
  node_at f (get_pid_file service) = f !! get_pid_file service.
Proof. reflexivity. Qed.

Lemma os_kill_eq env pid sig w :
  fits_pid_t pid = true →
  os_kill env pid sig w =
    (if kill_ok env (trace w) pid sig then Ok () else Raise OSError,
     {| fs := fs w; trace := trace w ++ [EvKill pid sig] |}).
Proof. intros H. unfold os_kill. rewrite H. by destruct (kill_ok _ _ _ _). Qed.

Lemma is_running_eq env pid w :
  fits_pid_t pid = true →
  is_running env pid w =
    (Ok (kill_ok env (trace w) pid SIG0),
     {| fs := fs w; trace := trace w ++ [EvKill pid SIG0] |}).
Proof.
  intros H. unfold is_running. munfold. rewrite os_kill_eq by done.
  by destruct (kill_ok _ _ _ _).
Qed.

Lemma is_running_overflow env pid w :
  fits_pid_t pid = false → is_running env pid w = (Raise OverflowError, w).
Proof. intros H. unfold is_running, os_kill. munfold. by rewrite H. Qed.

Lemma remove_pid_eq service w :
  remove_pid service w =
    match fs w !! get_pid_file service with
    | Some (File _) | Some Locked =>
        (Ok (), {| fs := delete (get_pid_file service) (fs w);
                   trace := trace w ++ [EvUnlink (get_pid_file service)] |})
    | Some Dir => (Raise OSError, w)
    | None => (Ok (), w)
    end.
Proof.
  unfold remove_pid, unlink. munfold. rewrite node_at_pid_file.
  destruct (fs w !! get_pid_file service) as [[]|] eqn:E; simpl;
    rewrite ?node_at_pid_file, ?E; reflexivity.
Qed.


(** C8: [read_pid] can raise.  The existence test of line 69 stands
    outside the try of line 70, and [Path.exists] lets an OSError other
    than "not found" through.  So when the pid path cannot be examined,
    [read_pid] ends with OSError instead of returning absent: for a
    service name of 300 characters, and for a .pids directory that
    cannot be searched.  In every other state it returns, changing
    nothing: absent when the file is missing, unreadable or does not
    parse as an integer, and the integer otherwise. *)
Theorem read_pid_raises_when_unexaminable :
  (∀ denied service w,
     Os.read_pid denied service w =
       if denied (fs w) (get_pid_file service) then (Raise OSError, w)
       else (Ok (match fs w !! get_pid_file service with
                 | Some (File s) => py_int (strip s)
                 | _ => None
                 end), w)) ∧
  Os.read_pid name_too_long long_service demo_world = (Raise OSError, demo_world) ∧
  Os.read_pid sealed_registry "web_ui" demo_world = (Raise OSError, demo_world).
Proof.
  split; [|split; vm_compute; reflexivity].
  intros denied service w. unfold Os.read_pid, Os.path_exists. munfold.
  destruct (denied (fs w) (get_pid_file service)); [done|].
  rewrite node_at_pid_file.
  destruct (fs w !! get_pid_file service) as [[s| |]|] eqn:E; simpl;
    rewrite ?node_at_pid_file, ?E; try reflexivity.
  destruct (py_int (strip s)); reflexivity.
Qed.

Lemma write_pid_read_pid service pid w w1 :
  write_pid service pid w = (Ok (), w1) → read_pid service w1 = (Ok (Some pid), w1).
Proof.
  unfold write_pid. destruct (str_fits pid) eqn:Hfit; [|discriminate].
  unfold write_text, store. rewrite node_at_pid_file.
  destruct (fs w !! get_pid_file service) as [[]|]; [..|destruct (is_dir_at _ _)];
    intros [= <-];
    rewrite read_pid_total, node_at_pid_file; cbn [fs];
    by rewrite lookup_insert_eq, py_int_py_str.
Qed.

(** ** Stopping a service *)


Lemma poll_then_kill_stubborn env n pid killed w :
  fits_pid_t pid = true →
  (∀ tr, kill_ok env tr pid SIG0 = true) →
  (∀ tr, kill_ok env tr pid SIGKILL = killed) →
  poll_then_kill env n pid w =
    (if killed then Ok () else Raise OSError,
     {| fs := fs w; trace := trace w ++ polls n pid ++ [EvKill pid SIGKILL] |}).
Proof.
  intros Hfit Halive Hkill. revert w.
  induction n as [|n IH]; intros w; simpl.
  - rewrite os_kill_eq, Hkill by done. reflexivity.
  - munfold. rewrite is_running_eq, Halive by done. unfold sleep, log.
    rewrite IH. simpl. rewrite <- !app_assoc. reflexivity.
Qed.


Lemma poll_then_kill_outcome env n pid w :
  fits_pid_t pid = true →
  ∃ r w', poll_then_kill env n pid w = (r, w') ∧ fs w' = fs w ∧
          (r = Ok () ∨ r = Raise OSError).
Proof.
  intros Hfit. revert w. induction n as [|n IH]; intros w.
  - unfold poll_then_kill. rewrite os_kill_eq by done.
    destruct (kill_ok _ _ _ _); eexists _, _; (split; [reflexivity|]); auto.
  - change (poll_then_kill env (S n) pid) with
      (alive ← is_running env pid;
       if alive : bool then sleep 100;; poll_then_kill env n pid else mret ()).
    munfold. rewrite is_running_eq by done.
    destruct (kill_ok _ _ _ _); simpl;
      [|eexists _, _; (split; [reflexivity|]); by auto].
    match goal with |- context [poll_then_kill env n pid ?w1] =>
      destruct (IH w1) as (r & w' & -> & Hfs & Hr) end.
    simpl in Hfs. destruct Hr as [-> | ->];
      eexists _, _; (split; [reflexivity|]); auto.
Qed.


(** In every run, whatever the surroundings answer: if the forceful
    signal is sent at all, it is the last event and exactly [n] polls,
    each followed by its pause, come before it. *)
Lemma poll_then_kill_escalates_last env n pid w :
  ∃ evs, trace (poll_then_kill env n pid w).2 = trace w ++ evs ∧
         (EvKill pid SIGKILL ∈ evs → evs = polls n pid ++ [EvKill pid SIGKILL]).
Proof.
  revert w. induction n as [|n IH]; intros w.
  - unfold poll_then_kill, os_kill. destruct (fits_pid_t pid).
    + exists [EvKill pid SIGKILL]. split; [by destruct (kill_ok _ _ _ _)|done].
    + exists []. split; [by rewrite app_nil_r|]. by intros ?%elem_of_nil.
  - change (poll_then_kill env (S n) pid) with
      (alive ← is_running env pid;
       if alive : bool then sleep 100;; poll_then_kill env n pid else mret ()).
    destruct (fits_pid_t pid) eqn:Hfit.
    2: { exists []. unfold mbind, M_bind. rewrite is_running_overflow by done.
         split; [by rewrite app_nil_r|]. by intros ?%elem_of_nil. }
    munfold. rewrite is_running_eq by done.
    destruct (kill_ok env (trace w) pid SIG0); cbn [sleep log fst snd].
    + match goal with |- context [poll_then_kill env n pid ?w1] =>
        destruct (IH w1) as (evs & Htr & Hlast) end.
      destruct (poll_then_kill env n pid _) as [[[]|e] w2]; cbn [snd trace] in *;
        (exists ([EvKill pid SIG0; EvSleep 100] ++ evs);
         split; [by rewrite Htr, <- !app_assoc|];
         intros Hin; apply elem_of_app in Hin as [Hin|Hin];
         [ apply elem_of_cons in Hin as [[=]|Hin];
           apply list_elem_of_singleton in Hin; discriminate
         | rewrite (Hlast Hin); unfold polls; cbn [replicate List.concat];
           by rewrite <- !app_assoc ]).
    + exists [EvKill pid SIG0]. split; [done|].
      intros Hin. apply list_elem_of_singleton in Hin. discriminate.
Qed.

#[local] Arguments polls : simpl never.
#[local] Arguments get_pid_file : simpl never.
#[local] Arguments poll_then_kill : simpl never.
#[local] Arguments remove_pid : simpl never.
#[local] Arguments is_running : simpl never.
#[local] Arguments os_kill : simpl never.
#[local] Arguments read_pid : simpl never.




(** C3: when the recorded process is alive at every probe and the
    graceful signal is delivered without effect, [stop_service] sends
    SIGTERM, polls liveness ten times with a pause of 100 ms after each
    poll, and only then sends SIGKILL; the pid record is removed
    afterwards both when SIGKILL is delivered (the result is success)
    and when it fails with OSError (the error is reported, the result is
    failure). *)
Theorem stop_service_escalation env service config w s pid killed :
  fs w !! get_pid_file service = Some (File s) →
  py_int (strip s) = Some pid →
  pid ≠ 0 →
  fits_pid_t pid = true →
  (∀ tr, kill_ok env tr pid SIG0 = true) →
  (∀ tr, kill_ok env tr pid SIGTERM = true) →
  (∀ tr, kill_ok env tr pid SIGKILL = killed) →
  ∃ w',
    stop_service env service config w = (Ok killed, w') ∧
    fs w' !! get_pid_file service = None ∧
    trace w' =
      trace w ++ [EvKill pid SIG0; EvKill pid SIGTERM] ++ polls 10 pid
        ++ [EvKill pid SIGKILL]
        ++ (if killed
            then [EvUnlink (get_pid_file service); EvPrint (MsgStopped (cfg_name config))]
            else [EvPrint (MsgError (cfg_name config) OSError);
                  EvUnlink (get_pid_file service)]).
Proof.
  intros Hfile Hint Hnz Hfit Halive Hterm Hkill.
  unfold stop_service. munfold.
  rewrite read_pid_total, node_at_pid_file, Hfile, Hint. simpl.
  destruct (Z.eqb_spec pid 0) as [|_]; [done|].
  rewrite is_running_eq, Halive by done. simpl.
  rewrite os_kill_eq, Hterm by done.
  rewrite (poll_then_kill_stubborn env 10 pid killed) by done.
  destruct killed; simpl; rewrite remove_pid_eq; simpl; rewrite Hfile;
    (eexists; split; [reflexivity|]); simpl;
    (split; [apply lookup_delete_eq|]);
    rewrite <- !app_assoc; reflexivity.
Qed.


Lemma stop_service_escalation_witness :
  ∃ w',
    stop_service stubborn_env "web_ui" (web_ui_config stubborn_env) demo_world
      = (Ok false, w') ∧
    fs w' !! get_pid_file "web_ui" = None ∧
    trace w' =
      trace demo_world ++ [EvKill 4242 SIG0; EvKill 4242 SIGTERM] ++ polls 10 4242
        ++ [EvKill 4242 SIGKILL]
        ++ [EvPrint (MsgError "Web UI" OSError); EvUnlink (get_pid_file "web_ui")].
Proof.
  apply (stop_service_escalation stubborn_env "web_ui" (web_ui_config stubborn_env)
           demo_world "4242
" 4242 false).
  - vm_compute. reflexivity.
  - vm_compute. reflexivity.
  - lia.
  - reflexivity.
  - intros tr. reflexivity.
  - intros tr. reflexivity.
  - intros tr. reflexivity.
Defined.

(** C4, in the form that holds: [stop_service] deletes the pid record in every
    outcome in which it returns.  Provided the pid file is not a
    directory and a recorded pid fits the C type pid_t, [stop_service]
    returns, and afterwards no pid record is on file: whether there was
    no record, an unreadable or unparsable one, a dead process, a process
    that stopped, or a signal that failed. *)
Theorem stop_service_removes_record env service config w :
  fs w !! get_pid_file service ≠ Some Dir →
  (∀ s pid, fs w !! get_pid_file service = Some (File s) →
            py_int (strip s) = Some pid → fits_pid_t pid = true) →
  ∃ ok w', stop_service env service config w = (Ok ok, w') ∧
           fs w' !! get_pid_file service = None.
Proof.
  intros Hdir Hfit.
  assert (Hgone : ∀ tr, ∃ w',
    remove_pid service {| fs := fs w; trace := tr |} = (Ok (), w') ∧
    fs w' !! get_pid_file service = None).
  { intros tr. rewrite remove_pid_eq. simpl.
    destruct (fs w !! get_pid_file service) as [[]|] eqn:E; try done;
      eexists; (split; [reflexivity|]); simpl;
      first [apply lookup_delete_eq | assumption]. }
  assert (Hgone0 : ∃ w', remove_pid service w = (Ok (), w') ∧
                         fs w' !! get_pid_file service = None).
  { destruct w as [f tr]. apply Hgone. }
  unfold stop_service. munfold.
  rewrite read_pid_total, node_at_pid_file.
  destruct (fs w !! get_pid_file service) as [[s| |]|] eqn:E; try done; simpl;
    try (destruct Hgone0 as (w' & -> & Hn); by eauto).
  destruct (py_int (strip s)) as [pid|] eqn:Hint; simpl;
    [|destruct Hgone0 as (w' & -> & Hn); by eauto].
  destruct (Z.eqb_spec pid 0) as [|_]; simpl;
    [destruct Hgone0 as (w' & -> & Hn); by eauto|].
  specialize (Hfit s pid eq_refl Hint).
  rewrite is_running_eq by done.
  destruct (kill_ok env (trace w) pid SIG0); simpl.
  2: { destruct (Hgone (trace w ++ [EvKill pid SIG0])) as (w' & -> & Hn). by eauto. }
  rewrite os_kill_eq by done. simpl.
  destruct (kill_ok env _ pid SIGTERM); simpl.
  2: { match goal with |- context [remove_pid service {| fs := _; trace := ?tr |}] =>
         destruct (Hgone tr) as (w' & -> & Hn) end. by eauto. }
  match goal with |- context [poll_then_kill env 10 pid ?w1] =>
    destruct (poll_then_kill_outcome env 10 pid w1 Hfit) as (r & w2 & -> & Hfs & Hr) end.
  simpl in Hfs. destruct w2 as [f2 tr2]. simpl in Hfs. subst f2.
  destruct Hr as [-> | ->]; simpl.
  - destruct (Hgone tr2) as (w' & -> & Hn). simpl. by eauto.
  - match goal with |- context [remove_pid service {| fs := _; trace := ?tr |}] =>
      destruct (Hgone tr) as (w' & -> & Hn) end. by eauto.
Qed.


Lemma stop_service_removes_record_witness :
  ∃ ok w', stop_service dead_env "web_ui" (web_ui_config dead_env) demo_world = (Ok ok, w') ∧
           fs w' !! get_pid_file "web_ui" = None.
Proof.
  apply stop_service_removes_record.
  - vm_compute. discriminate.
  - intros s pid Hs Hpid. vm_compute in Hs. injection Hs as <-.
    vm_compute in Hpid. injection Hpid as <-. reflexivity.
Defined.

(** C4, counterexample: [start_service] spawns a child, records its pid,
    finds it dead after the settle window and returns failure; the pid
    record of the dead child stays on file. *)
Lemma start_service_keeps_record_of_dead_child :
  (start_service dead_env "file_watcher" file_watcher_config demo_world).1 = Ok false ∧
  trace (start_service dead_env "file_watcher" file_watcher_config demo_world).2 =
    [EvWrite [".logs"; "file_watcher.log"] "";
     EvPopen ["bash"; "scripts/daemon-extract-learnings.sh"; "--watch"];
     EvWrite [".pids"; "file_watcher.pid"] "4242";
     EvSleep 500; EvKill 4242 SIG0;
     EvPrint (MsgStartFailed "File Watcher" [".logs"; "file_watcher.log"])] ∧
  fs (start_service dead_env "file_watcher" file_watcher_config demo_world).2
    !! get_pid_file "file_watcher" = Some (File "4242").
Proof. repeat split; vm_compute; reflexivity. Qed.

(** ** The status command *)

Lemma keeps_is_running env pid : Keeps probe (is_running env pid).
Proof. unfold is_running. keeps. Qed.

Lemma keeps_pid_alive env pid : Keeps probe (pid_alive env pid).
Proof. unfold pid_alive. keeps. Qed.

Lemma keeps_read_pid P service : Keeps P (read_pid service).
Proof. unfold read_pid. keeps. Qed.

Lemma keeps_has_active_session P : Keeps P has_active_session.
Proof. unfold has_active_session. keeps. Qed.

Lemma keeps_get_session_name P : Keeps P get_session_name.
Proof. unfold get_session_name. keeps. Qed.

#[local] Hint Resolve keeps_is_running keeps_pid_alive keeps_read_pid
  keeps_has_active_session keeps_get_session_name : keeps.

Lemma keeps_status_services env l b : Keeps probe (status_services env l b).
Proof.
  revert b. induction l as [|[service config] l IH]; intros b; simpl; keeps.
Qed.


(** C6: [status] is read-only.  From every state and whatever the
    surroundings answer, also when it ends with an exception, it leaves
    the file system exactly as it was, and all it does is probe
    (signal 0, a TCP connect) and print: it creates, deletes and writes
    nothing. *)
Theorem status_read_only env w :
  fs (status env w).2 = fs w ∧
  ∃ evs, trace (status env w).2 = trace w ++ evs ∧ Forall probe evs.
Proof.
  revert w. change (Keeps probe (status env)).
  unfold status. keeps.
Qed.


(** ** Sessions *)

Lemma keeps_subprocess_run env argv :
  quiet_commands env → Keeps nowrite (subprocess_run env argv).
Proof.
  intros Hq w. unfold subprocess_run. specialize (Hq (trace w) argv (fs w)).
  destruct (run env (trace w) argv (fs w)) as [[[rc out] f]|]; simpl;
    (split; [done|]; exists [EvRun argv]; split; [done|]; by repeat constructor).
Qed.

Lemma keeps_get_git_branch env :
  quiet_commands env → Keeps nowrite (get_git_branch env).
Proof. intros Hq. unfold get_git_branch. keeps. by apply keeps_subprocess_run. Qed.

Lemma keeps_get_project_name env :
  quiet_commands env → Keeps nowrite (get_project_name env).
Proof. intros Hq. unfold get_project_name. keeps. by apply keeps_subprocess_run. Qed.

Lemma keeps_derive_session_name env :
  quiet_commands env → Keeps nowrite (derive_session_name env).
Proof.
  intros Hq. unfold derive_session_name.
  pose proof (keeps_get_git_branch env Hq). pose proof (keeps_get_project_name env Hq).
  keeps.
Qed.

Lemma total_derive_session_name env : Total (derive_session_name env).
Proof.
  unfold derive_session_name, get_git_branch, get_project_name.
  apply total_bind; [apply total_try_any; intros; apply total_ret|]. intros found.
  apply total_bind.
  { apply total_bind; [apply total_try_any; intros; apply total_ret|].
    intros [name|]; apply total_ret. }
  intros project.
  match goal with |- Total (if ?b then _ else _) => destruct b end;
    [apply total_bind; [apply total_now | intros; apply total_ret] | apply total_ret].
Qed.

Lemma node_at_task_plan f : node_at f task_plan_file = f !! task_plan_file.
Proof. reflexivity. Qed.


(** C1, in the form that holds: when a readable marker without the placeholder
    exists, the external commands change no file and the init script,
    if present, can be run, [create_auto_session] writes no file
    (neither it nor anything it runs) and returns the name derived from
    the current branch, or from the project and the date: the value of
    [derive_session_name], which never looks at the marker. *)
Theorem create_auto_session_keeps_marker env w text :
  quiet_commands env →
  (∀ tr name f, run env tr (init_script_argv name) f ≠ None) →
  fs w !! task_plan_file = Some (File text) →
  str_in placeholder text = false →
  ∃ branch name w1 w' evs,
    derive_session_name env w = (Ok (branch, name), w1) ∧
    create_auto_session env w = (Ok name, w') ∧
    fs w' = fs w ∧
    trace w' = trace w ++ evs ∧ Forall nowrite evs.
Proof.
  intros Hq Hinit Hfile Hph. unfold placeholder in Hph.
  destruct (total_derive_session_name env w) as ([branch name] & w1 & Hd).
  destruct (keeps_derive_session_name env Hq w) as (Hfs & evs & Htr & Hevs).
  rewrite Hd in Hfs, Htr. simpl in Hfs, Htr.
  exists branch, name, w1.
  unfold create_auto_session. unfold mbind at 1. unfold M_bind at 1. rewrite Hd.
  munfold. unfold subprocess_run, placeholder.
  destruct (node_at (fs w1) (path_div SCRIPT_DIR "init-session.sh")) as [nd|].
  - pose proof (Hq (trace w1) (init_script_argv name) (fs w1)) as Hq1.
    pose proof (Hinit (trace w1) name (fs w1)) as Hi1.
    unfold init_script_argv in *.
    destruct (run env (trace w1) _ (fs w1)) as [[[rc out] f]|]; [|done].
    subst f. simpl. rewrite node_at_task_plan, Hfs, Hfile. simpl.
    rewrite ?node_at_task_plan, ?Hfs, ?Hfile, Hph. simpl.
    eexists _, _. split; [done|]. split; [reflexivity|]. simpl.
    split; [done|]. split; [by rewrite Htr, <- app_assoc|].
    apply Forall_app. split; [done|]. by repeat constructor.
  - simpl. rewrite node_at_task_plan, Hfs, Hfile. simpl.
    rewrite ?node_at_task_plan, ?Hfs, ?Hfile, Hph. simpl.
    eexists _, evs. split; [done|]. split; [reflexivity|]. done.
Qed.


Lemma create_auto_session_keeps_marker_witness :
  ∃ branch name w1 w' evs,
    derive_session_name feature_env demo_world = (Ok (branch, name), w1) ∧
    create_auto_session feature_env demo_world = (Ok name, w') ∧
    fs w' = fs demo_world ∧
    trace w' = trace demo_world ++ evs ∧ Forall nowrite evs.
Proof.
  apply (create_auto_session_keeps_marker feature_env demo_world old_marker).
  - intros tr argv f. reflexivity.
  - intros tr name f. discriminate.
  - vm_compute. reflexivity.
  - vm_compute. reflexivity.
Defined.

(** C1, counterexample: the marker records the session "old-name", the
    session is active, and [create_auto_session] on the branch
    feature/login returns "feature-login". *)
Lemma create_auto_session_ignores_marker_name :
  has_active_session demo_world = (Ok true, demo_world) ∧
  get_session_name demo_world = (Ok (Some "old-name"), demo_world) ∧
  (create_auto_session feature_env demo_world).1 = Ok "feature-login" ∧
  fs (create_auto_session feature_env demo_world).2 = fs demo_world.
Proof. repeat split; vm_compute; reflexivity. Qed.

(** C9: there are markers for which a session is reported active while
    its name is absent: one that has "# Task:" only in the middle of a
    line, and one whose header line has an empty title; [status] then
    prints an active session without a name. *)
Theorem active_session_without_name :
  has_active_session (world_with_marker marker_mid_line) =
    (Ok true, world_with_marker marker_mid_line) ∧
  get_session_name (world_with_marker marker_mid_line) =
    (Ok None, world_with_marker marker_mid_line) ∧
  has_active_session (world_with_marker marker_empty_title) =
    (Ok true, world_with_marker marker_empty_title) ∧
  get_session_name (world_with_marker marker_empty_title) =
    (Ok None, world_with_marker marker_empty_title) ∧
  printed (trace (status live_env (world_with_marker marker_empty_title)).2) =
    [MsgStatusActive None; MsgServiceStopped "Web UI"; MsgServiceStopped "File Watcher"] ∧
  printed (trace (activate live_env false (world_with_marker marker_mid_line)).2) =
    [MsgActiveSession None; MsgStarted "Web UI" 4242; MsgStarted "File Watcher" 4243;
     MsgHooksReady; MsgEngineActive "http://localhost:8765" None].
Proof. repeat split; vm_compute; reflexivity. Qed.

(** ** Archiving *)


Lemma replay_snoc f evs e : replay f (evs ++ [e]) = apply_event (replay f evs) e.
Proof. unfold replay. by rewrite foldl_app. Qed.

Lemma replay_app f evs1 evs2 : replay f (evs1 ++ evs2) = replay (replay f evs1) evs2.
Proof. unfold replay. by rewrite foldl_app. Qed.

Lemma list_strip_prefix_spec p q r :
  list_strip_prefix p q = Some r ↔ q = p ++ r.
Proof.
  revert q. induction p as [|a p IH]; intros q; simpl.
  - split; [by intros [= ->] | by intros ->].
  - destruct q as [|b q]; [split; [done | by intros [=]]|].
    destruct (String.eqb_spec a b) as [->|Hne].
    + rewrite IH. split; [by intros -> | by intros [= ->]].
    + split; [done | intros [= ? ?]; done].
Qed.

Lemma md_entry_spec dir p name :
  md_entry dir p = Some name ↔ p = dir ++ [name] ∧ endswith name ".md" = true.
Proof.
  unfold md_entry.
  destruct (list_strip_prefix dir p) as [r|] eqn:E.
  - apply list_strip_prefix_spec in E as ->.
    destruct r as [|n [|n' r]].
    + split; [done|]. intros [H _]. apply (f_equal List.length) in H.
      rewrite !length_app in H. simpl in H. lia.
    + destruct (endswith n ".md") eqn:Hend.
      * split; [by intros [= ->]|]. intros [H _]. by apply app_inv_head in H as [= ->].
      * split; [done|]. intros [H Hmd]. apply app_inv_head in H as [= ->]. congruence.
    + split; [done|]. intros [H _]. by apply app_inv_head in H.
  - split; [done|]. intros [-> _].
    assert (list_strip_prefix dir (dir ++ [name]) = Some [name]) by by apply list_strip_prefix_spec.
    congruence.
Qed.

Lemma glob_md_spec dir w :
  ∃ docs, glob_md dir w = (Ok docs, w) ∧
    ∀ p, p ∈ docs ↔
      ∃ name, p = dir ++ [name] ∧ endswith name ".md" = true ∧ is_Some (fs w !! p).
Proof.
  eexists. split; [reflexivity|]. intros p.
  rewrite list_elem_of_omap. split.
  - intros ([q nd] & Hin & Hq). apply elem_of_map_to_list in Hin. simpl in Hq.
    destruct (md_entry dir q) as [name|] eqn:E; [|done].
    injection Hq as <-. apply md_entry_spec in E as [-> Hmd]. eauto.
  - intros (name & -> & Hmd & [nd Hnd]).
    exists (dir ++ [name], nd). split; [by apply elem_of_map_to_list|]. simpl.
    assert (md_entry dir (dir ++ [name]) = Some name) as -> by by apply md_entry_spec.
    done.
Qed.

Lemma Forall_snoc_inv {A} (P : A → Prop) l x :
  Forall P (l ++ [x]) → Forall P l ∧ P x.
Proof. intros [Hl Hx]%Forall_app. split; [done|]. by inversion Hx. Qed.

Lemma archive_ne_active q n : "archive" :: q ≠ ACTIVE_DIR ++ [n].
Proof. unfold ACTIVE_DIR. simpl. intros H. discriminate H. Qed.


Section Replay.
Variable f0 : gmap path node.
Variable rest : path.

Lemma archive_side_active e g n :
  archive_side f0 rest e → apply_event g e !! (ACTIVE_DIR ++ [n]) = g !! (ACTIVE_DIR ++ [n]).
Proof.
  intros [(m & s & -> & _) | (q & ->)]; simpl;
    rewrite lookup_insert_ne; auto using archive_ne_active.
Qed.

Lemma replay_archive_side_active evs g n :
  Forall (archive_side f0 rest) evs → replay g evs !! (ACTIVE_DIR ++ [n]) = g !! (ACTIVE_DIR ++ [n]).
Proof.
  intros Hevs. induction evs as [|e evs IH] using rev_ind; [reflexivity|].
  apply Forall_snoc_inv in Hevs as [Hevs He].
  rewrite replay_snoc, (archive_side_active _ _ _ He). auto.
Qed.

Lemma replay_copy_other evs g q :
  Forall (copy_ev f0 rest) evs → (∀ n, q ≠ ("archive" :: rest) ++ [n]) → replay g evs !! q = g !! q.
Proof.
  intros Hevs Hq. induction evs as [|e evs IH] using rev_ind; [done|].
  apply Forall_snoc_inv in Hevs as [Hevs He].
  rewrite replay_snoc. destruct He as (n & s & -> & _). cbn [apply_event].
  rewrite lookup_insert_ne by (intros <-; by eapply Hq). auto.
Qed.

Lemma replay_copy_written evs g n s :
  Forall (copy_ev f0 rest) evs → EvWrite (("archive" :: rest) ++ [n]) s ∈ evs →
  replay g evs !! (("archive" :: rest) ++ [n]) = Some (File s).
Proof.
  induction evs as [|e evs IH] using rev_ind; [by intros _ ?%elem_of_nil|].
  intros [Hevs He]%Forall_snoc_inv Hin.
  rewrite replay_snoc. destruct He as (m & t & -> & Ht). cbn [apply_event].
  destruct (decide (("archive" :: rest) ++ [m] = ("archive" :: rest) ++ [n])) as [Heq|Hne].
  - rewrite Heq, lookup_insert_eq. apply app_inv_head in Heq as [= ->].
    apply elem_of_app in Hin as [Hin|Hin].
    + apply Forall_forall with (x := EvWrite (("archive" :: rest) ++ [n]) s) in Hevs; [|done].
      destruct Hevs as (m' & s' & Heq' & Hs').
      assert (Hm : ("archive" :: rest) ++ [n] = ("archive" :: rest) ++ [m']) by congruence.
      assert (s = s') as <- by congruence.
      apply app_inv_head in Hm as [= <-]. congruence.
    + apply list_elem_of_singleton in Hin. congruence.
  - rewrite lookup_insert_ne by done. apply IH; [done|].
    apply elem_of_app in Hin as [Hin|Hin]; [done|].
    apply list_elem_of_singleton in Hin. congruence.
Qed.

Lemma replay_copy_no_subdir evs g :
  Forall (copy_ev f0 rest) evs → (∀ n, g !! (("archive" :: rest) ++ [n]) ≠ Some Dir) →
  ∀ n, replay g evs !! (("archive" :: rest) ++ [n]) ≠ Some Dir.
Proof.
  intros Hevs Hg. induction evs as [|e evs IH] using rev_ind; [done|].
  apply Forall_snoc_inv in Hevs as [Hevs He].
  intros n. rewrite replay_snoc. destruct He as (m & t & -> & Ht). cbn [apply_event].
  destruct (decide (("archive" :: rest) ++ [m] = ("archive" :: rest) ++ [n])) as [Heq|Hne].
  - by rewrite Heq, lookup_insert_eq.
  - rewrite lookup_insert_ne by done. by apply IH.
Qed.
End Replay.

Lemma replay_cons f e evs : replay f (e :: evs) = replay (apply_event f e) evs.
Proof. reflexivity. Qed.


Section Loops.
Variable f0 : gmap path node.
Variable rest : path.

Lemma copy_doc_result n w1 :
  (∀ m, fs w1 !! (ACTIVE_DIR ++ [m]) = f0 !! (ACTIVE_DIR ++ [m])) →
  (∀ m, fs w1 !! (("archive" :: rest) ++ [m]) ≠ Some Dir) →
  (∃ s, f0 !! (ACTIVE_DIR ++ [n]) = Some (File s) ∧
        copy (ACTIVE_DIR ++ [n]) (("archive" :: rest) ++ [n]) w1 =
          (Ok (), {| fs := <[("archive" :: rest) ++ [n] := File s]> (fs w1);
                     trace := trace w1 ++ [EvWrite (("archive" :: rest) ++ [n]) s] |})) ∨
  (∃ e, copy (ACTIVE_DIR ++ [n]) (("archive" :: rest) ++ [n]) w1 = (Raise e, w1)).
Proof.
  intros Hact Hsub. unfold copy. munfold.
  change (node_at (fs w1) (ACTIVE_DIR ++ [n])) with (fs w1 !! (ACTIVE_DIR ++ [n])).
  rewrite Hact.
  destruct (f0 !! (ACTIVE_DIR ++ [n])) as [[s| |]|] eqn:E; try (right; by eexists).
  assert (Hnd : is_dir_at (fs w1) (("archive" :: rest) ++ [n]) = false).
  { unfold is_dir_at.
    change (node_at (fs w1) (("archive" :: rest) ++ [n])) with (fs w1 !! (("archive" :: rest) ++ [n])).
    specialize (Hsub n). by destruct (fs w1 !! (("archive" :: rest) ++ [n])) as [[]|]. }
  rewrite Hnd. unfold write_text, store.
  change (node_at (fs w1) (("archive" :: rest) ++ [n])) with (fs w1 !! (("archive" :: rest) ++ [n])).
  destruct (fs w1 !! (("archive" :: rest) ++ [n])) as [[]|]; try (right; by eexists).
  - left. by exists s.
  - destruct (is_dir_at (fs w1) (parent (("archive" :: rest) ++ [n]))); [|right; by eexists].
    left. by exists s.
Qed.

Lemma copy_body_result n w1 :
  (∀ m, fs w1 !! (ACTIVE_DIR ++ [m]) = f0 !! (ACTIVE_DIR ++ [m])) →
  (∀ m, fs w1 !! (("archive" :: rest) ++ [m]) ≠ Some Dir) →
  (is_template (ACTIVE_DIR ++ [n]) = true ∧
   copy_body ("archive" :: rest) (ACTIVE_DIR ++ [n]) w1 = (Ok (), w1)) ∨
  (is_template (ACTIVE_DIR ++ [n]) = false ∧
   ∃ s, f0 !! (ACTIVE_DIR ++ [n]) = Some (File s) ∧
        copy_body ("archive" :: rest) (ACTIVE_DIR ++ [n]) w1 =
          (Ok (), {| fs := <[("archive" :: rest) ++ [n] := File s]> (fs w1);
                     trace := trace w1 ++ [EvWrite (("archive" :: rest) ++ [n]) s] |})) ∨
  (∃ e, copy_body ("archive" :: rest) (ACTIVE_DIR ++ [n]) w1 = (Raise e, w1)).
Proof.
  intros Hact Hsub. unfold copy_body.
  destruct (is_template (ACTIVE_DIR ++ [n])); [by left|]. right.
  change (path_name (ACTIVE_DIR ++ [n])) with n.
  destruct (copy_doc_result n w1 Hact Hsub) as [(s & Hs & ->) | (e & ->)]; eauto.
Qed.

Lemma copy_loop l : ∀ w1,
  (∀ m, fs w1 !! (ACTIVE_DIR ++ [m]) = f0 !! (ACTIVE_DIR ++ [m])) →
  (∀ m, fs w1 !! (("archive" :: rest) ++ [m]) ≠ Some Dir) →
  Forall (λ p, ∃ n, p = ACTIVE_DIR ++ [n]) l →
  ∃ evs,
    trace (for_each l (copy_body ("archive" :: rest)) w1).2 = trace w1 ++ evs ∧
    fs (for_each l (copy_body ("archive" :: rest)) w1).2 = replay (fs w1) evs ∧
    Forall (copy_ev f0 rest) evs ∧
    ((for_each l (copy_body ("archive" :: rest)) w1).1 = Ok () →
     Forall (λ p, is_template p = false →
                  ∃ s, f0 !! p = Some (File s) ∧
                       EvWrite (("archive" :: rest) ++ [path_name p]) s ∈ evs) l).
Proof.
  induction l as [|p l IH]; intros w1 Hact Hsub Hl.
  - exists []. simpl. rewrite app_nil_r. repeat split; constructor.
  - apply Forall_cons in Hl as [[n ->] Hl].
    cbn [for_each]. unfold mbind, M_bind.
    destruct (copy_body_result n w1 Hact Hsub)
      as [[Htpl ->] | [(Htpl & s & Hs & ->) | (e & ->)]].
    + cbv beta iota.
      destruct (IH w1 Hact Hsub Hl) as (evs & Htr & Hfs & Hevs & Hok).
      exists evs. repeat split; try done. intros Hr. constructor; [|by auto].
      intros ?. congruence.
    + cbv beta iota.
      set (w1' := {| fs := <[("archive" :: rest) ++ [n] := File s]> (fs w1);
                     trace := trace w1 ++ [EvWrite (("archive" :: rest) ++ [n]) s] |}).
      destruct (IH w1') as (evs & Htr & Hfs & Hevs & Hok); [| |done|].
      { intros m. unfold w1'. cbn [fs]. rewrite lookup_insert_ne; [apply Hact|].
        apply (archive_ne_active (rest ++ [n])). }
      { intros m. unfold w1'. cbn [fs].
        destruct (decide (("archive" :: rest) ++ [n] = ("archive" :: rest) ++ [m])) as [Heq|Hne].
        - by rewrite Heq, lookup_insert_eq.
        - rewrite lookup_insert_ne by done. apply Hsub. }
      exists (EvWrite (("archive" :: rest) ++ [n]) s :: evs).
      split; [by rewrite Htr; simpl; rewrite <- app_assoc|].
      split; [by rewrite Hfs|].
      split; [constructor; [by exists n, s | done]|].
      intros Hr. constructor.
      * intros _. exists s. split; [done|]. apply elem_of_cons. by left.
      * eapply Forall_impl; [by apply Hok|]. intros q Hq Hqt.
        destruct (Hq Hqt) as (s' & ? & ?). exists s'. split; [done|].
        apply elem_of_cons. by right.
    + exists []. cbn [fst snd]. rewrite app_nil_r.
      split; [done|]. split; [done|]. split; [constructor|]. intros [=].
Qed.

Lemma unlink_body_result p w :
  (is_template p = true ∧ unlink_body p w = (Ok (), w)) ∨
  (is_template p = false ∧
   unlink_body p w = (Ok (), {| fs := delete p (fs w);
                                trace := trace w ++ [EvUnlink p] |})) ∨
  (∃ e, unlink_body p w = (Raise e, w)).
Proof.
  unfold unlink_body, unlink. destruct (is_template p); [by left|]. right.
  destruct (node_at (fs w) p) as [[]|]; eauto.
Qed.

Lemma unlink_loop l : ∀ w,
  ∃ evs,
    trace (for_each l unlink_body w).2 = trace w ++ evs ∧
    fs (for_each l unlink_body w).2 = replay (fs w) evs ∧
    Forall (λ e, ∃ p, e = EvUnlink p ∧ p ∈ l ∧ is_template p = false) evs.
Proof.
  induction l as [|p l IH]; intros w.
  - exists []. simpl. rewrite app_nil_r. repeat split; constructor.
  - cbn [for_each]. unfold mbind, M_bind.
    destruct (unlink_body_result p w) as [[Htpl ->] | [[Htpl ->] | (e & ->)]].
    + cbv beta iota.
      destruct (IH w) as (evs & Htr & Hfs & Hevs).
      exists evs. repeat split; try done.
      eapply Forall_impl; [done|]. intros e (q & -> & Hq & Hqt).
      exists q. repeat split; try done. apply elem_of_cons. by right.
    + cbv beta iota.
      match goal with |- context [for_each l unlink_body ?w1] =>
        destruct (IH w1) as (evs & Htr & Hfs & Hevs) end.
      exists (EvUnlink p :: evs).
      split; [by rewrite Htr; simpl; rewrite <- app_assoc|].
      split; [by rewrite Hfs|].
      constructor.
      * exists p. repeat split; try done. apply elem_of_cons. by left.
      * eapply Forall_impl; [done|]. intros e (q & -> & Hq & Hqt).
        exists q. repeat split; try done. apply elem_of_cons. by right.
    + exists []. simpl. rewrite app_nil_r. repeat split; constructor.
Qed.

Lemma replay_unlink g0 evs :
  (∀ n, g0 !! (ACTIVE_DIR ++ [n]) = f0 !! (ACTIVE_DIR ++ [n])) →
  Forall (unlink_ev f0 rest g0) evs →
  (∀ n, replay g0 evs !! (("archive" :: rest) ++ [n]) = g0 !! (("archive" :: rest) ++ [n])) ∧
  (∀ n, replay g0 evs !! (ACTIVE_DIR ++ [n]) = f0 !! (ACTIVE_DIR ++ [n]) ∨
        ∃ s, f0 !! (ACTIVE_DIR ++ [n]) = Some (File s) ∧
             g0 !! (("archive" :: rest) ++ [n]) = Some (File s)).
Proof.
  intros Hg0 Hevs. induction evs as [|e evs IH] using rev_ind.
  - split; [done|]. intros n. left. apply Hg0.
  - apply Forall_snoc_inv in Hevs as [Hevs He].
    destruct (IH Hevs) as [IH1 IH2]. rewrite replay_snoc.
    destruct He as [(m & s & -> & Hs & Hc) | (m & ->)]; cbn [apply_event]; [|done].
    split.
    + intros n. rewrite lookup_delete_ne; [apply IH1|].
      intros Heq. symmetry in Heq. by apply (archive_ne_active (rest ++ [n])) in Heq.
    + intros n. destruct (decide (ACTIVE_DIR ++ [m] = ACTIVE_DIR ++ [n])) as [Heq|Hne].
      * right. exists s. apply app_inv_head in Heq as [= <-]. done.
      * rewrite lookup_delete_ne by done. apply IH2.
Qed.
End Loops.

Lemma never_lost_archive_side f0 rest evs :
  Forall (archive_side f0 rest) evs → never_lost f0 ("archive" :: rest) evs.
Proof.
  intros Hevs k n nd Hnd. left.
  rewrite (replay_archive_side_active f0 rest); [done|]. by apply Forall_take.
Qed.

Lemma never_lost_two_phases f0 rest evsA evsB :
  Forall (archive_side f0 rest) evsA →
  Forall (unlink_ev f0 rest (replay f0 evsA)) evsB →
  never_lost f0 ("archive" :: rest) (evsA ++ evsB).
Proof.
  intros HA HB k n nd Hnd. rewrite take_app.
  destruct (decide (k ≤ List.length evsA)%nat) as [Hk|Hk].
  - replace (k - List.length evsA)%nat with 0%nat by lia. rewrite take_0, app_nil_r.
    by apply (never_lost_archive_side f0 rest evsA HA k).
  - rewrite take_ge by lia. rewrite replay_app.
    assert (Hact : ∀ m, replay f0 evsA !! (ACTIVE_DIR ++ [m]) = f0 !! (ACTIVE_DIR ++ [m])).
    { intros m. by apply (replay_archive_side_active f0 rest). }
    destruct (replay_unlink f0 rest (replay f0 evsA) (take (k - List.length evsA) evsB) Hact)
      as [H1 H2]; [by apply Forall_take|].
    destruct (H2 n) as [H | (s & Hs & Hc)].
    + left. congruence.
    + right. exists s. split; [congruence|]. by rewrite H1.
Qed.


Lemma mkdir_step p b w r w1 :
  mkdir p b w = (r, w1) →
  ∃ evs, trace w1 = trace w ++ evs ∧ fs w1 = replay (fs w) evs ∧
         (evs = [] ∨ evs = [EvMkdir p]).
Proof.
  unfold mkdir.
  destruct (node_at (fs w) p) as [[]|]; [..|destruct (is_dir_at _ _)];
    try destruct b; intros [= <- <-];
    first [ by exists []; rewrite app_nil_r; auto
          | by exists [EvMkdir p]; auto ].
Qed.

Lemma well_formed_child f q n :
  well_formed f → node_at f q = None → f !! (q ++ [n]) = None.
Proof.
  intros Hwf Hq. destruct (f !! (q ++ [n])) as [nd|] eqn:E; [|done].
  apply Hwf in E. unfold parent in E. rewrite removelast_last in E.
  unfold is_dir_at in E. by rewrite Hq in E.
Qed.

Lemma archive_dest_cons date name :
  ∃ rest, archive_dest date name = "archive" :: rest.
Proof. unfold archive_dest, path_div. simpl. eauto. Qed.

Lemma node_at_archive f rest : node_at f ("archive" :: rest) = f !! ("archive" :: rest).
Proof. reflexivity. Qed.

Lemma has_active_session_world w : (has_active_session w).2 = w.
Proof.
  unfold has_active_session. munfold.
  destruct (node_at (fs w) task_plan_file) as [[]|] eqn:E; simpl; rewrite ?E; done.
Qed.

Lemma get_session_name_world w : (get_session_name w).2 = w.
Proof.
  unfold get_session_name. munfold.
  destruct (node_at (fs w) task_plan_file) as [[]|] eqn:E; simpl; rewrite ?E; try done.
  destruct (Re.search _ _ _); [|done]. by destruct (_ && _).
Qed.


Lemma keeps_generate_summary env :
  quiet_commands env → Keeps nowrite (generate_summary env).
Proof.
  intros Hq. pose proof (keeps_subprocess_run env). unfold generate_summary. keeps.
Qed.

Lemma total_generate_summary env : Total (generate_summary env).
Proof. apply total_try_any. intros. apply total_ret. Qed.


Lemma simple_archive_unfold env session_name :
  simple_archive env session_name =
    (mkdir ["archive"] true;;
     date ← now env "%Y-%m-%d";
     let dest := archive_dest date session_name in
     ex ← path_exists dest;
     if ex : bool then mret false
     else
       mkdir dest false;;
       docs ← glob_md ACTIVE_DIR;
       for_each docs (copy_body dest);;
       docs ← glob_md ACTIVE_DIR;
       for_each docs unlink_body;;
       print (MsgArchived session_name);;
       mret true).
Proof. reflexivity. Qed.

Lemma mkdir_archive_side f0 rest p evs :
  (∃ q, p = "archive" :: q) → evs = [] ∨ evs = [EvMkdir p] →
  Forall (archive_side f0 rest) evs.
Proof.
  intros [q ->] [-> | ->]; [constructor|].
  constructor; [|constructor]. right. eauto.
Qed.

Lemma replay_mkdir_other f p q evs :
  evs = [] ∨ evs = [EvMkdir p] → p ≠ q → replay f evs !! q = f !! q.
Proof. intros [-> | ->] Hne; [done|]. cbn. by rewrite lookup_insert_ne. Qed.


Lemma simple_archive_never_loses env session_name w :
  well_formed (fs w) →
  ∃ date evs,
    trace (simple_archive env session_name w).2 = trace w ++ evs ∧
    fs (simple_archive env session_name w).2 = replay (fs w) evs ∧
    never_lost (fs w) (archive_dest date session_name) evs.
Proof.
  intros Hwf.
  destruct (simple_archive env session_name w) as [r w'] eqn:E. cbn [snd].
  rewrite simple_archive_unfold in E.
  (* archive_dir.mkdir(exist_ok=True) *)
  apply bind_inv in E as [([] & wa & Ha & E) | (e & Ha & ->)];
    apply mkdir_step in Ha as (evs0 & Htr0 & Hfs0 & Hevs0).
  2: { destruct (archive_dest_cons "" session_name) as [rest Hrest].
       exists "", evs0. rewrite Hrest. repeat split; try done.
       apply never_lost_archive_side. apply (mkdir_archive_side _ _ ["archive"]); eauto. }
  (* the date and the destination *)
  apply bind_inv in E as [(date & ? & [= <- <-] & E) | (e & [=] & _)].
  cbv zeta in E.
  destruct (archive_dest_cons (strftime env (trace wa) "%Y-%m-%d") session_name)
    as [rest Hrest].
  exists (strftime env (trace wa) "%Y-%m-%d").
  rewrite Hrest in *.
  assert (HA0 : Forall (archive_side (fs w) rest) evs0).
  { apply (mkdir_archive_side _ _ ["archive"]); eauto. }
  apply bind_inv in E as [(ex & ? & [= <- <-] & E) | (e & [=] & _)].
  change (node_at (fs wa) ("archive" :: rest)) with (fs wa !! ("archive" :: rest)) in E.
  destruct (fs wa !! ("archive" :: rest)) as [nd|] eqn:Hdest.
  { injection E as <- <-. exists evs0. repeat split; try done.
    by apply never_lost_archive_side. }
  assert (Hdest0 : node_at (fs w) ("archive" :: rest) = None).
  { change (fs w !! ("archive" :: rest) = None). rewrite Hfs0 in Hdest.
    destruct Hevs0 as [-> | ->]; [done|]. cbn in Hdest.
    destruct (decide (["archive"] = "archive" :: rest)) as [Heq|Hne].
    - by rewrite <- Heq, lookup_insert_eq in Hdest.
    - by rewrite lookup_insert_ne in Hdest. }
  (* dest.mkdir() *)
  apply bind_inv in E as [([] & wb & Hb & E) | (e & Hb & ->)];
    apply mkdir_step in Hb as (evs1 & Htr1 & Hfs1 & Hevs1);
    assert (HA1 : Forall (archive_side (fs w) rest) (evs0 ++ evs1))
      by (apply Forall_app; split; [done|];
          apply (mkdir_archive_side _ _ ("archive" :: rest)); eauto).
  2: { exists (evs0 ++ evs1). rewrite Htr1, Htr0, Hfs1, Hfs0, <- replay_app, <- app_assoc.
       repeat split; try done. by apply never_lost_archive_side. }
  assert (Hfsb : fs wb = replay (fs w) (evs0 ++ evs1)) by by rewrite Hfs1, Hfs0, replay_app.
  assert (Htrb : trace wb = trace w ++ (evs0 ++ evs1)) by by rewrite Htr1, Htr0, app_assoc.
  clear Hfs1 Htr1 Hfs0 Htr0 Hdest.
  (* the copy loop *)
  destruct (glob_md_spec ACTIVE_DIR wb) as (docs1 & Hg1 & Hdocs1).
  apply bind_inv in E as [(? & ? & Hg & E) | (e & Hg & _)]; [|congruence].
  rewrite Hg1 in Hg. injection Hg as <- <-.
  assert (Hact : ∀ m, fs wb !! (ACTIVE_DIR ++ [m]) = fs w !! (ACTIVE_DIR ++ [m])).
  { intros m. rewrite Hfsb. by apply (replay_archive_side_active (fs w) rest). }
  assert (Hsub : ∀ m, fs wb !! (("archive" :: rest) ++ [m]) ≠ Some Dir).
  { intros m. rewrite Hfsb.
    assert (fs w !! (("archive" :: rest) ++ [m]) = None) as Hnone
      by by apply well_formed_child.
    assert (Hne1 : ["archive"] ≠ ("archive" :: rest) ++ [m]).
    { cbn. intros [= H]. by destruct rest. }
    assert (Hne2 : "archive" :: rest ≠ ("archive" :: rest) ++ [m]).
    { intros H. apply (f_equal List.length) in H. rewrite length_app in H.
      simpl in H. lia. }
    rewrite replay_app, (replay_mkdir_other _ ("archive" :: rest)) by done.
    rewrite (replay_mkdir_other _ ["archive"]) by done. by rewrite Hnone. }
  assert (Hl1 : Forall (λ p, ∃ n, p = ACTIVE_DIR ++ [n]) docs1).
  { apply Forall_forall. intros p (name & -> & _)%Hdocs1. eauto. }
  destruct (copy_loop (fs w) rest docs1 wb Hact Hsub Hl1)
    as (evs2 & Htr2 & Hfs2 & Hevs2 & Hcopied).
  assert (HA2 : Forall (archive_side (fs w) rest) ((evs0 ++ evs1) ++ evs2)).
  { apply Forall_app. split; [done|]. eapply Forall_impl; [done|]. by left. }
  destruct (for_each docs1 (copy_body ("archive" :: rest)) wb) as [rc wc] eqn:Hc.
  cbn [fst snd] in Htr2, Hfs2, Hcopied.
  assert (Hfsc : fs wc = replay (fs w) ((evs0 ++ evs1) ++ evs2))
    by by rewrite Hfs2, Hfsb, !replay_app.
  assert (Htrc : trace wc = trace w ++ ((evs0 ++ evs1) ++ evs2)).
  { by rewrite Htr2, Htrb, !app_assoc. }
  apply bind_inv in E as [([] & ? & Hc' & E) | (e & Hc' & ->)];
    rewrite Hc in Hc'; injection Hc' as -> <-.
  2: { exists ((evs0 ++ evs1) ++ evs2). repeat split; try done.
       by apply never_lost_archive_side. }
  specialize (Hcopied eq_refl).
  (* the delete loop *)
  destruct (glob_md_spec ACTIVE_DIR wc) as (docs2 & Hg2 & Hdocs2).
  apply bind_inv in E as [(? & ? & Hg & E) | (e & Hg & _)]; [|congruence].
  rewrite Hg2 in Hg. injection Hg as <- <-.
  destruct (unlink_loop docs2 wc) as (evs3 & Htr3 & Hfs3 & Hevs3).
  assert (HB : Forall (unlink_ev (fs w) rest (replay (fs w) ((evs0 ++ evs1) ++ evs2))) evs3).
  { eapply Forall_impl; [done|]. intros e (p & -> & Hp & Htpl). left.
    apply Hdocs2 in Hp as (n & -> & Hmd & Hsome).
    assert (Hsame : fs wc !! (ACTIVE_DIR ++ [n]) = fs w !! (ACTIVE_DIR ++ [n])).
    { rewrite Hfsc. by apply (replay_archive_side_active (fs w) rest). }
    assert (Hin1 : ACTIVE_DIR ++ [n] ∈ docs1).
    { apply Hdocs1. exists n. repeat split; try done. by rewrite Hact, <- Hsame. }
    apply (proj1 (Forall_forall _ _) Hcopied) in Hin1 as (s & Hs & Hw); [|done].
    exists n, s. repeat split; try done.
    rewrite <- Hfsc, Hfs2. by apply (replay_copy_written (fs w) rest). }
  destruct (for_each docs2 unlink_body wc) as [rd wd] eqn:Hd.
  cbn [snd] in Htr3, Hfs3.
  assert (Hfsd : fs wd = replay (fs w) (((evs0 ++ evs1) ++ evs2) ++ evs3))
    by by rewrite Hfs3, Hfsc, !replay_app.
  assert (Htrd : trace wd = trace w ++ (((evs0 ++ evs1) ++ evs2) ++ evs3))
    by by rewrite Htr3, Htrc, !app_assoc.
  apply bind_inv in E as [([] & ? & Hd' & E) | (e & Hd' & ->)];
    rewrite Hd in Hd'; injection Hd' as -> <-.
  2: { exists (((evs0 ++ evs1) ++ evs2) ++ evs3). repeat split; try done.
       by apply never_lost_two_phases. }
  apply bind_inv in E as [([] & ? & [= <-] & E) | (e & [=] & _)].
  injection E as <- <-. cbn [fs trace].
  exists (((evs0 ++ evs1) ++ evs2) ++ (evs3 ++ [EvPrint (MsgArchived session_name)])).
  split; [by rewrite Htrd, <- !app_assoc|].
  split.
  - by rewrite Hfsd, app_assoc, replay_snoc.
  - apply never_lost_two_phases; [done|]. apply Forall_app. split; [done|].
    constructor; [|constructor]. right. eauto.
Qed.

Lemma replay_nowrite f evs : Forall nowrite evs → replay f evs = f.
Proof.
  intros Hevs. induction evs as [|e evs IH] using rev_ind; [done|].
  apply Forall_snoc_inv in Hevs as [Hevs He].
  rewrite replay_snoc, IH by done. by destruct e.
Qed.

Lemma never_lost_nowrite f0 dest evs :
  Forall nowrite evs → never_lost f0 dest evs.
Proof.
  intros Hevs k n nd Hnd. left. rewrite replay_nowrite; [done|]. by apply Forall_take.
Qed.

Lemma never_lost_after_nowrite f0 dest evsP evs :
  Forall nowrite evsP → never_lost f0 dest evs → never_lost f0 dest (evsP ++ evs).
Proof.
  intros HP Hevs k n nd Hnd. rewrite take_app, replay_app.
  rewrite (replay_nowrite f0 (take k evsP)) by by apply Forall_take.
  by apply Hevs.
Qed.


(** C2: [archive_session] never deletes a document that it has not
    copied.  On a well-formed file system, and with external commands
    that change no file, the log of the run accounts for every change,
    and in the state after any number [k] of these changes (so also when
    the run is cut short between the copy loop and the delete loop)
    every entry of the active directory is either still in place or has
    a copy with the same text in the dated archive directory. *)
Theorem archive_session_never_loses env w :
  quiet_commands env →
  well_formed (fs w) →
  ∃ session_name date evs,
    trace (archive_session env w).2 = trace w ++ evs ∧
    fs (archive_session env w).2 = replay (fs w) evs ∧
    never_lost (fs w) (archive_dest date session_name) evs.
Proof.
  intros Hq Hwf.
  destruct (archive_session env w) as [r w'] eqn:E. cbn [snd].
  unfold archive_session in E.
  pose proof (has_active_session_world w) as Hw0.
  apply bind_inv in E as [(active & w0 & Ha & E) | (e & Ha & ->)];
    rewrite Ha in Hw0; cbn [snd] in Hw0; subst.
  2: { exists None, "", []. rewrite app_nil_r. repeat split; try done.
       by apply never_lost_nowrite. }
  destruct active; cbn [negb] in E.
  2: { injection E as <- <-. exists None, "", []. rewrite app_nil_r.
       repeat split; try done. by apply never_lost_nowrite. }
  pose proof (get_session_name_world w) as Hw0.
  apply bind_inv in E as [(session_name & w0 & Hn & E) | (e & Hn & ->)];
    rewrite Hn in Hw0; cbn [snd] in Hw0; subst.
  2: { exists None, "", []. rewrite app_nil_r. repeat split; try done.
       by apply never_lost_nowrite. }
  exists session_name.
  pose proof (keeps_generate_summary env Hq w) as (Hfs1 & evs1 & Htr1 & Hevs1).
  apply bind_inv in E as [([] & w1 & Hs & E) | (e & Hs & ->)];
    rewrite Hs in Hfs1, Htr1; cbn [snd] in Hfs1, Htr1.
  2: { exists "", evs1. rewrite replay_nowrite by done. repeat split; try done.
       by apply never_lost_nowrite. }
  apply bind_inv in E as [(ex & ? & [= <- <-] & E) | (e & [=] & _)].
  destruct (node_at (fs w1) (path_div SCRIPT_DIR "archive-task.sh")).
  2: { injection E as <- <-. exists "", evs1. rewrite replay_nowrite by done.
       repeat split; try done. by apply never_lost_nowrite. }
  pose proof (keeps_subprocess_run env
    ["bash"; path_str (path_div SCRIPT_DIR "archive-task.sh")] Hq w1)
    as (Hfs2 & evs2 & Htr2 & Hevs2).
  assert (HP : Forall nowrite (evs1 ++ evs2)) by by apply Forall_app.
  apply bind_inv in E as [([rc out] & w2 & Hr & E) | (e & Hr & ->)];
    rewrite Hr in Hfs2, Htr2; cbn [snd] in Hfs2, Htr2.
  2: { exists "", (evs1 ++ evs2). rewrite replay_nowrite by done.
       rewrite Htr2, Htr1, Hfs2, Hfs1, app_assoc. repeat split; try done.
       by apply never_lost_nowrite. }
  destruct (Z.eqb rc 0).
  { apply bind_inv in E as [([] & ? & [= <-] & E) | (e & [=] & _)].
    injection E as <- <-. cbn [fs trace].
    exists "", ((evs1 ++ evs2) ++ [EvPrint (MsgArchived session_name)]).
    assert (Forall nowrite ((evs1 ++ evs2) ++ [EvPrint (MsgArchived session_name)]))
      by (apply Forall_app; split; [done|]; by repeat constructor).
    rewrite replay_nowrite by done.
    rewrite Htr2, Htr1, Hfs2, Hfs1, !app_assoc. repeat split; try done.
    by apply never_lost_nowrite. }
  assert (Hfsw2 : fs w2 = fs w) by congruence.
  assert (Hwf2 : well_formed (fs w2)) by by rewrite Hfsw2.
  destruct (simple_archive_never_loses env session_name w2 Hwf2)
    as (date & evs & Htr & Hfs & Hsafe).
  rewrite E in Htr, Hfs. cbn [snd] in Htr, Hfs. rewrite Hfsw2 in Hfs, Hsafe.
  exists date, ((evs1 ++ evs2) ++ evs).
  split; [by rewrite Htr, Htr2, Htr1, !app_assoc|].
  split; [by rewrite replay_app, (replay_nowrite _ (evs1 ++ evs2))|].
  by apply never_lost_after_nowrite.
Qed.


Lemma archive_session_never_loses_witness :
  ∃ session_name date evs,
    trace (archive_session live_env demo_world).2 = trace demo_world ++ evs ∧
    fs (archive_session live_env demo_world).2 = replay (fs demo_world) evs ∧
    never_lost (fs demo_world) (archive_dest date session_name) evs.
Proof.
  apply archive_session_never_loses.
  - intros tr argv f. reflexivity.
  - unfold well_formed. apply (bool_decide_unpack _). vm_compute. reflexivity.
Defined.

(** C10: when a session is active, the archive script exists and fails,
    the external commands change no file, and today's archive directory
    for the session already exists, [archive_session] returns failure
    and leaves the whole file system, the active directory included, as
    it was: no document is copied, none is deleted. *)
Theorem archive_session_already_archived env w date session_name :
  quiet_commands env →
  has_active_session w = (Ok true, w) →
  get_session_name w = (Ok session_name, w) →
  is_Some (fs w !! path_div SCRIPT_DIR "archive-task.sh") →
  (∀ tr f, ∃ rc out f', run env tr archive_script_argv f = Some (rc, out, f') ∧ rc ≠ 0) →
  (∀ tr, strftime env tr "%Y-%m-%d" = date) →
  fs w !! path_div MEMORY_DIR "archive" = Some Dir →
  is_Some (fs w !! archive_dest date session_name) →
  ∃ w' evs,
    archive_session env w = (Ok false, w') ∧
    fs w' = fs w ∧
    trace w' = trace w ++ evs ∧ Forall nowrite evs.
Proof.
  intros Hq Hact Hname [nd Hscript] Hfail Hdate Hdir [dn Hdest].
  unfold archive_session.
  unfold mbind at 1. unfold M_bind at 1. rewrite Hact. cbv beta iota. unfold negb. cbv beta iota.
  unfold mbind at 1. unfold M_bind at 1. rewrite Hname. cbv beta iota.
  unfold mbind at 1. unfold M_bind at 1.
  pose proof (keeps_generate_summary env Hq w) as (Hfs & evs & Htr & Hevs).
  destruct (total_generate_summary env w) as ([] & w1 & Hsum).
  rewrite Hsum in Hfs, Htr. simpl in Hfs, Htr. rewrite Hsum.
  munfold. unfold subprocess_run.
  change (node_at (fs w1) (path_div SCRIPT_DIR "archive-task.sh"))
    with (fs w1 !! path_div SCRIPT_DIR "archive-task.sh").
  rewrite Hfs, Hscript. cbv beta iota. rewrite ?Hfs.
  destruct (Hfail (trace w1) (fs w)) as (rc & out & f' & Hrun & Hrc).
  pose proof (Hq (trace w1) archive_script_argv (fs w)) as Hq1.
  unfold archive_script_argv in *. rewrite Hrun in Hq1. subst f'.
  rewrite Hrun. simpl.
  destruct (Z.eqb_spec rc 0) as [|_]; [done|].
  unfold simple_archive, mkdir, now. munfold. simpl.
  change (node_at (fs w) (path_div MEMORY_DIR "archive"))
    with (fs w !! path_div MEMORY_DIR "archive").
  rewrite Hdir. simpl. rewrite Hdate.
  destruct (archive_dest_cons date session_name) as [rest Hrest].
  unfold archive_dest in Hrest, Hdest. rewrite Hrest in *.
  rewrite node_at_archive, Hdest. simpl.
  eexists _, _. split; [reflexivity|]. simpl. split; [done|].
  split; [by rewrite Htr, <- app_assoc|].
  apply Forall_app. split; [done|]. by repeat constructor.
Qed.


Lemma archive_session_already_archived_witness :
  ∃ w' evs,
    archive_session live_env archived_world = (Ok false, w') ∧
    fs w' = fs archived_world ∧
    trace w' = trace archived_world ++ evs ∧ Forall nowrite evs.
Proof.
  apply (archive_session_already_archived live_env archived_world "2024-05-01"
           (Some "old-name")).
  - intros tr argv f. reflexivity.
  - vm_compute. reflexivity.
  - vm_compute. reflexivity.
  - eexists. vm_compute. reflexivity.
  - intros tr f. eexists _, _, _. split; [reflexivity | discriminate].
  - intros tr. reflexivity.
  - vm_compute. reflexivity.
  - eexists. vm_compute. reflexivity.
Defined.

(** * Further properties *)

(** ** What a computation emits, and that its log is complete *)

Section Emits.
Context (P : event → Prop).

Lemma emits_ret {A} (a : A) : Emits P (mret a).
Proof. intros w. exists []. by rewrite app_nil_r. Qed.

Lemma emits_raise {A} e : Emits P (raise e : M A).
Proof. intros w. exists []. by rewrite app_nil_r. Qed.

Lemma emits_bind {A B} (m : M A) (k : A → M B) :
  Emits P m → (∀ a, Emits P (k a)) → Emits P (m ≫= k).
Proof.
  intros Hm Hk w. unfold mbind, M_bind.
  destruct (Hm w) as (evs & Htr & Hevs).
  destruct (m w) as [[a|e] w1]; cbn [snd] in *; [|by exists evs].
  destruct (Hk a w1) as (evs' & Htr' & Hevs').
  exists (evs ++ evs'). rewrite Htr', Htr, app_assoc. split; [done|]. by apply Forall_app.
Qed.

Lemma emits_bind_ok {A B} (m : M A) (k : A → M B) :
  Emits P m → (∀ a w w', m w = (Ok a, w') → Emits P (k a)) → Emits P (m ≫= k).
Proof.
  intros Hm Hk w. unfold mbind, M_bind.
  destruct (Hm w) as (evs & Htr & Hevs).
  destruct (m w) as [[a|e] w1] eqn:E; cbn [snd] in *; [|by exists evs].
  destruct (Hk a w w1 E w1) as (evs' & Htr' & Hevs').
  exists (evs ++ evs'). rewrite Htr', Htr, app_assoc. split; [done|]. by apply Forall_app.
Qed.

Lemma emits_try {A} (m : M A) c (h : exn → M A) :
  Emits P m → (∀ e, Emits P (h e)) → Emits P (try_except m c h).
Proof.
  intros Hm Hh w. unfold try_except.
  destruct (Hm w) as (evs & Htr & Hevs).
  destruct (m w) as [[a|e] w1]; cbn [snd] in *; [by exists evs|].
  destruct (c e); [|by exists evs].
  destruct (Hh e w1) as (evs' & Htr' & Hevs').
  exists (evs ++ evs'). rewrite Htr', Htr, app_assoc. split; [done|]. by apply Forall_app.
Qed.

Lemma emits_for_each {A} (l : list A) (body : A → M unit) :
  (∀ x, x ∈ l → Emits P (body x)) → Emits P (for_each l body).
Proof.
  induction l as [|x l IH]; intros Hb; cbn [for_each].
  - apply emits_ret.
  - apply emits_bind; [apply Hb; by left |].
    intros _. apply IH. intros y Hy. apply Hb. by right.
Qed.

Lemma emits_silent {A} (m : M A) : (∀ w, (m w).2 = w) → Emits P m.
Proof. intros Hm w. exists []. by rewrite Hm, app_nil_r. Qed.

Lemma emits_one {A} (m : M A) e :
  P e →
  (∀ w, (m w).2 = w ∨ trace (m w).2 = trace w ++ [e]) →
  Emits P m.
Proof.
  intros He Hm w. destruct (Hm w) as [Hw | Htr].
  - exists []. by rewrite Hw, app_nil_r.
  - exists [e]. split; [done|]. by constructor.
Qed.

Lemma emits_log e : P e → Emits P (log e).
Proof. intros He. apply (emits_one _ e He). intros w. by right. Qed.

Lemma emits_path_exists p : Emits P (path_exists p).
Proof. by apply emits_silent. Qed.

Lemma emits_read_text p : Emits P (read_text p).
Proof.
  apply emits_silent. intros w. unfold read_text.
  by destruct (node_at (fs w) p) as [[]|].
Qed.

Lemma emits_glob_md dir : Emits P (glob_md dir).
Proof. by apply emits_silent. Qed.

Lemma emits_now env fmt : Emits P (now env fmt).
Proof. by apply emits_silent. Qed.

Lemma emits_write_text p s : P (EvWrite p s) → Emits P (write_text p s).
Proof.
  intros He. apply (emits_one _ _ He). intros w. unfold write_text, store.
  destruct (node_at (fs w) p) as [[]|]; [..|destruct (is_dir_at _ _)]; auto.
Qed.

Lemma emits_unlink p : P (EvUnlink p) → Emits P (unlink p).
Proof.
  intros He. apply (emits_one _ _ He). intros w. unfold unlink.
  destruct (node_at (fs w) p) as [[]|]; auto.
Qed.

Lemma emits_mkdir p b : P (EvMkdir p) → Emits P (mkdir p b).
Proof.
  intros He. apply (emits_one _ _ He). intros w. unfold mkdir.
  destruct (node_at (fs w) p) as [[]|]; [..|destruct (is_dir_at _ _)];
    try destruct b; auto.
Qed.

Lemma emits_chmod p : P (EvChmod p) → Emits P (chmod p).
Proof.
  intros He. apply (emits_one _ _ He). intros w. unfold chmod, log.
  destruct (node_at (fs w) p); auto.
Qed.

Lemma emits_os_kill env pid sig : P (EvKill pid sig) → Emits P (os_kill env pid sig).
Proof.
  intros He. apply (emits_one _ _ He). intros w. unfold os_kill.
  destruct (fits_pid_t pid); [|by left]. right. by destruct (kill_ok _ _ _ _).
Qed.

Lemma emits_check_port env port : P (EvConnect port) → Emits P (check_port env port).
Proof. intros He. apply (emits_one _ _ He). intros w. by right. Qed.

Lemma emits_subprocess_run env argv : P (EvRun argv) → Emits P (subprocess_run env argv).
Proof.
  intros He. apply (emits_one _ _ He). intros w. right. unfold subprocess_run.
  by destruct (run env _ _ _) as [[[]]|].
Qed.

Lemma emits_subprocess_Popen env argv :
  P (EvPopen argv) → Emits P (subprocess_Popen env argv).
Proof.
  intros He. apply (emits_one _ _ He). intros w. right. unfold subprocess_Popen.
  by destruct (popen env _ _).
Qed.
End Emits.

Lemma emits_mono {A} (P Q : event → Prop) (m : M A) :
  (∀ e, P e → Q e) → Emits P m → Emits Q m.
Proof.
  intros HPQ Hm w. destruct (Hm w) as (evs & Htr & Hevs).
  exists evs. split; [done|]. eapply Forall_impl; eauto.
Qed.

Section Logged.

Lemma logged_ret {A} (a : A) : Logged (mret a).
Proof. intros w. exists []. by rewrite app_nil_r. Qed.

Lemma logged_raise {A} e : Logged (raise e : M A).
Proof. intros w. exists []. by rewrite app_nil_r. Qed.

Lemma logged_bind {A B} (m : M A) (k : A → M B) :
  Logged m → (∀ a, Logged (k a)) → Logged (m ≫= k).
Proof.
  intros Hm Hk w. unfold mbind, M_bind.
  destruct (Hm w) as (evs & Htr & Hfs).
  destruct (m w) as [[a|e] w1]; cbn [snd] in *; [|by exists evs].
  destruct (Hk a w1) as (evs' & Htr' & Hfs').
  exists (evs ++ evs'). rewrite Htr', Htr, Hfs', Hfs, app_assoc, replay_app. done.
Qed.

Lemma logged_try {A} (m : M A) c (h : exn → M A) :
  Logged m → (∀ e, Logged (h e)) → Logged (try_except m c h).
Proof.
  intros Hm Hh w. unfold try_except.
  destruct (Hm w) as (evs & Htr & Hfs).
  destruct (m w) as [[a|e] w1]; cbn [snd] in *; [by exists evs|].
  destruct (c e); [|by exists evs].
  destruct (Hh e w1) as (evs' & Htr' & Hfs').
  exists (evs ++ evs'). rewrite Htr', Htr, Hfs', Hfs, app_assoc, replay_app. done.
Qed.

Lemma logged_for_each {A} (l : list A) (body : A → M unit) :
  (∀ x, Logged (body x)) → Logged (for_each l body).
Proof.
  intros Hb. induction l as [|x l IH]; cbn [for_each].
  - apply logged_ret.
  - apply logged_bind; [apply Hb | intros _; apply IH].
Qed.

Lemma logged_keeps {A} (P : event → Prop) (m : M A) :
  (∀ e, P e → nowrite e) → Keeps P m → Logged m.
Proof.
  intros HP Hm w. destruct (Hm w) as (Hfs & evs & Htr & Hevs).
  exists evs. split; [done|]. rewrite Hfs. symmetry. apply replay_nowrite.
  eapply Forall_impl; eauto.
Qed.

Lemma logged_silent {A} (m : M A) : (∀ w, (m w).2 = w) → Logged m.
Proof. intros Hm w. exists []. by rewrite Hm, app_nil_r. Qed.

Lemma logged_log e : nowrite e → Logged (log e).
Proof. intros He w. exists [e]. split; [done|]. by destruct e. Qed.

Lemma logged_path_exists p : Logged (path_exists p).
Proof. by apply logged_silent. Qed.

Lemma logged_read_text p : Logged (read_text p).
Proof.
  apply logged_silent. intros w. unfold read_text.
  by destruct (node_at (fs w) p) as [[]|].
Qed.

Lemma logged_glob_md dir : Logged (glob_md dir).
Proof. by apply logged_silent. Qed.

Lemma logged_now env fmt : Logged (now env fmt).
Proof. by apply logged_silent. Qed.

Lemma logged_write_text p s : Logged (write_text p s).
Proof.
  intros w. unfold write_text, store.
  destruct (node_at (fs w) p) as [[]|]; [..|destruct (is_dir_at _ _)];
    first [ by exists [EvWrite p s] | by exists []; rewrite app_nil_r ].
Qed.

Lemma logged_unlink p : Logged (unlink p).
Proof.
  intros w. unfold unlink.
  destruct (node_at (fs w) p) as [[]|];
    first [ by exists [EvUnlink p] | by exists []; rewrite app_nil_r ].
Qed.

Lemma logged_mkdir p b : Logged (mkdir p b).
Proof.
  intros w. unfold mkdir.
  destruct (node_at (fs w) p) as [[]|]; [..|destruct (is_dir_at _ _)];
    try destruct b;
    first [ by exists [EvMkdir p] | by exists []; rewrite app_nil_r ].
Qed.

Lemma logged_chmod p : Logged (chmod p).
Proof.
  intros w. unfold chmod, log.
  destruct (node_at (fs w) p);
    first [ by exists [EvChmod p] | by exists []; rewrite app_nil_r ].
Qed.

Lemma logged_os_kill env pid sig : Logged (os_kill env pid sig).
Proof.
  intros w. unfold os_kill. destruct (fits_pid_t pid).
  - exists [EvKill pid sig]. by destruct (kill_ok _ _ _ _).
  - exists []. by rewrite app_nil_r.
Qed.

Lemma logged_check_port env port : Logged (check_port env port).
Proof. intros w. by exists [EvConnect port]. Qed.

Lemma logged_subprocess_Popen env argv : Logged (subprocess_Popen env argv).
Proof. intros w. exists [EvPopen argv]. unfold subprocess_Popen. by destruct (popen _ _ _). Qed.

Lemma logged_subprocess_run env argv :
  quiet_commands env → Logged (subprocess_run env argv).
Proof.
  intros Hq w. exists [EvRun argv]. unfold subprocess_run.
  specialize (Hq (trace w) argv (fs w)).
  destruct (run env _ _ _) as [[[rc out] f]|]; [|done]. by subst f.
Qed.
End Logged.

(** Outside [S] nothing changes when every change is at a path in [S]. *)
Lemma replay_touches (S : path → Prop) f evs p :
  Forall (touches S) evs → ¬ S p → replay f evs !! p = f !! p.
Proof.
  intros Hevs Hp. induction evs as [|e evs IH] using rev_ind; [done|].
  apply Forall_snoc_inv in Hevs as [Hevs He].
  rewrite replay_snoc, <- IH by done.
  destruct e; cbn [apply_event touches] in *; try done.
  - rewrite lookup_insert_ne; [done|]. by intros ->.
  - rewrite lookup_delete_ne; [done|]. by intros ->.
  - rewrite lookup_insert_ne; [done|]. by intros ->.
Qed.

(** A run whose log is complete and whose changes all lie in [S] leaves
    every other path as it was. *)
Lemma confined {A} (S : path → Prop) (m : M A) w p :
  Logged m → Emits (touches S) m → ¬ S p → fs (m w).2 !! p = fs w !! p.
Proof.
  intros Hl He Hp.
  destruct (Hl w) as (evs & Htr & Hfs). destruct (He w) as (evs' & Htr' & Hevs).
  rewrite Htr in Htr'. apply app_inv_head in Htr' as ->.
  rewrite Hfs. by apply (replay_touches S).
Qed.

Create HintDb emits.
#[local] Hint Resolve emits_ret emits_raise emits_path_exists emits_read_text
  emits_glob_md emits_now : emits.
Create HintDb logged.
#[local] Hint Resolve logged_ret logged_raise logged_path_exists logged_read_text
  logged_glob_md logged_now logged_write_text logged_unlink logged_mkdir logged_chmod
  logged_os_kill logged_check_port logged_subprocess_Popen logged_subprocess_run : logged.
#[local] Hint Extern 1 (Logged (log _)) => apply logged_log; exact I : logged.
#[local] Hint Extern 1 (Logged (print _)) => apply logged_log; exact I : logged.
#[local] Hint Extern 1 (Logged (sleep _)) => apply logged_log; exact I : logged.

Ltac emits_leaf :=
  first
    [ apply emits_log | apply emits_write_text | apply emits_unlink | apply emits_mkdir
    | apply emits_chmod | apply emits_os_kill | apply emits_check_port
    | apply emits_subprocess_run | apply emits_subprocess_Popen ].

Ltac emits :=
  repeat first
    [ progress eauto with emits
    | apply emits_bind; [|intros ?]
    | apply emits_try; [|intros ?]
    | apply emits_for_each; intros ? ?
    | match goal with
      | |- Emits _ (if ?b then _ else _) => destruct b
      | |- Emits _ (match ?x with _ => _ end) => destruct x
      | |- Emits _ (let '(_, _) := ?x in _) => destruct x
      end
    | emits_leaf ].

Ltac logged :=
  repeat first
    [ progress eauto with logged
    | apply logged_bind; [|intros ?]
    | apply logged_try; [|intros ?]
    | apply logged_for_each; intros ?
    | match goal with
      | |- Logged (if ?b then _ else _) => destruct b
      | |- Logged (match ?x with _ => _ end) => destruct x
      | |- Logged (let '(_, _) := ?x in _) => destruct x
      end ].

(** ** Stopping a service, in every environment *)

Lemma emits_is_running P env pid :
  P (EvKill pid SIG0) → Emits P (is_running env pid).
Proof. intros HP. unfold is_running. emits; done. Qed.

Lemma emits_remove_pid P service :
  P (EvUnlink (get_pid_file service)) → Emits P (remove_pid service).
Proof. intros HP. unfold remove_pid. emits; done. Qed.

Lemma emits_poll_then_kill P env n pid :
  (∀ sig, P (EvKill pid sig)) → (∀ ms, P (EvSleep ms)) →
  Emits P (poll_then_kill env n pid).
Proof.
  intros Hk Hs. induction n as [|n IH]; cbn [poll_then_kill].
  - by apply emits_os_kill.
  - apply emits_bind; [by apply emits_is_running|]. intros [].
    + apply emits_bind; [by apply emits_log|]. intros _. apply IH.
    + apply emits_ret.
Qed.

Lemma logged_is_running env pid : Logged (is_running env pid).
Proof. unfold is_running. logged. Qed.

Lemma logged_pid_alive env pid : Logged (pid_alive env pid).
Proof. unfold pid_alive. logged. Qed.

Lemma logged_read_pid service : Logged (read_pid service).
Proof. apply logged_silent. intros w. by rewrite read_pid_total. Qed.

Lemma logged_remove_pid service : Logged (remove_pid service).
Proof. unfold remove_pid. logged. Qed.

Lemma logged_poll_then_kill env n pid : Logged (poll_then_kill env n pid).
Proof.
  induction n as [|n IH]; cbn [poll_then_kill]; [logged|].
  apply logged_bind; [apply logged_is_running|]. intros []; logged.
Qed.

#[local] Hint Resolve logged_is_running logged_pid_alive logged_read_pid
  logged_remove_pid logged_poll_then_kill : logged.

Lemma logged_stop_service env service config : Logged (stop_service env service config).
Proof. unfold stop_service. logged. Qed.

(** The part of [stop_service] that follows the reading of the record. *)
Lemma stop_service_after_read env service config w :
  stop_service env service config w =
    (let pid := (read_pid service w).1 in
     match pid with
     | Ok pid =>
         (alive ← pid_alive env pid;
          if negb alive then remove_pid service;; mret true
          else
            let pid := default 0 pid in
            try_except
              (os_kill env pid SIGTERM;;
               poll_then_kill env 10 pid;;
               remove_pid service;;
               print (MsgStopped (cfg_name config));;
               mret true)
              is_OSError
              (λ e, print (MsgError (cfg_name config) e);; remove_pid service;; mret false)) w
     | Raise e => (Raise e, w)
     end).
Proof. unfold stop_service at 1. unfold mbind at 1, M_bind at 1. by rewrite read_pid_total. Qed.

Lemma emits_stop_service_tail env service config pid :
  Emits (stop_event service pid)
    (alive ← pid_alive env pid;
     if negb alive then remove_pid service;; mret true
     else
       let pid := default 0 pid in
       try_except
         (os_kill env pid SIGTERM;;
          poll_then_kill env 10 pid;;
          remove_pid service;;
          print (MsgStopped (cfg_name config));;
          mret true)
         is_OSError
         (λ e, print (MsgError (cfg_name config) e);; remove_pid service;; mret false)).
Proof.
  assert (Hrm : Emits (stop_event service pid) (remove_pid service;; mret true)).
  { apply emits_bind; [by apply emits_remove_pid | intros _; apply emits_ret]. }
  apply emits_bind_ok.
  { destruct pid as [pid|]; cbn [pid_alive]; [|apply emits_ret].
    destruct (Z.eqb pid 0); [apply emits_ret | by apply emits_is_running]. }
  intros [] w w' Halive; cbn [negb]; [|exact Hrm].
  destruct pid as [pid|]; [|discriminate]. cbn [default].
  apply emits_try; [|intros e].
  - apply emits_bind; [by apply emits_os_kill|]. intros _.
    apply emits_bind; [by apply emits_poll_then_kill|]. intros _.
    apply emits_bind; [by apply emits_remove_pid|]. intros _.
    apply emits_bind; [by apply emits_log | intros _; apply emits_ret].
  - apply emits_bind; [by apply emits_log|]. intros _.
    apply emits_bind; [by apply emits_remove_pid | intros _; apply emits_ret].
Qed.

(** X1: [stop_service] acts on nothing but the recorded process and its
    own pid record.  In every environment and from every state, all it
    emits are signals to the pid that [read_pid] finds on file, pauses,
    printed lines and the deletion of that service's pid file; every
    other path of the file system is as before, also when it raises. *)
Theorem stop_service_confined env service config w :
  ∃ pid evs,
    read_pid service w = (Ok pid, w) ∧
    trace (stop_service env service config w).2 = trace w ++ evs ∧
    Forall (stop_event service pid) evs ∧
    ∀ p, p ≠ get_pid_file service →
         fs (stop_service env service config w).2 !! p = fs w !! p.
Proof.
  pose proof (read_pid_total service w) as Hread.
  set (pid := match node_at (fs w) (get_pid_file service) with
              | Some (File s) => py_int (strip s)
              | _ => None
              end) in Hread.
  destruct (emits_stop_service_tail env service config pid w) as (evs & Htr & Hevs).
  assert (Htr' : trace (stop_service env service config w).2 = trace w ++ evs).
  { by rewrite stop_service_after_read, Hread. }
  exists pid, evs. do 3 (split; [done|]).
  intros p Hp.
  destruct (logged_stop_service env service config w) as (evs' & Htr2 & Hfs).
  rewrite Htr' in Htr2. apply app_inv_head in Htr2 as <-.
  rewrite Hfs. apply (replay_touches (λ q, q = get_pid_file service)); [|done].
  eapply Forall_impl; [exact Hevs|]. intros [] He'; cbn in *; done.
Qed.

Lemma pid_alive_cases env pid w :
  (∃ w1 tr, pid_alive env pid w = (Ok false, w1) ∧ fs w1 = fs w ∧
            trace w1 = trace w ++ tr ∧ Forall (λ e, ∃ p, e = EvKill p SIG0) tr) ∨
  (pid_alive env pid w = (Raise OverflowError, w) ∧
   ∃ n, pid = Some n ∧ n ≠ 0 ∧ fits_pid_t n = false) ∨
  (∃ n, pid = Some n ∧ n ≠ 0 ∧ fits_pid_t n = true ∧
        kill_ok env (trace w) n SIG0 = true ∧
        pid_alive env pid w =
          (Ok true, {| fs := fs w; trace := trace w ++ [EvKill n SIG0] |})).
Proof.
  destruct pid as [n|]; cbn [pid_alive].
  - destruct (Z.eqb_spec n 0) as [->|Hn].
    + left. exists w, []. by rewrite app_nil_r.
    + destruct (fits_pid_t n) eqn:Hfit.
      * rewrite is_running_eq by done.
        destruct (kill_ok env (trace w) n SIG0) eqn:Hk.
        -- right. right. by exists n.
        -- left. eexists _, [EvKill n SIG0]. do 3 (split; [done|]).
           constructor; [by exists n | constructor].
      * right. left. rewrite is_running_overflow by done. split; [done|]. by exists n.
  - left. exists w, []. by rewrite app_nil_r.
Qed.

Lemma emits_remove_pid_then {A} P service (a : A) :
  P (EvUnlink (get_pid_file service)) → Emits P (remove_pid service;; mret a).
Proof.
  intros HP. apply emits_bind; [by apply emits_remove_pid | intros _; apply emits_ret].
Qed.

(** X2: the forceful signal is a last resort in every environment.  If
    a run of [stop_service] sends SIGKILL to some process at all, then
    what it did up to that point is exactly: the liveness probe of that
    process, SIGTERM to it, ten further probes each followed by a pause
    of 100 ms; and no signal is sent after SIGKILL. *)
Theorem stop_service_sigkill_last_resort env service config w evs pid :
  trace (stop_service env service config w).2 = trace w ++ evs →
  EvKill pid SIGKILL ∈ evs →
  ∃ rest,
    evs = [EvKill pid SIG0; EvKill pid SIGTERM] ++ polls 10 pid
            ++ [EvKill pid SIGKILL] ++ rest ∧
    Forall no_kill rest.
Proof.
  intros Htr Hin.
  rewrite stop_service_after_read, read_pid_total in Htr. cbn [fst] in Htr.
  unfold mbind at 1, M_bind at 1 in Htr.
  match type of Htr with context [pid_alive env ?r w] =>
    destruct (pid_alive_cases env r w)
      as [(w1 & tr & E & Hfs & Htr1 & Hp) | [(E & _) | (n & Hr & Hn0 & Hfit & Hok & E)]];
    [| |rewrite Hr in *]; rewrite E in Htr end.
  - cbn [negb] in Htr.
    destruct (emits_remove_pid_then no_kill service true I w1) as (evs' & Htr' & Hnk).
    rewrite Htr', Htr1, <- app_assoc in Htr. apply app_inv_head in Htr as <-.
    apply elem_of_app in Hin as [Hin|Hin].
    + rewrite Forall_forall in Hp. destruct (Hp _ Hin) as (p & [=]).
    + rewrite Forall_forall in Hnk. destruct (Hnk _ Hin).
  - cbn [snd] in Htr. rewrite <- (app_nil_r (trace w)) in Htr at 1.
    apply app_inv_head in Htr as <-. by apply elem_of_nil in Hin.
  - cbn [negb default from_option id] in Htr.
    unfold try_except, mbind at 1, M_bind at 1 in Htr.
    rewrite os_kill_eq in Htr by done. cbn [trace fs] in Htr.
    assert (Hhandler : ∀ e, Emits no_kill
      (print (MsgError (cfg_name config) e);; remove_pid service;; mret false)).
    { intros e. apply emits_bind; [by apply emits_log|]. intros _.
      by apply emits_remove_pid_then. }
    assert (Htail : Emits no_kill
      (remove_pid service;; print (MsgStopped (cfg_name config));; mret true)).
    { apply emits_bind; [by apply emits_remove_pid|]. intros _.
      apply emits_bind; [by apply emits_log | intros _; apply emits_ret]. }
    destruct (kill_ok env _ n SIGTERM).
    + unfold mbind at 1, M_bind at 1 in Htr.
      match type of Htr with context [poll_then_kill env 10 n ?w2] =>
        destruct (poll_then_kill_escalates_last env 10 n w2) as (evsp & Htrp & Hlast);
        destruct (emits_poll_then_kill (kills_only n) env 10 n
                    (λ _, eq_refl) (λ _, I) w2) as (evsp' & Htrp' & Honly);
        rewrite Htrp in Htrp'; apply app_inv_head in Htrp' as <-;
        destruct (poll_then_kill env 10 n w2) as [[[]|e] w3] eqn:Ep
      end; cbn [snd trace] in Htrp.
      * destruct (emits_try no_kill _ is_OSError _ Htail Hhandler w3) as (evst & Htrt & Hnk).
        unfold try_except in Htrt.
        rewrite Htrt, Htrp, <- !app_assoc in Htr. apply app_inv_head in Htr as <-.
        rewrite !elem_of_app in Hin. destruct Hin as [Hin|[Hin|[Hin|Hin]]].
        -- apply list_elem_of_singleton in Hin. discriminate.
        -- apply list_elem_of_singleton in Hin. discriminate.
        -- rewrite Forall_forall in Honly. pose proof (Honly _ Hin) as Hpid.
           cbn in Hpid. subst n. rewrite (Hlast Hin). exists evst.
           split; [|done]. cbn [app]. by rewrite <- !app_assoc.
        -- rewrite Forall_forall in Hnk. destruct (Hnk _ Hin).
      * assert (∃ evsh, trace w ++ evs = trace w3 ++ evsh ∧ Forall no_kill evsh)
          as (evsh & Htrh & Hnk).
        { destruct (is_OSError e).
          - destruct (Hhandler e w3) as (evsh & Htrh & Hnk). exists evsh.
            by rewrite <- Htr, Htrh.
          - exists []. by rewrite <- Htr, app_nil_r. }
        rewrite Htrp, <- !app_assoc in Htrh. apply app_inv_head in Htrh as ->.
        rewrite !elem_of_app in Hin. destruct Hin as [Hin|[Hin|[Hin|Hin]]].
        -- apply list_elem_of_singleton in Hin. discriminate.
        -- apply list_elem_of_singleton in Hin. discriminate.
        -- rewrite Forall_forall in Honly. pose proof (Honly _ Hin) as Hpid.
           cbn in Hpid. subst n. rewrite (Hlast Hin). exists evsh.
           split; [|done]. cbn [app]. by rewrite <- !app_assoc.
        -- rewrite Forall_forall in Hnk. destruct (Hnk _ Hin).
    + cbn [is_OSError] in Htr.
      match type of Htr with context [(_ ≫= _) ?w2] =>
        destruct (Hhandler OSError w2) as (evsh & Htrh & Hnk) end.
      rewrite Htrh in Htr. cbn [trace] in Htr. rewrite <- !app_assoc in Htr.
      apply app_inv_head in Htr as <-.
      rewrite !elem_of_app in Hin. destruct Hin as [Hin|[Hin|Hin]].
      * apply list_elem_of_singleton in Hin. discriminate.
      * apply list_elem_of_singleton in Hin. discriminate.
      * rewrite Forall_forall in Hnk. destruct (Hnk _ Hin).
Qed.

Lemma stop_service_sigkill_last_resort_witness :
  ∃ rest,
    [EvKill 4242 SIG0; EvKill 4242 SIGTERM] ++ polls 10 4242
      ++ [EvKill 4242 SIGKILL;
          EvPrint (MsgError "Web UI" OSError); EvUnlink (get_pid_file "web_ui")]
    = [EvKill 4242 SIG0; EvKill 4242 SIGTERM] ++ polls 10 4242
        ++ [EvKill 4242 SIGKILL] ++ rest ∧
    Forall no_kill rest.
Proof.
  apply (stop_service_sigkill_last_resort stubborn_env "web_ui"
           (web_ui_config stubborn_env) demo_world).
  - vm_compute. reflexivity.
  - vm_compute. do 22 right. left.
Defined.

(** ** Starting a service *)

Lemma try_ok_inv {A} (body : M A) c h w a w' :
  try_except body c h w = (Ok a, w') →
  body w = (Ok a, w') ∨
  ∃ e w1, body w = (Raise e, w1) ∧ c e = true ∧ h e w1 = (Ok a, w').
Proof.
  unfold try_except. destruct (body w) as [[b|e] w1]; [by left|].
  destruct (c e) eqn:Hc; [|done]. right. by exists e, w1.
Qed.

Lemma read_pid_fs service w w' :
  fs w' = fs w → (read_pid service w').1 = (read_pid service w).1.
Proof. intros Hfs. by rewrite !read_pid_total, Hfs. Qed.

Lemma read_pid_world service w : read_pid service w = ((read_pid service w).1, w).
Proof. by rewrite read_pid_total. Qed.

Lemma is_running_true_inv env pid w w' :
  is_running env pid w = (Ok true, w') →
  fits_pid_t pid = true ∧ fs w' = fs w ∧ trace w' = trace w ++ [EvKill pid SIG0].
Proof.
  destruct (fits_pid_t pid) eqn:Hfit.
  - rewrite is_running_eq by done. by intros [= _ <-].
  - by rewrite is_running_overflow.
Qed.

(** X3: a service reported as started has its process on record, and
    starting it again is harmless.  Whenever [start_service] returns
    True, [read_pid] gives a pid afterwards; and if that pid is not 0
    and the process answers the probe, a second [start_service] only
    probes it and prints that it is already running: no process is
    spawned, no file written, no port freed. *)
Theorem start_service_started_is_recorded env service config w w' :
  start_service env service config w = (Ok true, w') →
  ∃ pid,
    read_pid service w' = (Ok (Some pid), w') ∧
    (pid ≠ 0 → kill_ok env (trace w') pid SIG0 = true →
     start_service env service config w' =
       (Ok true,
        {| fs := fs w';
           trace := trace w' ++ [EvKill pid SIG0;
                                 EvPrint (MsgAlreadyRunning (cfg_name config) pid)] |})).
Proof.
  intros Hstart.
  assert (Hrec : ∃ pid, (read_pid service w').1 = Ok (Some pid) ∧ fits_pid_t pid = true).
  { unfold start_service in Hstart.
    apply bind_ok_inv in Hstart as (pid0 & w0 & Hread & Hstart).
    rewrite read_pid_world in Hread. injection Hread as Hpid0 <-.
    apply bind_ok_inv in Hstart as (alive & w1 & Halive & Hstart).
    destruct (pid_alive_cases env pid0 w)
      as [(w1' & tr & E & Hfs & _) | [(E & _) | (n & -> & Hn0 & Hfit & Hok & E)]];
      rewrite E in Halive; try discriminate; injection Halive as <- <-.
    - apply bind_ok_inv in Hstart as (busy & w2 & _ & Hstart).
      apply bind_ok_inv in Hstart as ([] & w3 & _ & Hstart).
      apply try_ok_inv in Hstart as [Hbody | (e & w4 & _ & _ & Hh)].
      2: { apply bind_ok_inv in Hh as ([] & w5 & _ & Hh). discriminate. }
      apply bind_ok_inv in Hbody as ([] & w4 & _ & Hbody).
      apply bind_ok_inv in Hbody as (pid & w5 & _ & Hbody).
      apply bind_ok_inv in Hbody as ([] & w6 & Hwrite & Hbody).
      apply bind_ok_inv in Hbody as ([] & w7 & Hsleep & Hbody).
      apply bind_ok_inv in Hbody as (up & w8 & Hup & Hbody).
      destruct up.
      2: { apply bind_ok_inv in Hbody as ([] & w9 & _ & Hbody). discriminate. }
      apply bind_ok_inv in Hbody as ([] & w9 & Hprint & Hbody).
      injection Hbody as <-. injection Hprint as <-. injection Hsleep as <-.
      apply is_running_true_inv in Hup as (Hfit & Hfs8 & _).
      apply write_pid_read_pid in Hwrite.
      exists pid. split; [|done].
      rewrite (read_pid_fs service w6); [by rewrite Hwrite|].
      by rewrite Hfs8.
    - apply bind_ok_inv in Hstart as ([] & w2 & Hprint & Hstart).
      injection Hstart as <-. injection Hprint as <-.
      exists n. split; [|done]. by rewrite (read_pid_fs service w), Hpid0. }
  destruct Hrec as (pid & Hread & Hfit). exists pid.
  split; [by rewrite read_pid_world, Hread|].
  intros Hn0 Hok. unfold start_service.
  unfold mbind at 1, M_bind at 1. rewrite read_pid_world, Hread.
  unfold mbind at 1, M_bind at 1. cbn [pid_alive].
  destruct (Z.eqb_spec pid 0) as [|_]; [done|].
  rewrite is_running_eq, Hok by done.
  munfold. unfold print, log. cbn. by rewrite <- app_assoc.
Qed.

Lemma start_service_started_is_recorded_witness :
  let w' := (start_service live_env "file_watcher" file_watcher_config demo_world).2 in
  start_service live_env "file_watcher" file_watcher_config w' =
    (Ok true,
     {| fs := fs w';
        trace := trace w' ++ [EvKill 4242 SIG0;
                              EvPrint (MsgAlreadyRunning "File Watcher" 4242)] |}).
Proof.
  intros w'.
  destruct (start_service_started_is_recorded live_env "file_watcher"
              file_watcher_config demo_world w') as (pid & Hread & Hagain).
  - vm_compute. reflexivity.
  - vm_compute in Hread. injection Hread as <-.
    apply Hagain; [lia | reflexivity].
Defined.

Lemma total_log e : Total (log e).
Proof. intros w. by eexists _, _. Qed.

Lemma total_check_port env port : Total (check_port env port).
Proof. intros w. by eexists _, _. Qed.

Lemma total_free_port env name port : Total (free_port env name port).
Proof.
  unfold free_port. apply total_bind; [apply total_log|]. intros _.
  apply total_try_any. intros _. apply total_ret.
Qed.

Lemma emits_free_port P env name port :
  (∀ m, P (EvPrint m)) → (∀ argv, argv ≠ archive_script_argv → P (EvRun argv)) →
  (∀ ms, P (EvSleep ms)) → (∀ pid, P (EvKill pid SIGTERM)) →
  Emits P (free_port env name port).
Proof.
  intros Hp Hr Hs Hk. unfold free_port, print, sleep.
  emits; auto; apply Hr; discriminate.
Qed.

Lemma logged_free_port env name port :
  quiet_commands env → Logged (free_port env name port).
Proof. intros Hq. unfold free_port. logged. Qed.

Lemma emits_start_service P env service config :
  (∀ m, P (EvPrint m)) → (∀ argv, argv ≠ archive_script_argv → P (EvRun argv)) →
  (∀ ms, P (EvSleep ms)) →
  (∀ pid, P (EvKill pid SIG0)) → (∀ pid, P (EvKill pid SIGTERM)) →
  (∀ port, P (EvConnect port)) → (∀ argv, P (EvPopen argv)) →
  (∀ s, P (EvWrite (get_log_file service) s)) →
  (∀ s, P (EvWrite (get_pid_file service) s)) →
  Emits P (start_service env service config).
Proof.
  intros Hp Hr Hs Hk0 Hk Hc Ho Hl Hw.
  assert (∀ name port, Emits P (free_port env name port)) by (intros; by apply emits_free_port).
  assert (∀ pid, Emits P (is_running env pid)) by (intros; by apply emits_is_running).
  unfold start_service, pid_alive, write_pid, print, sleep. emits; auto.
Qed.

Lemma logged_start_service env service config :
  quiet_commands env → Logged (start_service env service config).
Proof.
  intros Hq. pose proof (logged_free_port env) as Hfree.
  unfold start_service, write_pid. logged.
Qed.

(** X5: [start_service] writes nothing but the service's own log file
    and pid file.  When the external commands it waits for change no
    file, every other path of the file system is after the call as it
    was before, whatever the outcome. *)
Theorem start_service_confined env service config w p :
  quiet_commands env →
  p ≠ get_pid_file service →
  p ≠ get_log_file service →
  fs (start_service env service config w).2 !! p = fs w !! p.
Proof.
  intros Hq Hpid Hlog.
  apply (confined (service_file service)).
  - by apply logged_start_service.
  - apply emits_start_service; intros; cbn; try done; [by right | by left].
  - by intros [|].
Qed.

Lemma start_service_confined_witness :
  fs (start_service live_env "file_watcher" file_watcher_config demo_world).2
    !! [".pids"; "web_ui.pid"]
  = fs demo_world !! [".pids"; "web_ui.pid"].
Proof.
  apply start_service_confined.
  - intros tr argv f. reflexivity.
  - vm_compute. discriminate.
  - vm_compute. discriminate.
Defined.

(** ** Directories *)

Lemma is_dir_at_mono f f' q : f ⊆ f' → is_dir_at f q = true → is_dir_at f' q = true.
Proof.
  unfold is_dir_at, node_at. intros Hsub.
  destruct (path_eqb q MEMORY_DIR || path_eqb q SCRIPT_DIR); [done|].
  destruct (f !! q) as [[]|] eqn:E; try done. intros _.
  by rewrite (lookup_weaken _ _ _ _ E Hsub).
Qed.

Lemma mkdir_present p w : is_dir_at (fs w) p = true → mkdir p true w = (Ok (), w).
Proof. unfold is_dir_at, mkdir. by destruct (node_at (fs w) p) as [[]|]. Qed.

Lemma mkdir_ok_inv p w w' :
  mkdir p true w = (Ok (), w') →
  is_dir_at (fs w') p = true ∧ fs w ⊆ fs w'.
Proof.
  unfold mkdir. destruct (node_at (fs w) p) as [[]|] eqn:E; try done.
  - intros [= <-]. unfold is_dir_at. by rewrite E.
  - destruct (is_dir_at (fs w) (parent p)); [|done]. intros [= <-]. cbn [fs].
    unfold is_dir_at, node_at in *.
    destruct (path_eqb p MEMORY_DIR || path_eqb p SCRIPT_DIR); [done|].
    rewrite lookup_insert_eq. split; [done|]. by apply insert_subseteq.
Qed.

(** X6: [ensure_dirs] creates what is missing and nothing more.  When it
    returns, the three working directories exist, every entry that was
    there before is still there with the same content, and a second
    call succeeds without changing anything (not even the log of
    events). *)
Theorem ensure_dirs_idempotent w w' :
  ensure_dirs w = (Ok (), w') →
  Forall (λ d, is_dir_at (fs w') d = true) [PID_DIR; LOG_DIR; ACTIVE_DIR] ∧
  fs w ⊆ fs w' ∧
  ensure_dirs w' = (Ok (), w').
Proof.
  unfold ensure_dirs. intros H.
  apply bind_ok_inv in H as ([] & w1 & H1 & H).
  apply bind_ok_inv in H as ([] & w2 & H2 & H3).
  apply mkdir_ok_inv in H1 as [D1 S1].
  apply mkdir_ok_inv in H2 as [D2 S2].
  apply mkdir_ok_inv in H3 as [D3 S3].
  assert (is_dir_at (fs w') PID_DIR = true) as D1'.
  { eapply is_dir_at_mono; [|exact D1]. by etrans. }
  assert (is_dir_at (fs w') LOG_DIR = true) as D2'.
  { eapply is_dir_at_mono; [|exact D2]. done. }
  split; [by repeat constructor|]. split; [by do 2 (etrans; [eassumption|])|].
  munfold. by rewrite !mkdir_present.
Qed.

Lemma ensure_dirs_idempotent_witness :
  let w' := {| fs := <[ ["active"] := Dir ]> (<[ [".logs"] := Dir ]> (<[ [".pids"] := Dir ]> ∅));
               trace := [EvMkdir [".pids"]; EvMkdir [".logs"]; EvMkdir ["active"]] |} in
  Forall (λ d, is_dir_at (fs w') d = true) [PID_DIR; LOG_DIR; ACTIVE_DIR] ∧
  (∅ : gmap path node) ⊆ fs w' ∧
  ensure_dirs w' = (Ok (), w').
Proof.
  intros w'. apply (ensure_dirs_idempotent {| fs := ∅; trace := [] |} w').
  reflexivity.
Defined.

(** ** Deactivation *)

Lemma remove_pid_ok_gone service w w' :
  remove_pid service w = (Ok (), w') → fs w' !! get_pid_file service = None.
Proof.
  rewrite remove_pid_eq.
  destruct (fs w !! get_pid_file service) as [[]|] eqn:E; try done;
    intros [= <-]; cbn [fs]; first [apply lookup_delete_eq | done].
Qed.

Lemma stop_service_ok_gone env service config w b w' :
  stop_service env service config w = (Ok b, w') →
  fs w' !! get_pid_file service = None.
Proof.
  rewrite stop_service_after_read, read_pid_total. cbn [fst]. intros H.
  apply bind_ok_inv in H as (alive & w1 & _ & H). destruct alive; cbn [negb] in H.
  - apply try_ok_inv in H as [H | (e & w2 & _ & _ & H)].
    + apply bind_ok_inv in H as ([] & w2 & _ & H).
      apply bind_ok_inv in H as ([] & w3 & _ & H).
      apply bind_ok_inv in H as ([] & w4 & Hrm & H).
      apply bind_ok_inv in H as ([] & w5 & Hpr & H).
      injection H as _ <-. injection Hpr as <-. cbn [fs].
      by apply remove_pid_ok_gone in Hrm.
    + apply bind_ok_inv in H as ([] & w3 & Hpr & H).
      apply bind_ok_inv in H as ([] & w4 & Hrm & H).
      injection H as _ <-. by apply remove_pid_ok_gone in Hrm.
  - apply bind_ok_inv in H as ([] & w2 & Hrm & H).
    injection H as _ <-. by apply remove_pid_ok_gone in Hrm.
Qed.

Lemma stop_service_other_paths env service config w p :
  p ≠ get_pid_file service →
  fs (stop_service env service config w).2 !! p = fs w !! p.
Proof.
  intros Hp. apply (confined (λ q, q = get_pid_file service)); [| |done].
  - apply logged_stop_service.
  - intros w0. rewrite stop_service_after_read, read_pid_total. cbn [fst].
    match goal with |- context [pid_alive env ?r] =>
      destruct (emits_stop_service_tail env service config r w0) as (evs & Htr & Hevs) end.
    exists evs. split; [done|].
    eapply Forall_impl; [exact Hevs|]. intros [] He'; cbn in *; done.
Qed.

(** X7: after [deactivate] has run to its end no pid record of a
    declared service is left: whatever happened to the session archive
    and to the processes, [read_pid] finds nothing for the web UI and
    for the file watcher. *)
Theorem deactivate_clears_records env w w' :
  deactivate env w = (Ok (), w') →
  ∀ sc, sc ∈ SERVICES env → read_pid sc.1 w' = (Ok None, w').
Proof.
  unfold deactivate. intros H.
  apply bind_ok_inv in H as (active & w1 & _ & H).
  apply bind_ok_inv in H as ([] & w2 & _ & H).
  apply bind_ok_inv in H as ([] & w3 & Hloop & Hpr).
  injection Hpr as <-.
  unfold SERVICES in Hloop. cbn [for_each fst snd] in Hloop.
  apply bind_ok_inv in Hloop as ([] & w4 & Hweb & Hloop).
  apply bind_ok_inv in Hweb as (b1 & w4' & Hweb & [= <-]).
  apply bind_ok_inv in Hloop as ([] & w5 & Hfw & [= <-]).
  apply bind_ok_inv in Hfw as (b2 & w5' & Hfw & [= <-]).
  pose proof (stop_service_other_paths env "file_watcher" file_watcher_config w4'
                (get_pid_file "web_ui")) as Hkeep.
  rewrite Hfw in Hkeep. cbn [snd] in Hkeep.
  apply stop_service_ok_gone in Hweb, Hfw.
  intros sc Hsc. rewrite read_pid_total, node_at_pid_file. cbn [fs].
  unfold SERVICES in Hsc.
  apply elem_of_cons in Hsc as [->|Hsc]; [|apply list_elem_of_singleton in Hsc as ->];
    cbn [fst].
  - by rewrite Hkeep, Hweb.
  - by rewrite Hfw.
Qed.

Lemma deactivate_clears_records_witness :
  read_pid "web_ui" (deactivate live_env demo_world).2
    = (Ok None, (deactivate live_env demo_world).2) ∧
  read_pid "file_watcher" (deactivate live_env demo_world).2
    = (Ok None, (deactivate live_env demo_world).2).
Proof.
  split.
  - apply (deactivate_clears_records live_env demo_world
             (deactivate live_env demo_world).2 ltac:(vm_compute; reflexivity)
             ("web_ui", web_ui_config live_env)).
    unfold SERVICES. apply elem_of_cons. by left.
  - apply (deactivate_clears_records live_env demo_world
             (deactivate live_env demo_world).2 ltac:(vm_compute; reflexivity)
             ("file_watcher", file_watcher_config)).
    unfold SERVICES. apply elem_of_cons. right. apply elem_of_cons. by left.
Defined.

(** ** What a completed archive leaves behind *)

Lemma unlink_loop_ok l : ∀ w w',
  for_each l unlink_body w = (Ok (), w') →
  ∀ q, fs w' !! q =
         if bool_decide (q ∈ l ∧ is_template q = false) then None else fs w !! q.
Proof.
  induction l as [|p l IH]; intros w w' H q.
  - injection H as <-. rewrite bool_decide_eq_false_2; [done|].
    intros [Hq _]. by apply elem_of_nil in Hq.
  - cbn [for_each] in H. apply bind_ok_inv in H as ([] & w1 & Hp & H).
    rewrite (IH _ _ H q).
    destruct (unlink_body_result p w) as [[Htpl E] | [[Htpl E] | (e & E)]];
      rewrite E in Hp; [| |discriminate]; injection Hp as <-.
    + case_bool_decide as H1; case_bool_decide as H2; try done.
      * destruct H2. destruct H1. split; [by right|done].
      * destruct H2 as [[->|Hq]%elem_of_cons Hqt]; [congruence|]. by destruct H1.
    + cbn [fs]. case_bool_decide as H1; case_bool_decide as H2; try done.
      * destruct H2. destruct H1. split; [by right|done].
      * destruct H2 as [[->|Hq]%elem_of_cons Hqt]; [apply lookup_delete_eq|].
        by destruct H1.
      * rewrite lookup_delete_ne; [done|]. intros ->. destruct H2. split; [by left|done].
Qed.

Lemma mkdir_new_inv p w w' :
  node_at (fs w) p = None → mkdir p false w = (Ok (), w') →
  w' = {| fs := <[p := Dir]> (fs w); trace := trace w ++ [EvMkdir p] |}.
Proof.
  unfold mkdir. intros ->. destruct (is_dir_at _ _); [|done]. by intros [= <-].
Qed.

Lemma is_template_active n : is_template (ACTIVE_DIR ++ [n]) = startswith n "TEMPLATE".
Proof. reflexivity. Qed.

Lemma simple_archive_moves env session_name w w' :
  well_formed (fs w) →
  simple_archive env session_name w = (Ok true, w') →
  ∃ date,
    fs w !! archive_dest date session_name = None ∧
    fs w' !! archive_dest date session_name = Some Dir ∧
    ∀ n, if archived_name n
         then fs w' !! (ACTIVE_DIR ++ [n]) = None ∧
              ∀ nd, fs w !! (ACTIVE_DIR ++ [n]) = Some nd →
                    ∃ text, nd = File text ∧
                            fs w' !! (archive_dest date session_name ++ [n])
                              = Some (File text)
         else fs w' !! (ACTIVE_DIR ++ [n]) = fs w !! (ACTIVE_DIR ++ [n]).
Proof.
  intros Hwf E. rewrite simple_archive_unfold in E.
  apply bind_ok_inv in E as ([] & wa & Ha & E).
  apply mkdir_step in Ha as (evs0 & Htr0 & Hfs0 & Hevs0).
  apply bind_ok_inv in E as (date & ? & [= <- <-] & E). cbv zeta in E.
  exists (strftime env (trace wa) "%Y-%m-%d").
  destruct (archive_dest_cons (strftime env (trace wa) "%Y-%m-%d") session_name)
    as [rest Hrest].
  rewrite Hrest in *.
  apply bind_ok_inv in E as (ex & ? & [= <- <-] & E).
  change (node_at (fs wa) ("archive" :: rest)) with (fs wa !! ("archive" :: rest)) in E.
  destruct (fs wa !! ("archive" :: rest)) as [nd|] eqn:Hdest; [discriminate|].
  assert (Hdest0 : fs w !! ("archive" :: rest) = None).
  { rewrite Hfs0 in Hdest. destruct Hevs0 as [-> | ->]; [done|]. cbn in Hdest.
    destruct (decide (["archive"] = "archive" :: rest)) as [Heq|Hne].
    - by rewrite <- Heq, lookup_insert_eq in Hdest.
    - by rewrite lookup_insert_ne in Hdest. }
  apply bind_ok_inv in E as ([] & wb & Hb & E).
  apply mkdir_new_inv in Hb; [|done].
  assert (Hactb : ∀ m, fs wb !! (ACTIVE_DIR ++ [m]) = fs w !! (ACTIVE_DIR ++ [m])).
  { intros m. rewrite Hb. cbn [fs].
    rewrite lookup_insert_ne by apply archive_ne_active.
    rewrite Hfs0. apply (replay_mkdir_other _ ["archive"]); [done|].
    apply archive_ne_active. }
  assert (Hsub : ∀ m, fs wb !! (("archive" :: rest) ++ [m]) ≠ Some Dir).
  { intros m. rewrite Hb. cbn [fs].
    assert (fs w !! (("archive" :: rest) ++ [m]) = None) as Hnone
      by by apply well_formed_child.
    rewrite lookup_insert_ne.
    2: { intros H. apply (f_equal List.length) in H. rewrite length_app in H.
         simpl in H. lia. }
    rewrite Hfs0, (replay_mkdir_other _ ["archive"]); [by rewrite Hnone|done|].
    cbn. intros [= H]. by destruct rest. }
  (* the copy loop *)
  destruct (glob_md_spec ACTIVE_DIR wb) as (docs1 & Hg1 & Hdocs1).
  apply bind_ok_inv in E as (? & ? & Hg & E).
  rewrite Hg1 in Hg. injection Hg as <- <-.
  assert (Hl1 : Forall (λ p, ∃ n, p = ACTIVE_DIR ++ [n]) docs1).
  { apply Forall_forall. intros p (name & -> & _)%Hdocs1. eauto. }
  destruct (copy_loop (fs w) rest docs1 wb Hactb Hsub Hl1)
    as (evs2 & Htr2 & Hfs2 & Hevs2 & Hcopied).
  apply bind_ok_inv in E as ([] & wc & Hc & E).
  rewrite Hc in Htr2, Hfs2, Hcopied. cbn [fst snd] in Htr2, Hfs2, Hcopied.
  specialize (Hcopied eq_refl).
  assert (Hactc : ∀ m, fs wc !! (ACTIVE_DIR ++ [m]) = fs w !! (ACTIVE_DIR ++ [m])).
  { intros m. rewrite Hfs2, <- Hactb. apply (replay_archive_side_active (fs w) rest).
    eapply Forall_impl; [done|]. by left. }
  (* the delete loop *)
  destruct (glob_md_spec ACTIVE_DIR wc) as (docs2 & Hg2 & Hdocs2).
  apply bind_ok_inv in E as (? & ? & Hg & E).
  rewrite Hg2 in Hg. injection Hg as <- <-.
  apply bind_ok_inv in E as ([] & wd & Hd & E).
  pose proof (unlink_loop_ok _ _ _ Hd) as Hfsd.
  apply bind_ok_inv in E as ([] & ? & [= <-] & E).
  injection E as <-. cbn [fs].
  assert (Hkeep : ∀ q, (∀ m, q ≠ ACTIVE_DIR ++ [m]) → fs wd !! q = fs wc !! q).
  { intros q Hq. rewrite Hfsd. rewrite bool_decide_eq_false_2; [done|].
    intros [(m & -> & _)%Hdocs2 _]. by apply (Hq m). }
  split; [done|]. split.
  { rewrite Hkeep by (intros m; apply archive_ne_active).
    rewrite Hfs2, (replay_copy_other (fs w) rest); [| done |].
    - rewrite Hb. cbn [fs]. apply lookup_insert_eq.
    - intros m H. apply (f_equal List.length) in H. rewrite length_app in H.
      simpl in H. lia. }
  intros n. unfold archived_name. rewrite <- is_template_active.
  destruct (endswith n ".md") eqn:Hmd; cbn [andb].
  2: { rewrite Hfsd. rewrite bool_decide_eq_false_2; [apply Hactc|].
       intros [(m & Hm & Hmd' & _)%Hdocs2 _]. apply app_inv_head in Hm as [= <-].
       congruence. }
  destruct (is_template (ACTIVE_DIR ++ [n])) eqn:Htpl; cbn [negb].
  { rewrite Hfsd. rewrite bool_decide_eq_false_2; [apply Hactc|]. intros [_ H]. congruence. }
  split.
  - rewrite Hfsd. case_bool_decide as Hin; [done|].
    rewrite Hactc. destruct (fs w !! (ACTIVE_DIR ++ [n])) as [nd|] eqn:Hnd; [|done].
    destruct Hin. split; [|done]. apply Hdocs2. exists n.
    repeat split; try done. by rewrite Hactc, Hnd.
  - intros nd Hnd.
    assert (Hin1 : ACTIVE_DIR ++ [n] ∈ docs1).
    { apply Hdocs1. exists n. repeat split; try done. by rewrite Hactb, Hnd. }
    apply (proj1 (Forall_forall _ _) Hcopied) in Hin1 as (s & Hs & Hw); [|done].
    exists s. split; [congruence|].
    rewrite Hkeep.
    2: { intros m H. by apply (archive_ne_active (rest ++ [n])) in H. }
    rewrite Hfs2. by apply (replay_copy_written (fs w) rest).
Qed.

Lemma subprocess_run_ok_inv env argv w r w' :
  quiet_commands env →
  subprocess_run env argv w = (Ok r, w') →
  fs w' = fs w ∧ ∃ tr, run env tr argv (fs w) = Some (r.1, r.2, fs w).
Proof.
  intros Hq. unfold subprocess_run. specialize (Hq (trace w) argv (fs w)).
  destruct (run env (trace w) argv (fs w)) as [[[rc out] f]|] eqn:E; [|done].
  intros [= <- <-]. subst f. split; [done|]. by exists (trace w).
Qed.

(** X8: what a successful [archive_session] has done.  On a well-formed
    file system and with external commands that change no file, a
    result of True means one of two things.  Either the archive script
    exited with status 0 and the program itself changed nothing; or the
    program archived in-process, and then: the dated directory is new,
    every "*.md" entry of the active directory other than a template
    is gone from there and its text is found under the same name in
    the dated directory, every other entry of the active directory is
    untouched, and no session is active any more. *)
Theorem archive_session_moves_documents env w w' :
  quiet_commands env →
  well_formed (fs w) →
  archive_session env w = (Ok true, w') →
  (fs w' = fs w ∧
   ∃ tr out, run env tr archive_script_argv (fs w) = Some (0, out, fs w)) ∨
  ∃ date session_name,
    fs w !! archive_dest date session_name = None ∧
    fs w' !! archive_dest date session_name = Some Dir ∧
    has_active_session w' = (Ok false, w') ∧
    ∀ n, if archived_name n
         then fs w' !! (ACTIVE_DIR ++ [n]) = None ∧
              ∀ nd, fs w !! (ACTIVE_DIR ++ [n]) = Some nd →
                    ∃ text, nd = File text ∧
                            fs w' !! (archive_dest date session_name ++ [n])
                              = Some (File text)
         else fs w' !! (ACTIVE_DIR ++ [n]) = fs w !! (ACTIVE_DIR ++ [n]).
Proof.
  intros Hq Hwf E. unfold archive_session in E.
  pose proof (has_active_session_world w) as Hw0.
  apply bind_ok_inv in E as (active & w0 & Ha & E).
  rewrite Ha in Hw0; cbn [snd] in Hw0; subst w0.
  destruct active; cbn [negb] in E; [|discriminate].
  pose proof (get_session_name_world w) as Hw0.
  apply bind_ok_inv in E as (session_name & w0 & Hn & E).
  rewrite Hn in Hw0; cbn [snd] in Hw0; subst w0.
  pose proof (keeps_generate_summary env Hq w) as (Hfs1 & _).
  apply bind_ok_inv in E as ([] & w1 & Hs & E).
  rewrite Hs in Hfs1; cbn [snd] in Hfs1.
  apply bind_ok_inv in E as (ex & ? & [= <- <-] & E).
  destruct (node_at (fs w1) (path_div SCRIPT_DIR "archive-task.sh")); [|discriminate].
  apply bind_ok_inv in E as ([rc out] & w2 & Hr & E).
  apply (subprocess_run_ok_inv env _ _ _ _ Hq) in Hr as (Hfs2 & tr & Hrun).
  cbn [fst snd] in Hrun. rewrite Hfs1 in Hfs2, Hrun.
  destruct (Z.eqb_spec rc 0) as [-> | Hrc].
  { left. apply bind_ok_inv in E as ([] & ? & [= <-] & E). injection E as <-.
    split; [done|]. by exists tr, out. }
  right. rewrite <- Hfs2 in Hwf.
  apply (simple_archive_moves env session_name w2 w' Hwf) in E
    as (date & Hnew & Hdir & Hmoved).
  rewrite Hfs2 in Hnew, Hmoved.
  exists date, session_name. do 2 (split; [done|]). split; [|done].
  specialize (Hmoved "task_plan.md"). cbn in Hmoved. destruct Hmoved as [Hgone _].
  unfold has_active_session. munfold. rewrite node_at_task_plan.
  change task_plan_file with ["active"; "task_plan.md"]. by rewrite Hgone.
Qed.

Lemma archive_session_moves_documents_witness :
  let w' := (archive_session live_env demo_world).2 in
  (fs w' = fs demo_world ∧
   ∃ tr out, run live_env tr archive_script_argv (fs demo_world)
               = Some (0, out, fs demo_world)) ∨
  ∃ date session_name,
    fs demo_world !! archive_dest date session_name = None ∧
    fs w' !! archive_dest date session_name = Some Dir ∧
    has_active_session w' = (Ok false, w') ∧
    ∀ n, if archived_name n
         then fs w' !! (ACTIVE_DIR ++ [n]) = None ∧
              ∀ nd, fs demo_world !! (ACTIVE_DIR ++ [n]) = Some nd →
                    ∃ text, nd = File text ∧
                            fs w' !! (archive_dest date session_name ++ [n])
                              = Some (File text)
         else fs w' !! (ACTIVE_DIR ++ [n]) = fs demo_world !! (ACTIVE_DIR ++ [n]).
Proof.
  intros w'. apply (archive_session_moves_documents live_env demo_world w').
  - intros tr argv f. reflexivity.
  - unfold well_formed. apply (bool_decide_unpack _). vm_compute. reflexivity.
  - vm_compute. reflexivity.
Defined.

Lemma emits_copy P src dst :
  (∀ s, P (EvWrite dst s)) → (∀ s, P (EvWrite (dst ++ [path_name src]) s)) →
  Emits P (copy src dst).
Proof.
  intros H1 H2. unfold copy.
  apply emits_bind; [apply emits_read_text|]. intros s.
  apply emits_bind; [by apply emits_silent|]. intros [];
    by apply emits_write_text.
Qed.

Lemma logged_copy src dst : Logged (copy src dst).
Proof.
  unfold copy. apply logged_bind; [apply logged_read_text|]. intros s.
  apply logged_bind; [by apply logged_silent|]. intros d. apply logged_write_text.
Qed.

Lemma logged_simple_archive env session_name : Logged (simple_archive env session_name).
Proof.
  pose proof logged_copy. unfold simple_archive. logged.
Qed.

Lemma logged_generate_summary env : quiet_commands env → Logged (generate_summary env).
Proof. intros Hq. unfold generate_summary. logged. Qed.

Lemma logged_has_active_session : Logged has_active_session.
Proof. apply logged_silent, has_active_session_world. Qed.

Lemma logged_get_session_name : Logged get_session_name.
Proof. apply logged_silent, get_session_name_world. Qed.

#[local] Hint Resolve logged_has_active_session logged_get_session_name : logged.

Lemma logged_archive_session env : quiet_commands env → Logged (archive_session env).
Proof.
  intros Hq. pose proof (logged_generate_summary env Hq).
  pose proof (logged_simple_archive env).
  unfold archive_session. logged.
Qed.

Lemma emits_simple_archive env session_name :
  Emits (touches archive_path) (simple_archive env session_name).
Proof.
  rewrite simple_archive_unfold.
  apply emits_bind; [apply emits_mkdir; left; by eexists|]. intros _.
  apply emits_bind; [apply emits_now|]. intros date. cbv zeta.
  destruct (archive_dest_cons date session_name) as [rest ->].
  apply emits_bind; [apply emits_path_exists|]. intros []; [apply emits_ret|].
  apply emits_bind; [apply emits_mkdir; left; by eexists|]. intros _.
  apply emits_bind; [apply emits_glob_md|]. intros docs1.
  apply emits_bind.
  { apply emits_for_each. intros f _. unfold copy_body.
    destruct (is_template f); [apply emits_ret|].
    apply emits_copy; intros s; left; by eexists. }
  intros _. apply emits_bind_ok; [apply emits_glob_md|]. intros docs2 w1 w2 Hg.
  destruct (glob_md_spec ACTIVE_DIR w1) as (docs & Hg' & Hdocs).
  rewrite Hg' in Hg. injection Hg as <- <-.
  apply emits_bind.
  { apply emits_for_each. intros f (n & -> & Hmd & _)%Hdocs. unfold unlink_body.
    destruct (is_template (ACTIVE_DIR ++ [n])) eqn:Htpl; [apply emits_ret|].
    apply emits_unlink. right. exists n. split; [|done].
    unfold archived_name. rewrite Hmd. rewrite is_template_active in Htpl.
    by rewrite Htpl. }
  intros _. apply emits_bind; [by apply emits_log | intros _; apply emits_ret].
Qed.

Lemma emits_has_active_session P : Emits P has_active_session.
Proof. apply emits_silent, has_active_session_world. Qed.

Lemma emits_get_session_name P : Emits P get_session_name.
Proof. apply emits_silent, get_session_name_world. Qed.

#[local] Hint Resolve emits_has_active_session emits_get_session_name : emits.

Lemma emits_archive_session env : Emits (touches archive_path) (archive_session env).
Proof.
  pose proof (emits_simple_archive env).
  unfold archive_session, generate_summary, print.
  emits; exact I.
Qed.



(** ** Activation *)

Lemma emits_wait_for_port P env n port :
  P (EvConnect port) → P (EvSleep 500) → Emits P (wait_for_port env n port).
Proof.
  intros Hc Hs. induction n as [|n IH]; cbn [wait_for_port]; [apply emits_ret|].
  apply emits_bind; [by apply emits_check_port|]. intros []; [apply emits_ret|].
  apply emits_bind; [by apply emits_log | intros _; apply IH].
Qed.

Lemma logged_wait_for_port env n port : Logged (wait_for_port env n port).
Proof.
  induction n as [|n IH]; cbn [wait_for_port]; [apply logged_ret|].
  apply logged_bind; [apply logged_check_port|]. intros []; [apply logged_ret|].
  apply logged_bind; [by apply logged_log | intros _; apply IH].
Qed.

Lemma emits_start_all P env l b :
  (∀ sc, sc ∈ l → Emits P (start_service env sc.1 sc.2)) →
  Emits P (start_all env l b).
Proof.
  revert b. induction l as [|[service config] l IH]; intros b Hl; cbn [start_all].
  - apply emits_ret.
  - apply emits_bind; [apply (Hl (service, config)); by left|].
    intros ok. apply IH. intros sc Hsc. apply Hl. by right.
Qed.

Lemma logged_start_all env l b :
  quiet_commands env → Logged (start_all env l b).
Proof.
  intros Hq. revert b. induction l as [|[service config] l IH]; intros b; cbn [start_all].
  - apply logged_ret.
  - apply logged_bind; [by apply logged_start_service|]. intros ok. apply IH.
Qed.

Lemma emits_create_auto_session P env :
  (∀ argv, argv ≠ archive_script_argv → P (EvRun argv)) →
  (∀ s, P (EvWrite task_plan_file s)) →
  Emits P (create_auto_session env).
Proof.
  intros Hr Hw.
  unfold create_auto_session, derive_session_name, get_git_branch, get_project_name.
  emits; auto; apply Hr; discriminate.
Qed.

Lemma logged_create_auto_session env :
  quiet_commands env → Logged (create_auto_session env).
Proof.
  intros Hq.
  unfold create_auto_session, derive_session_name, get_git_branch, get_project_name.
  logged.
Qed.

Lemma emits_ensure_dirs P :
  P (EvMkdir PID_DIR) → P (EvMkdir LOG_DIR) → P (EvMkdir ACTIVE_DIR) → Emits P ensure_dirs.
Proof. intros. unfold ensure_dirs. emits; auto. Qed.

Lemma emits_setup_hooks P env :
  (∀ s, P (EvWrite hook_file s)) → P (EvChmod hook_file) → Emits P (setup_hooks env).
Proof. intros. unfold setup_hooks. emits; auto. Qed.

Lemma emits_activate P env open_browser :
  (∀ m, P (EvPrint m)) → (∀ argv, argv ≠ archive_script_argv → P (EvRun argv)) →
  (∀ ms, P (EvSleep ms)) →
  (∀ pid, P (EvKill pid SIG0)) → (∀ pid, P (EvKill pid SIGTERM)) →
  (∀ port, P (EvConnect port)) → (∀ argv, P (EvPopen argv)) →
  (∀ p s, p ∈ activate_paths → P (EvWrite p s)) →
  (∀ p, p ∈ activate_paths → P (EvMkdir p)) →
  (∀ p, P (EvChmod p)) →
  (∀ url, open_browser = true → P (EvBrowser url)) →
  Emits P (activate env open_browser).
Proof.
  intros Hp Hr Hs Hk0 Hk Hc Ho Hw Hm Hch Hb.
  assert (Hin : ∀ p, bool_decide (p ∈ activate_paths) = true → p ∈ activate_paths).
  { intros p. apply bool_decide_eq_true_1. }
  unfold activate.
  apply emits_bind; [apply emits_ensure_dirs; apply Hm, Hin; reflexivity|]. intros _.
  apply emits_bind; [apply emits_has_active_session|]. intros active.
  apply emits_bind.
  { destruct active.
    - apply emits_bind; [apply emits_get_session_name|]. intros name.
      apply emits_bind; [by apply emits_log | intros _; apply emits_ret].
    - apply emits_bind.
      { apply emits_create_auto_session; [done|]. intros s. apply Hw, Hin. reflexivity. }
      intros name. apply emits_bind; [by apply emits_log | intros _; apply emits_ret]. }
  intros session_name. apply emits_bind.
  { apply emits_start_all. intros sc Hsc. unfold SERVICES in Hsc.
    apply emits_start_service; try done; intros s; apply Hw, Hin;
      (apply elem_of_cons in Hsc as [->|Hsc];
       [|apply list_elem_of_singleton in Hsc as ->]); reflexivity. }
  intros all_started.
  apply emits_bind; [by apply emits_wait_for_port|]. intros _.
  apply emits_bind.
  { apply emits_setup_hooks; [|done]. intros s. apply Hw, Hin. reflexivity. }
  intros _. apply emits_bind; [by apply emits_log|]. intros _.
  apply emits_bind; [|intros _; apply emits_ret].
  destruct all_started; [|by apply emits_log].
  apply emits_bind; [by apply emits_log|]. intros _.
  destruct open_browser; [apply emits_log; by apply Hb | apply emits_ret].
Qed.

Lemma logged_activate env open_browser :
  quiet_commands env → Logged (activate env open_browser).
Proof.
  intros Hq.
  pose proof (logged_create_auto_session env Hq).
  pose proof (logged_start_all env (SERVICES env) true Hq).
  pose proof (logged_wait_for_port env 20 web_port).
  unfold activate, ensure_dirs, setup_hooks. logged.
Qed.

(** X10: what [activate] never does.  In every environment and from
    every state, also when it ends with an exception, the actions of
    [activate] itself (what the external commands it runs do is not
    counted) include no deletion of a file and no SIGKILL: a process
    holding the web port gets SIGTERM at most; and the browser is
    opened only when [open_browser] is set. *)
Theorem activate_never_destroys env open_browser w :
  ∃ evs,
    trace (activate env open_browser w).2 = trace w ++ evs ∧
    Forall (activate_event open_browser) evs.
Proof. apply emits_activate; intros; cbn; done. Qed.

(** X11: [activate] writes only what belongs to it.  With external
    commands that change no file, every path other than the three
    working directories, the session marker, the hook file and the pid
    and log files of the two declared services is after [activate] as
    it was before: session documents, the knowledge base and the
    archive are left alone. *)
Theorem activate_confined env open_browser w p :
  quiet_commands env →
  p ∉ activate_paths →
  fs (activate env open_browser w).2 !! p = fs w !! p.
Proof.
  intros Hq Hp. apply (confined (λ q, q ∈ activate_paths)); [| |done].
  - by apply logged_activate.
  - apply emits_activate; intros; cbn; done.
Qed.

Lemma activate_confined_witness :
  fs (activate live_env false demo_world).2 !! ["active"; "notes.md"]
  = fs demo_world !! ["active"; "notes.md"].
Proof.
  apply activate_confined.
  - intros tr argv f. reflexivity.
  - apply (bool_decide_unpack _). vm_compute. reflexivity.
Defined.

(** X12: waiting for the web UI is bounded and harmless.
    [wait_for_port n] probes the port at most [n] times, pausing
    500 ms after each probe that found it closed; it stops at the first
    probe that finds the port open, gives up silently after [n] failed
    probes, and changes no file.  With the 20 probes of [activate] the
    pauses add up to at most 10 s. *)
Theorem wait_for_port_bounded env n port w :
  ∃ k, (k ≤ n)%nat ∧
    wait_for_port env n port w =
      (Ok (), {| fs := fs w;
                 trace := trace w ++ waits k port
                            ++ (if decide (k < n)%nat then [EvConnect port] else []) |}) ∧
    (∀ j, (j < k)%nat →
          port_open env (trace w ++ waits j port) port = false) ∧
    ((k < n)%nat → port_open env (trace w ++ waits k port) port = true).
Proof.
  revert w. induction n as [|n IH]; intros w.
  - exists 0%nat. split; [done|]. cbn. rewrite app_nil_r. destruct w.
    repeat split; [|lia]. intros j Hj. lia.
  - cbn [wait_for_port]. unfold mbind at 1, M_bind at 1. unfold check_port at 1.
    destruct (port_open env (trace w) port) eqn:Hopen.
    + exists 0%nat. split; [lia|]. rewrite decide_True by lia. cbn.
      split; [done|]. split; [intros j Hj; lia|]. by rewrite app_nil_r.
    + unfold mbind at 1, M_bind at 1. unfold sleep at 1, log at 1. cbn [fs trace].
      match goal with |- context [wait_for_port env n port ?w1] =>
        destruct (IH w1) as (k & Hk & -> & Hclosed & Hlast) end.
      cbn [fs trace] in *.
      exists (S k). split; [lia|].
      assert (Hw : ∀ j, ((trace w ++ [EvConnect port]) ++ [EvSleep 500]) ++ waits j port
                      = trace w ++ waits (S j) port).
      { intros j. unfold waits. cbn [replicate List.concat]. by rewrite <- !app_assoc. }
      split; [|split].
      * f_equal. f_equal. rewrite app_assoc, Hw, <- app_assoc.
        destruct (decide (k < n)%nat), (decide (S k < S n)%nat); try lia; done.
      * intros [|j] Hj.
        -- unfold waits. cbn. by rewrite app_nil_r.
        -- rewrite <- Hw. apply Hclosed. lia.
      * intros Hlt. rewrite <- Hw. apply Hlast. lia.
Qed.

(** ** The session marker *)

#[local] Arguments String.append : simpl nomatch.

Lemma string_app_nil_r (s : string) : (s ++ "")%string = s.
Proof. induction s as [|c s IH]; [done|]. cbn [String.append]. by f_equal. Qed.

Lemma string_app_assoc (a b c : string) : ((a ++ b) ++ c)%string = (a ++ (b ++ c))%string.
Proof. induction a as [|x a IH]; [done|]. cbn [String.append]. by f_equal. Qed.

Lemma lstrip_length s : (String.length (lstrip s) ≤ String.length s)%nat.
Proof.
  induction s as [|c s IH]; [done|]. cbn [lstrip].
  destruct (py_isspace c); cbn [String.length]; lia.
Qed.

Lemma rstrip_length s : (String.length (rstrip s) ≤ String.length s)%nat.
Proof.
  induction s as [|c s IH]; [done|]. cbn [rstrip].
  destruct (rstrip s) as [|d r]; [destruct (py_isspace c)|]; cbn [String.length] in *; lia.
Qed.

Lemma strip_fixed_head c n : strip (String c n) = String c n → py_isspace c = false.
Proof.
  unfold strip. cbn [lstrip]. destruct (py_isspace c); [|done]. intros H.
  apply (f_equal String.length) in H. cbn [String.length] in H.
  pose proof (rstrip_length (lstrip n)). pose proof (lstrip_length n). lia.
Qed.

Lemma rep_greedy_run cls k name : ∀ least acc prev d rest g,
  all_chars cls name = true → cls d = false → (least ≤ String.length name)%nat →
  k (acc ++ name)%string (Re.last_char prev name) (String d rest) = Some g →
  Re.rep_greedy cls k least acc prev (name ++ String d rest)%string = Some g.
Proof.
  induction name as [|c n IH]; intros least acc prev d rest g Hall Hd Hlen Hk.
  - cbn in *. rewrite Hd. rewrite string_app_nil_r in Hk.
    destruct least; [done|lia].
  - cbn [all_chars] in Hall. apply andb_prop in Hall as [Hc Hall].
    cbn [String.append Re.rep_greedy]. rewrite Hc.
    rewrite (IH (Nat.pred least) (Re.snoc acc c) (Some c) d rest g); try done.
    + cbn [String.length] in Hlen. lia.
    + unfold Re.snoc. by rewrite string_app_assoc.
Qed.

Lemma task_plan_text_shape name id ts branch :
  ∃ rest, task_plan_text name id ts branch
          = ("# Task: " ++ name ++ String newline rest)%string.
Proof. eexists. reflexivity. Qed.

Lemma search_from_here ml p prev s g :
  Re.match_here ml p prev s "" = Some g → Re.search_from ml p prev s = Some g.
Proof. intros H. destruct s; cbn [Re.search_from]; by rewrite H. Qed.

Lemma task_header_finds name rest :
  name ≠ "" → strip name = name → all_chars Re.not_newline name = true →
  Re.search true Re.task_header ("# Task: " ++ name ++ String newline rest)%string
    = Some name.
Proof.
  intros Hne Hstrip Hnl. destruct name as [|c n]; [done|].
  apply strip_fixed_head in Hstrip.
  apply search_from_here. unfold Re.task_header.
  cbn [Re.match_here Re.at_bol strip_prefix String.append Ascii.eqb Bool.eqb].
  cbn [Re.last_char].
  change (String " " (String c (n ++ String newline rest)))%string
    with (" " ++ String c (n ++ String newline rest))%string.
  apply rep_greedy_run; [done|done|cbn; lia|].
  cbn [Re.match_here].
  change (String c (n ++ String newline rest))%string
    with (String c n ++ String newline rest)%string.
  apply rep_greedy_run; [done|done|cbn; lia|].
  cbn [Re.match_here Re.at_eol String.append]. rewrite Ascii.eqb_refl. done.
Qed.



Lemma write_text_ok_inv p s w w' :
  write_text p s w = (Ok (), w') →
  w' = {| fs := <[p := File s]> (fs w); trace := trace w ++ [EvWrite p s] |}.
Proof.
  unfold write_text, store.
  destruct (node_at (fs w) p) as [[]|]; [..|destruct (is_dir_at _ _)];
    by intros [= <-].
Qed.

(** X14: what [create_auto_session] leaves at the marker.  A call that
    returns has derived the branch and the name it returns, then run
    the init script; if the marker found after that is a file without
    the placeholder, nothing more happens: the marker is the one found
    there.  If it is missing or holds the placeholder, the document for
    the returned name, the derived branch and the current time is
    written over it, and nothing else.  In both cases the marker is a
    regular file afterwards. *)
Theorem create_auto_session_leaves_marker env w name w' :
  create_auto_session env w = (Ok name, w') →
  ∃ branch w1 w2,
    derive_session_name env w = (Ok (branch, name), w1) ∧
    init_session env name w1 = (Ok (), w2) ∧
    ((∃ text, fs w2 !! task_plan_file = Some (File text) ∧
              str_in placeholder text = false ∧ w' = w2) ∨
     ((fs w2 !! task_plan_file = None ∨
       ∃ old, fs w2 !! task_plan_file = Some (File old) ∧
              str_in placeholder old = true) ∧
      w' = {| fs := <[task_plan_file := File (fresh_marker env name branch (trace w2))]>
                      (fs w2);
              trace := trace w2 ++ [EvWrite task_plan_file
                                      (fresh_marker env name branch (trace w2))] |})).
Proof.
  unfold create_auto_session. intros H.
  apply bind_ok_inv in H as ([branch name'] & w1 & Hname & H).
  assert (Hinit : ∃ w2, init_session env name' w1 = (Ok (), w2) ∧
    (ex ← path_exists task_plan_file;
     stale ← (if ex : bool then content ← read_text task_plan_file;
                                mret (str_in placeholder content)
              else mret true);
     (if stale : bool then
        timestamp ← now env "%Y-%m-%d %H:%M:%S";
        stamp ← now env "%Y%m%d_%H%M%S";
        write_text task_plan_file
          (task_plan_text name' ("sess_" ++ stamp)%string timestamp branch)
      else mret ());;
     mret name') w2 = (Ok name, w')).
  { unfold init_session. cbv zeta in *.
    apply bind_ok_inv in H as (ex & w2 & Hex & H).
    apply bind_ok_inv in H as ([] & w3 & Hrun & H).
    exists w3. split; [|exact H].
    unfold mbind at 1, M_bind at 1. rewrite Hex. exact Hrun. }
  clear H. destruct Hinit as (w2 & Hinit & H).
  apply bind_ok_inv in H as (ex2 & ? & [= <- <-] & H).
  apply bind_ok_inv in H as (stale & w4 & Hstale & H).
  apply bind_ok_inv in H as ([] & w5 & Hwrite & H).
  injection H as -> <-.
  exists branch, w1, w2. do 2 (split; [done|]).
  rewrite node_at_task_plan in Hstale.
  destruct (fs w2 !! task_plan_file) as [nd|] eqn:Hnd.
  - apply bind_ok_inv in Hstale as (content & w6 & Hread & Hstale).
    unfold read_text in Hread. rewrite node_at_task_plan, Hnd in Hread.
    destruct nd as [text| |]; try discriminate.
    injection Hread as <- <-. injection Hstale as Hph <-.
    destruct (str_in placeholder text) eqn:Hin; subst stale.
    + right. split; [right; by exists text|].
      apply bind_ok_inv in Hwrite as (timestamp & ? & [= <- <-] & Hwrite).
      apply bind_ok_inv in Hwrite as (stamp & ? & [= <- <-] & Hwrite).
      by apply write_text_ok_inv in Hwrite.
    + left. injection Hwrite as <-. by exists text.
  - injection Hstale as <- <-. right. split; [by left|].
    apply bind_ok_inv in Hwrite as (timestamp & ? & [= <- <-] & Hwrite).
    apply bind_ok_inv in Hwrite as (stamp & ? & [= <- <-] & Hwrite).
    by apply write_text_ok_inv in Hwrite.
Qed.

Lemma create_auto_session_leaves_marker_witness :
  let w0 := {| fs := {[ ["active"] := Dir ]}; trace := [] |} in
  ∃ branch w1 w2,
    derive_session_name feature_env w0 = (Ok (branch, "feature-login"), w1) ∧
    init_session feature_env "feature-login" w1 = (Ok (), w2) ∧
    ((∃ text, fs w2 !! task_plan_file = Some (File text) ∧
              str_in placeholder text = false ∧
              (create_auto_session feature_env w0).2 = w2) ∨
     ((fs w2 !! task_plan_file = None ∨
       ∃ old, fs w2 !! task_plan_file = Some (File old) ∧
              str_in placeholder old = true) ∧
      (create_auto_session feature_env w0).2 =
        {| fs := <[task_plan_file :=
                     File (fresh_marker feature_env "feature-login" branch (trace w2))]>
                   (fs w2);
           trace := trace w2 ++ [EvWrite task_plan_file
                      (fresh_marker feature_env "feature-login" branch (trace w2))] |})).
Proof.
  intros w0. apply (create_auto_session_leaves_marker feature_env w0).
  vm_compute. reflexivity.
Defined.

Lemma all_chars_app P a b :
  all_chars P (a ++ b)%string = all_chars P a && all_chars P b.
Proof.
  induction a as [|c a IH]; [done|]. cbn [String.append all_chars].
  by rewrite IH, andb_assoc.
Qed.

Lemma all_chars_lstrip P s : all_chars P s = true → all_chars P (lstrip s) = true.
Proof.
  induction s as [|c s IH]; [done|]. cbn [lstrip all_chars].
  intros [Hc Hs]%andb_prop. destruct (py_isspace c); [by apply IH|].
  cbn [all_chars]. by rewrite Hc, Hs.
Qed.

Lemma all_chars_rstrip P s : all_chars P s = true → all_chars P (rstrip s) = true.
Proof.
  induction s as [|c s IH]; [done|]. cbn [rstrip all_chars].
  intros [Hc Hs]%andb_prop. specialize (IH Hs).
  destruct (rstrip s) as [|d r]; [destruct (py_isspace c)|]; cbn [all_chars] in *;
    by rewrite ?Hc, ?IH.
Qed.

(** Whatever a greedy repetition returns was returned by what follows it. *)
Lemma rep_greedy_result cls k s : ∀ least acc prev g,
  Re.rep_greedy cls k least acc prev s = Some g →
  ∃ acc' prev' s', k acc' prev' s' = Some g.
Proof.
  induction s as [|c r IH]; intros least acc prev g; cbn [Re.rep_greedy].
  - destruct least; [eauto|done].
  - destruct (cls c).
    + destruct (Re.rep_greedy cls k (Nat.pred least) (Re.snoc acc c) (Some c) r) eqn:E.
      * intros [= ->]. by apply IH in E.
      * destruct least; [eauto|done].
    + destruct least; [eauto|done].
Qed.

(** A capturing repetition in front of a continuation that returns its
    capture yields characters of the class only. *)
Lemma rep_greedy_capture cls k s : ∀ least acc prev g,
  (∀ acc' prev' s' g', k acc' prev' s' = Some g' → g' = acc') →
  all_chars cls acc = true →
  Re.rep_greedy cls k least acc prev s = Some g →
  all_chars cls g = true.
Proof.
  induction s as [|c r IH]; intros least acc prev g Hk Hacc; cbn [Re.rep_greedy].
  - destruct least; [|done]. by intros ->%Hk.
  - destruct (cls c) eqn:Hc.
    + destruct (Re.rep_greedy cls k (Nat.pred least) (Re.snoc acc c) (Some c) r) eqn:E.
      * intros [= ->]. apply IH in E; [done|done|].
        unfold Re.snoc. rewrite all_chars_app, Hacc. cbn. by rewrite Hc.
      * destruct least; [|done]. by intros ->%Hk.
    + destruct least; [|done]. by intros ->%Hk.
Qed.

Lemma task_header_here_inv prev s g :
  Re.match_here true Re.task_header prev s "" = Some g →
  startswith s "# Task:" = true ∧ all_chars Re.not_newline g = true.
Proof.
  unfold Re.task_header. cbn [Re.match_here].
  destruct (Re.at_bol true prev); [|done]. unfold startswith.
  destruct (strip_prefix "# Task:" s) as [s'|]; [|done]. intros H. split; [done|].
  apply rep_greedy_result in H as (acc' & prev' & s'' & H).
  cbn [Re.match_here] in H.
  apply rep_greedy_capture in H; [done| |done].
  intros acc prev0 s0 g'. cbn [Re.match_here].
  destruct (Re.at_eol true s0); [|done]. by intros [= ->].
Qed.

Lemma task_header_search_inv s : ∀ prev g,
  Re.search_from true Re.task_header prev s = Some g →
  str_in "# Task:" s = true ∧ all_chars Re.not_newline g = true.
Proof.
  induction s as [|c r IH]; intros prev g; cbn [Re.search_from str_in].
  - destruct (Re.match_here true Re.task_header prev "" "") eqn:E; [|done].
    intros [= ->]. apply task_header_here_inv in E as [-> ?]. done.
  - destruct (Re.match_here true Re.task_header prev (String c r) "") eqn:E.
    + intros [= ->]. apply task_header_here_inv in E as [-> ?]. done.
    + intros [Hin Hg]%IH. by rewrite Hin, orb_true_r.
Qed.

(** X15: a named session is an active one, up to the placeholder.
    Whenever [get_session_name] returns a name, that name lies on one
    line, the marker file is a readable file containing "# Task:", and
    [has_active_session] answers True unless the placeholder occurs
    somewhere in the marker. *)
Theorem named_session_is_active w name w' :
  get_session_name w = (Ok (Some name), w') →
  all_chars Re.not_newline name = true ∧
  ∃ text,
    fs w !! task_plan_file = Some (File text) ∧
    str_in "# Task:" text = true ∧
    has_active_session w = (Ok (negb (str_in placeholder text)), w).
Proof.
  unfold get_session_name, has_active_session. munfold.
  destruct (fs w !! task_plan_file) as [nd|] eqn:Hnd;
    repeat (rewrite !node_at_task_plan, !Hnd; cbv beta iota); [|discriminate].
  destruct nd as [text| |]; try discriminate.
  destruct (Re.search true Re.task_header text) as [g|] eqn:Hsearch;
    [|cbv beta; discriminate].
  apply task_header_search_inv in Hsearch as [Hin Hg].
  destruct (negb (strip g =? "")%string && negb (strip g =? placeholder)%string);
    cbv beta; [|discriminate].
  intros [= <- <-]. split.
  - by apply all_chars_rstrip, all_chars_lstrip.
  - exists text. by rewrite Hin.
Qed.

Lemma named_session_is_active_witness :
  all_chars Re.not_newline "old-name" = true ∧
  ∃ text,
    fs demo_world !! task_plan_file = Some (File text) ∧
    str_in "# Task:" text = true ∧
    has_active_session demo_world = (Ok (negb (str_in placeholder text)), demo_world).
Proof.
  apply (named_session_is_active demo_world "old-name" demo_world).
  vm_compute. reflexivity.
Defined.

(** ** The project name *)

Lemma strip_prefix_inv p : ∀ s r, strip_prefix p s = Some r → s = (p ++ r)%string.
Proof.
  induction p as [|a p IH]; intros s r; cbn [strip_prefix String.append].
  - by intros [= ->].
  - destruct s as [|b s]; [done|]. destruct (Ascii.eqb_spec a b) as [->|]; [|done].
    by intros ->%IH.
Qed.

Lemma at_eol_inv s : Re.at_eol false s = true → s = "" ∨ s = String newline "".
Proof.
  destruct s as [|c r]; [by left|]. cbn [Re.at_eol orb].
  intros [Hc Hr]%andb_prop. right.
  apply Ascii.eqb_eq in Hc as ->. by apply String.eqb_eq in Hr as ->.
Qed.

(** A lazy repetition hands over to what follows it after a run of
    characters of the class. *)
Lemma rep_lazy_inv cls k s : ∀ least acc prev g,
  Re.rep_lazy cls k least acc prev s = Some g →
  ∃ t s' prev',
    s = (t ++ s')%string ∧ all_chars cls t = true ∧ (least ≤ String.length t)%nat ∧
    k (acc ++ t)%string prev' s' = Some g.
Proof.
  induction s as [|c r IH]; intros least acc prev g; cbn [Re.rep_lazy].
  - destruct least; [|done].
    destruct (k acc prev "") eqn:E; [|done]. intros [= ->].
    exists "", "", prev. rewrite (string_app_nil_r acc). by repeat split.
  - assert (Hstep : (if cls c
                     then Re.rep_lazy cls k (Nat.pred least) (Re.snoc acc c) (Some c) r
                     else None) = Some g →
            ∃ t s' prev',
              String c r = (t ++ s')%string ∧ all_chars cls t = true ∧
              (least ≤ String.length t)%nat ∧ k (acc ++ t)%string prev' s' = Some g).
    { destruct (cls c) eqn:Hc; [|done]. intros (t & s' & prev' & -> & Ht & Hlen & Hk)%IH.
      exists (String c t), s', prev'. cbn [String.append all_chars String.length].
      rewrite Hc, Ht. repeat split; [lia|].
      unfold Re.snoc in Hk. by rewrite string_app_assoc in Hk. }
    destruct least; [|exact Hstep].
    destruct (k acc prev (String c r)) eqn:E; [|exact Hstep]. intros [= ->].
    exists "", (String c r), prev. rewrite (string_app_nil_r acc). by repeat split.
Qed.

Lemma repo_name_here_inv prev s g :
  Re.match_here false Re.repo_name prev s "" = Some g →
  g ≠ "" ∧ all_chars Re.not_slash g = true ∧
  ∃ tail, s = ("/" ++ g ++ tail)%string ∧ url_tail tail.
Proof.
  unfold Re.repo_name. cbn [Re.match_here].
  destruct (strip_prefix "/" s) as [s1|] eqn:Hs; [|done].
  apply strip_prefix_inv in Hs as ->.
  intros (t & s' & prev' & -> & Ht & Hlen & Hk)%rep_lazy_inv.
  cbn [String.append Re.match_here] in Hk.
  assert (g = t ∧ url_tail s') as [-> Htail].
  { destruct (strip_prefix ".git" s') as [s''|] eqn:Hgit.
    - apply strip_prefix_inv in Hgit as ->.
      destruct (Re.at_eol false s'') eqn:Heol.
      + injection Hk as <-. split; [done|].
        apply at_eol_inv in Heol as [-> | ->]; unfold url_tail; auto.
      + destruct (Re.at_eol false (".git" ++ s'')) eqn:Heol'; [|done].
        injection Hk as <-. split; [done|].
        apply at_eol_inv in Heol' as [H | H]; discriminate H.
    - destruct (Re.at_eol false s') eqn:Heol; [|done]. injection Hk as <-.
      split; [done|]. apply at_eol_inv in Heol as [-> | ->]; unfold url_tail; auto. }
  split; [|split; [done|by exists s']].
  intros ->. cbn in Hlen. lia.
Qed.

Lemma repo_name_search_inv s : ∀ prev g,
  Re.search_from false Re.repo_name prev s = Some g →
  g ≠ "" ∧ all_chars Re.not_slash g = true ∧
  ∃ pre tail, s = (pre ++ "/" ++ g ++ tail)%string ∧ url_tail tail.
Proof.
  induction s as [|c r IH]; intros prev g; cbn [Re.search_from].
  - destruct (Re.match_here false Re.repo_name prev "" "") eqn:E; [|done].
    intros [= ->]. apply repo_name_here_inv in E as (? & ? & tail & ? & ?).
    do 2 (split; [done|]). by exists "", tail.
  - destruct (Re.match_here false Re.repo_name prev (String c r) "") eqn:E.
    + intros [= ->]. apply repo_name_here_inv in E as (? & ? & tail & ? & ?).
      do 2 (split; [done|]). by exists "", tail.
    + intros (? & ? & pre & tail & -> & ?)%IH. do 2 (split; [done|]).
      by exists (String c pre), tail.
Qed.

(** X16: where the project name comes from.  [get_project_name] never
    raises.  Its result is the name of the project directory, or else
    git printed a remote URL with exit status 0 and the result is the
    last component of that URL: it is not empty, contains no slash,
    follows a slash and is followed by nothing or by ".git" (and at
    most a final line break). *)
Theorem get_project_name_from_remote env w :
  ∃ name w',
    get_project_name env w = (Ok name, w') ∧
    (name = project_dir env ∨
     ∃ out f pre tail,
       run env (trace w) ["git"; "remote"; "get-url"; "origin"] (fs w) = Some (0, out, f) ∧
       strip out = (pre ++ "/" ++ name ++ tail)%string ∧ url_tail tail ∧
       name ≠ "" ∧ all_chars Re.not_slash name = true).
Proof.
  unfold get_project_name, subprocess_run. munfold.
  destruct (run env (trace w) ["git"; "remote"; "get-url"; "origin"] (fs w))
    as [[[rc out] f]|] eqn:Hrun; cbn [any_exception].
  2: { eexists _, _. split; [done|]. by left. }
  destruct (Z.eqb_spec rc 0) as [->|]; cbv beta iota.
  2: { eexists _, _. split; [done|]. by left. }
  destruct (Re.search false Re.repo_name (strip out)) as [g|] eqn:Hsearch.
  2: { eexists _, _. split; [done|]. by left. }
  eexists _, _. split; [done|]. right.
  apply repo_name_search_inv in Hsearch as (Hne & Hg & pre & tail & Hurl & Htail).
  by exists out, f, pre, tail.
Qed.

(** ** A process that exits on SIGTERM *)

Lemma polls_S n pid : polls (S n) pid = [EvKill pid SIG0; EvSleep 100] ++ polls n pid.
Proof. reflexivity. Qed.

Lemma poll_then_kill_exits env pid n : ∀ j w,
  fits_pid_t pid = true →
  (j < n)%nat →
  (∀ i, (i < j)%nat → kill_ok env (trace w ++ polls i pid) pid SIG0 = true) →
  kill_ok env (trace w ++ polls j pid) pid SIG0 = false →
  poll_then_kill env n pid w =
    (Ok (), {| fs := fs w; trace := trace w ++ polls j pid ++ [EvKill pid SIG0] |}).
Proof.
  intros j w Hfit. revert j w.
  induction n as [|n IH]; intros j w Hj Halive Hdead; [lia|].
  change (poll_then_kill env (S n) pid) with
    (alive ← is_running env pid;
     if alive : bool then sleep 100;; poll_then_kill env n pid else mret ()).
  munfold. rewrite is_running_eq by done.
  destruct j as [|j].
  - change (polls 0 pid) with (@nil event) in *. rewrite app_nil_r in Hdead.
    by rewrite Hdead.
  - pose proof (Halive 0%nat ltac:(lia)) as H0.
    change (polls 0 pid) with (@nil event) in H0. rewrite app_nil_r in H0. rewrite H0.
    unfold sleep, log. cbn [fs trace].
    rewrite (IH j); cbn [fs trace].
    + by rewrite polls_S, <- !app_assoc.
    + lia.
    + intros i Hi. rewrite <- !app_assoc. apply (Halive (S i)). lia.
    + rewrite <- !app_assoc. apply Hdead.
Qed.

(** X17: the ordinary stop.  When the recorded process is alive, takes
    SIGTERM and is found gone at the poll number [j] (counted from 0,
    with [j] below ten), [stop_service] sends no SIGKILL: it probes,
    sends SIGTERM, polls [j] times with a pause of 100 ms each, sees
    the process gone at the next poll, deletes the pid record, prints
    that the service was stopped and returns True. *)
Theorem stop_service_graceful env service config w s pid j :
  fs w !! get_pid_file service = Some (File s) →
  py_int (strip s) = Some pid →
  pid ≠ 0 →
  fits_pid_t pid = true →
  kill_ok env (trace w) pid SIG0 = true →
  kill_ok env (trace w ++ [EvKill pid SIG0]) pid SIGTERM = true →
  (j < 10)%nat →
  (∀ i, (i < j)%nat →
        kill_ok env (trace w ++ [EvKill pid SIG0; EvKill pid SIGTERM] ++ polls i pid)
          pid SIG0 = true) →
  kill_ok env (trace w ++ [EvKill pid SIG0; EvKill pid SIGTERM] ++ polls j pid)
    pid SIG0 = false →
  stop_service env service config w =
    (Ok true,
     {| fs := delete (get_pid_file service) (fs w);
        trace := trace w ++ [EvKill pid SIG0; EvKill pid SIGTERM] ++ polls j pid
                   ++ [EvKill pid SIG0; EvUnlink (get_pid_file service);
                       EvPrint (MsgStopped (cfg_name config))] |}).
Proof.
  intros Hfile Hint Hnz Hfit Halive Hterm Hj Hpolls Hdead.
  unfold stop_service. munfold.
  rewrite read_pid_total, node_at_pid_file, Hfile, Hint. cbn [pid_alive].
  destruct (Z.eqb_spec pid 0) as [|_]; [done|].
  rewrite is_running_eq, Halive by done. cbn [negb default from_option id].
  rewrite os_kill_eq by done. cbn [fs trace]. rewrite Hterm.
  rewrite (poll_then_kill_exits env pid 10 j); try done; cbn [fs trace].
  - rewrite remove_pid_eq. cbn [fs trace]. rewrite Hfile.
    unfold print, log. cbn [fs trace]. by rewrite <- !app_assoc.
  - intros i Hi. rewrite <- !app_assoc. by apply Hpolls.
  - by rewrite <- !app_assoc.
Qed.

Lemma stop_service_graceful_witness :
  stop_service mortal_env "web_ui" (web_ui_config mortal_env) demo_world =
    (Ok true,
     {| fs := delete (get_pid_file "web_ui") (fs demo_world);
        trace := trace demo_world ++ [EvKill 4242 SIG0; EvKill 4242 SIGTERM]
                   ++ polls 0 4242
                   ++ [EvKill 4242 SIG0; EvUnlink (get_pid_file "web_ui");
                       EvPrint (MsgStopped "Web UI")] |}).
Proof.
  apply (stop_service_graceful mortal_env "web_ui" (web_ui_config mortal_env)
           demo_world "4242
" 4242 0%nat).
  - vm_compute. reflexivity.
  - vm_compute. reflexivity.
  - lia.
  - reflexivity.
  - reflexivity.
  - reflexivity.
  - lia.
  - intros i Hi. lia.
  - reflexivity.
Defined.

(** ** Freeing a busy port *)

(** X18: freeing a port is best effort and aims at the right
    processes.  [free_port] never raises, whatever lsof and os.kill do;
    the only signal it sends is SIGTERM, and only to process ids that
    lsof printed, one per line; lines that are not numbers, and signals
    that fail, are passed over. *)
Theorem free_port_signals env name port w :
  ∃ w' evs,
    free_port env name port w = (Ok (), w') ∧
    trace w' = trace w ++ evs ∧
    Forall (free_port_event
              (lsof_lines env (trace w ++ [EvPrint (MsgPortBusy name port)]) port (fs w)))
           evs.
Proof.
  destruct (total_free_port env name port w) as ([] & w' & E).
  exists w'. rewrite E.
  set (lines := lsof_lines env (trace w ++ [EvPrint (MsgPortBusy name port)]) port (fs w)).
  assert (He : ∃ evs, trace (free_port env name port w).2 = trace w ++ evs ∧
                      Forall (free_port_event lines) evs).
  { unfold free_port. unfold mbind at 1, M_bind at 1. unfold print at 1, log at 1.
    unfold try_except at 1, mbind at 1, M_bind at 1, subprocess_run at 1. cbn [fs trace].
    unfold lines, lsof_lines.
    destruct (run env (trace w ++ [EvPrint (MsgPortBusy name port)])
                ["lsof"; "-ti"; (":" ++ py_str port)%string] (fs w))
      as [[[rc out] f]|]; cbn [any_exception fst snd trace].
    2: { exists [EvPrint (MsgPortBusy name port);
                 EvRun ["lsof"; "-ti"; (":" ++ py_str port)%string]].
         rewrite <- app_assoc. split; [done|]. by repeat constructor. }
    destruct (String.eqb (strip out) "").
    { exists [EvPrint (MsgPortBusy name port);
              EvRun ["lsof"; "-ti"; (":" ++ py_str port)%string]].
      cbn. rewrite <- app_assoc. split; [done|]. by repeat constructor. }
    match goal with |- context [(?m ≫= ?k) ?w2] =>
      assert (Hloop : Emits (free_port_event (split_on newline (strip out))) (m ≫= k)) end.
    { apply emits_bind; [|intros _; by apply emits_log].
      apply emits_for_each. intros line Hline.
      apply emits_try; [|intros _; apply emits_ret].
      destruct (py_int line) as [pid|] eqn:Hpid; [|apply emits_raise].
      apply emits_os_kill. split; [done|]. by exists line. }
    match goal with |- context [(?m ≫= ?k) ?w2] =>
      destruct (Hloop w2) as (evs & Htr & Hevs);
      destruct ((m ≫= k) w2) as [[[]|e] w3] end;
      cbv beta iota; unfold mret, M_ret; cbn [snd trace] in *;
      (exists ([EvPrint (MsgPortBusy name port);
                EvRun ["lsof"; "-ti"; (":" ++ py_str port)%string]] ++ evs);
       split; [by rewrite Htr, <- !app_assoc|];
       apply Forall_app; split; [|done];
       constructor; [exact I|]; constructor; [exact I|]; constructor). }
  destruct He as (evs & Htr & Hevs). rewrite E in Htr. by exists evs.
Qed.

(** ** The derived session name *)

Lemma replace_char_plain branch :
  all_chars plain_char (replace_char "_" "-" (replace_char "/" "-" branch)) = true.
Proof.
  induction branch as [|c s IH]; [done|]. cbn [replace_char all_chars]. rewrite IH.
  rewrite andb_true_r. unfold plain_char.
  destruct (Ascii.eqb_spec c "/") as [->|Hc]; [done|].
  destruct (Ascii.eqb_spec c "_") as [->|Hc']; [done|].
  by destruct (Ascii.eqb_spec c "/"), (Ascii.eqb_spec c "_").
Qed.

Lemma dashed_not_trunk project date :
  (project ++ "-" ++ date)%string ≠ "main" ∧ (project ++ "-" ++ date)%string ≠ "master".
Proof.
  assert (H : all_chars (λ c, negb (Ascii.eqb c "-")) (project ++ "-" ++ date)%string
              = false).
  { rewrite all_chars_app. cbn. by rewrite andb_false_r. }
  split; intros Heq; by rewrite Heq in H.
Qed.

(** X19: the name of an automatic session.  The name that
    [create_auto_session] returns is determined by what git reports at
    the start of the call: it is the branch (main when git gives none)
    with every slash and underscore replaced by a dash, and then
    contains neither; unless that is main or master, in which case it
    is the project name and the date joined by a dash.  It is never
    main or master itself. *)
Theorem create_auto_session_name env w name w' :
  create_auto_session env w = (Ok name, w') →
  name ≠ "main" ∧ name ≠ "master" ∧
  ∃ found w1 project w2,
    get_git_branch env w = (Ok found, w1) ∧
    get_project_name env w1 = (Ok project, w2) ∧
    let cleaned := clean_branch (branch_or_main found) in
    if String.eqb cleaned "main" || String.eqb cleaned "master"
    then name = (project ++ "-" ++ strftime env (trace w2) "%Y%m%d")%string
    else name = cleaned ∧ all_chars plain_char name = true.
Proof.
  unfold create_auto_session. intros H.
  apply bind_ok_inv in H as ([branch name'] & w1 & Hname & H).
  apply bind_ok_inv in H as (ex & w2 & _ & H).
  apply bind_ok_inv in H as ([] & w3 & _ & H).
  apply bind_ok_inv in H as (ex2 & w4 & _ & H).
  apply bind_ok_inv in H as (stale & w5 & _ & H).
  apply bind_ok_inv in H as ([] & w6 & _ & H).
  injection H as <- <-.
  unfold derive_session_name in Hname.
  apply bind_ok_inv in Hname as (found & w7 & Hfound & Hname).
  apply bind_ok_inv in Hname as (project & w8 & Hproject & Hname).
  cbv zeta in Hname. fold (branch_or_main found) in Hname.
  fold (clean_branch (branch_or_main found)) in Hname.
  assert (Hgoal :
    (let cleaned := clean_branch (branch_or_main found) in
     if String.eqb cleaned "main" || String.eqb cleaned "master"
     then name' = (project ++ "-" ++ strftime env (trace w8) "%Y%m%d")%string
     else name' = cleaned ∧ all_chars plain_char name' = true) ∧
    name' ≠ "main" ∧ name' ≠ "master").
  { cbv zeta.
    destruct (String.eqb_spec (clean_branch (branch_or_main found)) "main") as [Em|Em];
      cbn [orb] in *.
    { apply bind_ok_inv in Hname as (date & ? & [= <- <-] & [= _ <-]).
      split; [done|]. apply dashed_not_trunk. }
    destruct (String.eqb_spec (clean_branch (branch_or_main found)) "master") as [Es|Es].
    { apply bind_ok_inv in Hname as (date & ? & [= <- <-] & [= _ <-]).
      split; [done|]. apply dashed_not_trunk. }
    injection Hname as _ <-. split; [|done]. split; [done|].
    apply replace_char_plain. }
  destruct Hgoal as (Hshape & Hm & Hs).
  do 2 (split; [done|]). by exists found, w7, project, w8.
Qed.

Lemma create_auto_session_name_witness :
  "feature-login" ≠ "main" ∧ "feature-login" ≠ "master" ∧
  ∃ found w1 project w2,
    get_git_branch feature_env demo_world = (Ok found, w1) ∧
    get_project_name feature_env w1 = (Ok project, w2) ∧
    let cleaned := clean_branch (branch_or_main found) in
    if String.eqb cleaned "main" || String.eqb cleaned "master"
    then "feature-login"
         = (project ++ "-" ++ strftime feature_env (trace w2) "%Y%m%d")%string
    else "feature-login" = cleaned ∧ all_chars plain_char "feature-login" = true.
Proof.
  apply (create_auto_session_name feature_env demo_world "feature-login"
           (create_auto_session feature_env demo_world).2).
  vm_compute. reflexivity.
Defined.

(** ** Exit status of the commands *)

Lemma main_activate env prog rest :
  main env (prog :: "activate" :: rest) =
    (success ← activate env (negb (bool_decide ("--no-browser" ∈ prog :: "activate" :: rest)));
     mret (if success : bool then 0 else 1)).
Proof. reflexivity. Qed.

Lemma main_status env prog rest :
  main env (prog :: "status" :: rest) = (status env;; mret 0).
Proof. reflexivity. Qed.

(** The run of [activate], step by step. *)
Lemma activate_steps env open_browser w :
  activate env open_browser w =
    (session_name ← activate_session env;
     ok1 ← start_service env "web_ui" (web_ui_config env);
     ok2 ← start_service env "file_watcher" file_watcher_config;
     activate_finish env open_browser session_name (ok1 && ok2)) w.
Proof.
  unfold activate, activate_session, activate_finish, SERVICES. cbn [start_all].
  unfold mbind, M_bind.
  destruct (ensure_dirs w) as [[[]|e] w0]; [|done].
  destruct (has_active_session w0) as [[active|e] w1]; [|done].
  destruct active.
  - destruct (get_session_name w1) as [[name|e] w2]; [|done].
    destruct (print (MsgActiveSession name) w2) as [[[]|e] w3]; [|done].
    cbn [mret M_ret].
    destruct (start_service env "web_ui" (web_ui_config env) w3) as [[ok1|e] w4]; [|done].
    destruct (start_service env "file_watcher" file_watcher_config w4)
      as [[ok2|e] w5]; [|done].
    by destruct ok1, ok2.
  - destruct (create_auto_session env w1) as [[name|e] w2]; [|done].
    destruct (print (MsgCreatedSession name) w2) as [[[]|e] w3]; [|done].
    cbn [mret M_ret].
    destruct (start_service env "web_ui" (web_ui_config env) w3) as [[ok1|e] w4]; [|done].
    destruct (start_service env "file_watcher" file_watcher_config w4)
      as [[ok2|e] w5]; [|done].
    by destruct ok1, ok2.
Qed.

Lemma activate_finish_result env open_browser session_name all_started w b w' :
  activate_finish env open_browser session_name all_started w = (Ok b, w') →
  b = all_started.
Proof.
  unfold activate_finish. intros H.
  apply bind_ok_inv in H as (? & ? & _ & H).
  apply bind_ok_inv in H as (? & ? & _ & H).
  apply bind_ok_inv in H as (? & ? & _ & H).
  apply bind_ok_inv in H as (? & ? & _ & H).
  by injection H as <-.
Qed.

Lemma keeps_fs {A} P (m : M A) w r w' : Keeps P m → m w = (r, w') → fs w' = fs w.
Proof. intros Hm E. destruct (Hm w) as [Hfs _]. by rewrite E in Hfs. Qed.

Lemma has_active_session_ok_inv w r w' :
  has_active_session w = (Ok r, w') → unreadable (fs w) task_plan_file = false.
Proof.
  unfold has_active_session, unreadable. munfold.
  destruct (node_at (fs w) task_plan_file) as [[]|] eqn:E; try done;
    cbv beta iota; rewrite ?E; done.
Qed.

Lemma pid_alive_ok_inv env pid w r w' :
  pid_alive env pid w = (Ok r, w') → overflowing pid = false.
Proof.
  destruct pid as [n|]; [|done]. cbn [pid_alive overflowing].
  destruct (Z.eqb n 0); [done|]. cbn [negb andb].
  destruct (fits_pid_t n) eqn:Hfit; [done|].
  by rewrite is_running_overflow.
Qed.

Lemma status_services_ok_inv env l : ∀ b w r w',
  status_services env l b w = (Ok r, w') →
  Forall (λ sc, overflowing (recorded (fs w) sc.1) = false) l.
Proof.
  induction l as [|[service config] l IH]; intros b w r w' H; [constructor|].
  cbn [status_services] in H.
  apply bind_ok_inv in H as (pid & w1 & Hread & H).
  rewrite read_pid_total, node_at_pid_file in Hread. injection Hread as <- <-.
  apply bind_ok_inv in H as (running & w2 & Halive & H).
  pose proof (keeps_fs _ _ _ _ _ (keeps_pid_alive env _) Halive) as Hfs2.
  constructor; [by apply pid_alive_ok_inv in Halive|].
  destruct running.
  - apply bind_ok_inv in H as ([] & w3 & [= <-] & H).
    apply IH in H. by rewrite <- Hfs2.
  - apply bind_ok_inv in H as ([] & w3 & [= <-] & H).
    apply IH in H. by rewrite <- Hfs2.
Qed.

Lemma knowledge_loop_ok_inv (l : list string) : ∀ w w',
  for_each l (λ f,
    let fpath := path_div (path_div MEMORY_DIR "knowledge") f in
    ex ← path_exists fpath;
    if ex : bool then
      text ← read_text fpath;
      print (MsgKnowledge f (List.length (split_on newline text)))
    else mret ()) w = (Ok (), w') →
  existsb (λ n, unreadable (fs w) (path_div (path_div MEMORY_DIR "knowledge") n)) l = false.
Proof.
  induction l as [|n l IH]; intros w w' H; [done|].
  cbn [for_each] in H. apply bind_ok_inv in H as ([] & w1 & Hn & H).
  cbn [existsb]. apply orb_false_intro.
  - cbv zeta in Hn. unfold unreadable. munfold.
    destruct (node_at (fs w) (path_div (path_div MEMORY_DIR "knowledge") n))
      as [[]|] eqn:E; try done; cbv beta iota in Hn; rewrite ?E in Hn; done.
  - assert (Hfs : fs w1 = fs w).
    { eapply (keeps_fs probe); [|exact Hn]. keeps. }
    rewrite <- Hfs. by apply (IH _ w').
Qed.

Lemma status_ok_inv env w r w' :
  status env w = (Ok r, w') → status_blocked (fs w) = false.
Proof.
  unfold status. intros H.
  apply bind_ok_inv in H as (active & w0 & Hact & H).
  pose proof (has_active_session_world w) as Hw0. rewrite Hact in Hw0. cbn in Hw0. subst w0.
  apply has_active_session_ok_inv in Hact.
  apply bind_ok_inv in H as ([] & w1 & Hsess & H).
  assert (Hfs1 : fs w1 = fs w).
  { eapply (keeps_fs probe); [|exact Hsess]. keeps. }
  apply bind_ok_inv in H as (any_running & w2 & Hsvc & H).
  pose proof (keeps_fs _ _ _ _ _ (keeps_status_services env _ _) Hsvc) as Hfs2.
  apply status_services_ok_inv in Hsvc. rewrite Hfs1 in Hsvc.
  apply bind_ok_inv in H as ([] & w3 & Hport & H).
  assert (Hfs3 : fs w3 = fs w2).
  { eapply (keeps_fs probe); [|exact Hport]. keeps. }
  destruct r. apply knowledge_loop_ok_inv in H. rewrite Hfs3, Hfs2, Hfs1 in H.
  unfold SERVICES in Hsvc.
  apply Forall_cons in Hsvc as [Hweb Hsvc]. apply Forall_cons in Hsvc as [Hfw _].
  cbn [fst] in Hweb, Hfw.
  unfold status_blocked, knowledge_files. by rewrite Hact, Hweb, Hfw, H.
Qed.

Lemma exit_status_activate env prog rest w :
  exit_status env (prog :: "activate" :: rest) w =
    match activate env (negb (bool_decide ("--no-browser" ∈ prog :: "activate" :: rest))) w
    with
    | (Ok true, _) => 0
    | _ => 1
    end.
Proof.
  unfold exit_status. rewrite main_activate. unfold mbind, M_bind.
  by destruct (activate env _ w) as [[[]|e] w'].
Qed.

(** C5, in the form that holds.  The run of the activate command
    consists of the session step, the start of the web UI, the start of
    the file watcher and the closing step, in this order.  When all
    four return, the exit status is 0 if both starts returned True and
    1 otherwise: the value of hook setup and the state of the session
    do not enter it; when one of them ends with an exception, the exit
    status is 1.  Nothing that activate does is an archival.  The
    status command exits with 0 when it returns and with 1 when it ends
    with an exception, which it does whenever the marker or a knowledge
    file is there but cannot be read or a recorded pid does not fit
    pid_t. *)
Theorem exit_status_of_commands env w prog rest :
  let argv := prog :: "activate" :: rest in
  let open_browser := negb (bool_decide ("--no-browser" ∈ argv)) in
  activate env open_browser w =
    (session_name ← activate_session env;
     ok1 ← start_service env "web_ui" (web_ui_config env);
     ok2 ← start_service env "file_watcher" file_watcher_config;
     activate_finish env open_browser session_name (ok1 && ok2)) w ∧
  match activate_session env w with
  | (Ok session_name, w1) =>
      match start_service env "web_ui" (web_ui_config env) w1 with
      | (Ok ok1, w2) =>
          match start_service env "file_watcher" file_watcher_config w2 with
          | (Ok ok2, w3) =>
              match activate_finish env open_browser session_name (ok1 && ok2) w3 with
              | (Ok _, _) => exit_status env argv w = (if ok1 && ok2 then 0 else 1)
              | (Raise _, _) => exit_status env argv w = 1
              end
          | (Raise _, _) => exit_status env argv w = 1
          end
      | (Raise _, _) => exit_status env argv w = 1
      end
  | (Raise _, _) => exit_status env argv w = 1
  end ∧
  (∃ evs, trace (activate env open_browser w).2 = trace w ++ evs ∧
          Forall no_archival evs) ∧
  match status env w with
  | (Ok _, _) => exit_status env (prog :: "status" :: rest) w = 0
  | (Raise _, _) => exit_status env (prog :: "status" :: rest) w = 1
  end ∧
  (status_blocked (fs w) = true → exit_status env (prog :: "status" :: rest) w = 1).
Proof.
  intros argv open_browser. split; [apply activate_steps|]. split; [|split; [|split]].
  - unfold argv. rewrite exit_status_activate. fold argv. fold open_browser.
    rewrite activate_steps. unfold mbind, M_bind.
    destruct (activate_session env w) as [[session_name|e] w1]; [|reflexivity].
    destruct (start_service env "web_ui" (web_ui_config env) w1)
      as [[ok1|e] w2]; [|reflexivity].
    destruct (start_service env "file_watcher" file_watcher_config w2)
      as [[ok2|e] w3]; [|reflexivity].
    destruct (activate_finish env open_browser session_name (ok1 && ok2) w3)
      as [[b|e] w4] eqn:E; [|reflexivity].
    apply activate_finish_result in E as ->. by destruct ok1, ok2.
  - apply emits_activate; intros; cbn; try done.
    + intros q ->. revert H. apply (bool_decide_unpack _). vm_compute. reflexivity.
    + intros q ->. revert H. apply (bool_decide_unpack _). vm_compute. reflexivity.
  - unfold exit_status. rewrite main_status.
    unfold mbind, M_bind. by destruct (status env w) as [[[]|e] w'].
  - intros Hblocked. unfold exit_status. rewrite main_status.
    unfold mbind, M_bind. destruct (status env w) as [[[]|e] w'] eqn:E; [|done].
    apply status_ok_inv in E. congruence.
Qed.

(** C5, counterexample: both services start, hook setup then fails to
    write the hook file, and the exit status is 1. *)
Lemma activate_exit_status_with_locked_hook :
  (activate live_env false locked_hook_world).1 = Raise OSError ∧
  printed (trace (activate live_env false locked_hook_world).2) =
    [MsgActiveSession (Some "old-name"); MsgStarted "Web UI" 4242;
     MsgStarted "File Watcher" 4243] ∧
  exit_status live_env ["service_manager.py"; "activate"; "--no-browser"]
    locked_hook_world = 1.
Proof. repeat split; vm_compute; reflexivity. Qed.

(** The status command exits with 1 on a pid record that does not fit
    pid_t: the liveness probe raises OverflowError, which nothing
    catches. *)
Example status_exit_status_overflow :
  exit_status live_env ["service_manager.py"; "status"]
    {| fs := {[ [".pids"; "web_ui.pid"] := File "99999999999" ]}; trace := [] |} = 1.
Proof. vm_compute. reflexivity. Qed.
